(** * banterop: the A2A chat client and the agent-card validator

    A shallow embedding of [src/validate/a2a_client.py] and
    [src/validate/validate_a2a_card.py].  The two scripts are sequential
    glue around an HTTP library and the A2A SDK; every call that leaves the
    script (HTTP GET, SDK call, sleep, print) is recorded as an [Event] of
    a trace, and the answers of the outside world are function arguments
    (oracles).  Python exceptions are values of a sum type. *)

From Stdlib Require Import String Ascii List ZArith Bool Lia PrimFloat DecimalString.
Import ListNotations.
Local Open Scope string_scope.
Local Open Scope list_scope.
Set Warnings "-register-all".

(** ** Python [str] operations used by the scripts *)

Module PyStr.

(** [s.startswith(p)] *)
Definition startswith (s p : string) : bool := String.prefix p s.

(** [sub in s] *)
Fixpoint contains (sub s : string) : bool :=
  match s with
  | EmptyString => String.prefix sub EmptyString
  | String _ s' => String.prefix sub s || contains sub s'
  end.

(** [s.replace(old, new)] for a non-empty [old]: the occurrences are found
    from the left and do not overlap.  [skip] counts the characters of the
    occurrence just replaced that are still to be dropped. *)
Fixpoint replace_from (old new : string) (skip : nat) (s : string) : string :=
  match s with
  | EmptyString => EmptyString
  | String c s' =>
      match skip with
      | S k => replace_from old new k s'
      | O =>
          if String.prefix old s
          then new ++ replace_from old new (String.length old - 1) s'
          else String c (replace_from old new 0 s')
      end
  end.

(** [s.replace('', new)]: [new] before every character and at the end. *)
Fixpoint replace_empty (new s : string) : string :=
  match s with
  | EmptyString => new
  | String c s' => new ++ String c (replace_empty new s')
  end.

Definition replace (s old new : string) : string :=
  match old with
  | EmptyString => replace_empty new s
  | _ => replace_from old new 0 s
  end.

End PyStr.

(** ** [SimpleA2AClient._get_agent_card_urls] *)

Definition well_known_suffix : string := "/.well-known/agent-card.json".

Definition _get_agent_card_urls (agent_url : string) : list string :=
  let urls := [] in
  (* Standard .well-known path *)
  let urls :=
    if PyStr.contains "/a2a" agent_url
    then urls ++ [PyStr.replace agent_url "/a2a" well_known_suffix]
    else urls in
  (* For localhost:3003 pattern *)
  let urls :=
    if PyStr.contains "localhost:3003" agent_url
    then urls ++ [PyStr.replace (PyStr.replace agent_url "/api/rooms/" "/rooms/")
                                "/a2a" "/agent-card.json"]
    else urls in
  (* Direct .well-known at the end *)
  urls ++ [(agent_url ++ well_known_suffix)%string].

(** ** Values exchanged with the outside world *)

(** What [json.loads] / [response.json()] returns.  A dict keeps its
    insertion order, so it is an association list with distinct keys. *)
Inductive JSON : Type :=
| JNull
| JBool (b : bool)
| JInt (n : Z)
| JFloat (x : float)
| JStr (s : string)
| JList (items : list JSON)
| JDict (items : list (string * JSON)).

(** One entry of [ValidationError.errors()]. *)
Record ErrorDetails := {
  loc : list (string + Z);
  msg : string;
  input : option JSON;      (* [None]: no 'input' key *)
  ctx : option JSON         (* [None]: no 'ctx' key *)
}.

(** The exceptions the scripts tell apart.  [Timeout], [ConnectionError]
    and [HTTPError] are those of [requests.exceptions]; [ValidationError]
    is pydantic's. *)
Inductive Exception : Type :=
| Timeout
| ConnectionError (details : string)
| HTTPError (status_code : Z) (text : string)
| JSONDecodeError (details : string)
| ValidationError (errors : list ErrorDetails)
| TypeError (details : string)
| OtherError (type_name details : string).

(** [type(e).__name__] *)
Definition type_name_of (e : Exception) : string :=
  match e with
  | Timeout => "Timeout"
  | ConnectionError _ => "ConnectionError"
  | HTTPError _ _ => "HTTPError"
  | JSONDecodeError _ => "JSONDecodeError"
  | ValidationError _ => "ValidationError"
  | TypeError _ => "TypeError"
  | OtherError n _ => n
  end.

(** An HTTP response: [json] is what [response.json()] does, the decoded
    body or the details of the decoding error it raises. *)
Record Response := {
  status_code : Z;
  text : string;
  json : string + JSON
}.

(** *** The SDK's agent card ([a2a.types]), with the attributes the
    scripts read.  An attribute the SDK declares optional is an [option]. *)

Record AgentProvider := {
  organization : string;
  provider_url : string
}.

Record AgentExtension := {
  uri : string;
  ext_description : option string;
  required : option bool
}.

Record AgentCapabilities := {
  streaming : option bool;
  push_notifications : option bool;
  state_transition_history : option bool;
  extensions : option (list AgentExtension)
}.

Record AgentSkill := {
  skill_id : string;
  skill_name : string;
  skill_description : string;
  tags : list string
}.

Record AgentInterface := {
  interface_url : string;
  transport : string
}.

Record AgentCard := {
  name : string;
  protocol_version : option string;
  description : string;
  url : string;
  version : string;
  preferred_transport : option string;
  provider : option AgentProvider;
  capabilities : option AgentCapabilities;
  skills : list AgentSkill;
  additional_interfaces : option (list AgentInterface);
  default_input_modes : list string;
  default_output_modes : list string
}.

(** *** Tasks and messages ([a2a.types]) *)

Inductive TaskState :=
| submitted | working | input_required | completed | canceled
| failed | rejected | auth_required | unknown.

(** [TaskState] is a [str] enumeration: the value of each member. *)
Definition TaskState_value (s : TaskState) : string :=
  match s with
  | submitted => "submitted"
  | working => "working"
  | input_required => "input-required"
  | completed => "completed"
  | canceled => "canceled"
  | failed => "failed"
  | rejected => "rejected"
  | auth_required => "auth-required"
  | unknown => "unknown"
  end.

Inductive Role := agent | user.

(** An SDK [Message]; [message_text] is what [get_message_text] returns
    for it. *)
Record Message := {
  message_id : string;
  role : Role;
  message_text : string
}.

(** The object found in [task.status.message]: an SDK message, or an
    object without a [message_id] attribute, known by its [id()]. *)
Inductive StatusMessage :=
| WithId (m : Message)
| WithoutId (obj_id : Z) (r : Role) (txt : string).

Record TaskStatus := {
  state : option TaskState;            (* [None]: no 'state' attribute *)
  status_message : option StatusMessage; (* [None]: absent or falsy *)
  status_str : string                  (* [str(task.status)] *)
}.

Inductive HistoryItem :=
| HMessage (m : Message)
| HOther.

Record Task := {
  task_id : string;
  status : TaskStatus;
  history : option (list HistoryItem)
}.

Record TaskQueryParams := {
  query_id : string;
  history_length : Z
}.

Record TaskStatusUpdateEvent := {
  update_task_id : string;
  update_state : TaskState
}.

(** ** The trace *)

(** An argument of a formatted [print]. *)
Inductive Value :=
| VNone
| VStr (s : string)
| VInt (n : Z)
| VBool (b : bool)
| VFloat (x : float)
| VJson (j : JSON)               (* [str(j)] *)
| VDump (j : JSON)               (* [json.dumps(j, indent=2)] *)
| VCard (c : AgentCard)          (* [json.dumps(c.model_dump(...), indent=2)] *)
| VState (s : TaskState)
| VExc (e : Exception).

Inductive Event :=
| EPrint (fmt : string) (args : list Value)
| ESleep (seconds : float)
| EHttpGet (target : string)
| EHttpClientNew (timeout : float)
| EHttpClientClose
| EModelValidate (data : JSON)
| EFactoryCreate (card : AgentCard)
| EGetTask (params : TaskQueryParams)
| ENewStatusUpdate (tid : string) (st : TaskState)
| ESendTaskStatusUpdate (ev : TaskStatusUpdateEvent)
| EAppend (msg_id : string).     (* [messages_received.append(msg_id)] *)

(** The objects [connect] creates. *)
Inductive HttpClient := AsyncClient (timeout : float).
Inductive Client := ClientOf (card : AgentCard).

(** The SDK, a black box to both scripts. *)
Record SDK := {
  model_validate : JSON -> Exception + AgentCard;
  factory_create : AgentCard -> Exception + Client;
  new_status_update : string -> TaskState -> Exception + TaskStatusUpdateEvent;
  send_task_status_update : TaskStatusUpdateEvent -> Exception + unit
}.

(** ** Computations: a trace, and a result, an exception or an exit *)

Inductive Outcome (A : Type) : Type :=
| Ok (a : A)
| Raise (e : Exception)
| Exit (code : Z).               (* [sys.exit(code)]: not an [Exception] *)
Arguments Ok {A} a.
Arguments Raise {A} e.
Arguments Exit {A} code.

Definition M (A : Type) : Type := (list Event * Outcome A)%type.

Definition ret {A} (a : A) : M A := ([], Ok a).
Definition raise {A} (e : Exception) : M A := ([], Raise e).
Definition sys_exit {A} (code : Z) : M A := ([], Exit code).
Definition tell (evs : list Event) : M unit := (evs, Ok tt).
Definition print (fmt : string) (args : list Value) : M unit :=
  tell [EPrint fmt args].

Definition bind {A B} (m : M A) (k : A -> M B) : M B :=
  match m with
  | (evs, Ok a) => let (evs', r) := k a in (evs ++ evs', r)
  | (evs, Raise e) => (evs, Raise e)
  | (evs, Exit c) => (evs, Exit c)
  end.

(** [try: m  except Exception as e: handler e] *)
Definition try_except {A} (m : M A) (handler : Exception -> M A) : M A :=
  match m with
  | (evs, Raise e) => let (evs', r) := handler e in (evs ++ evs', r)
  | _ => m
  end.

(** The result of an outside call enters the computation. *)
Definition lift {A} (r : Exception + A) : M A :=
  match r with
  | inl e => raise e
  | inr a => ret a
  end.

Declare Scope monad_scope.
Delimit Scope monad_scope with monad.
Notation "x <- m ;; k" := (bind m (fun x => k))
  (at level 61, m at next level, right associativity) : monad_scope.
Notation "m ;; k" := (bind m (fun _ => k))
  (at level 61, right associativity) : monad_scope.
Local Open Scope monad_scope.

(** [for x in l: body x] *)
Fixpoint for_each {A} (l : list A) (body : A -> M unit) : M unit :=
  match l with
  | [] => ret tt
  | x :: l' => body x ;; for_each l' body
  end.

(** [if c: m] *)
Definition when (c : bool) (m : M unit) : M unit :=
  if c then m else ret tt.

Definition trace {A} (m : M A) : list Event := fst m.
Definition outcome {A} (m : M A) : Outcome A := snd m.

(** ** Small Python helpers *)

(** [str(n)] for an integer. *)
Definition str_of_Z (n : Z) : string :=
  DecimalString.NilZero.string_of_int (Z.to_int n).

(** [s[:n]], a string being the sequence of its characters. *)
Definition slice_to (n : nat) (s : string) : string := String.substring 0 n s.

(** [s * n] *)
Fixpoint str_mul (s : string) (n : nat) : string :=
  match n with
  | O => EmptyString
  | S n' => (s ++ str_mul s n')%string
  end.

(** Truth value of a string, a list, an optional list. *)
Definition nonempty_str (s : string) : bool :=
  match s with EmptyString => false | _ => true end.

Definition nonempty {A} (l : list A) : bool :=
  match l with [] => false | _ => true end.

Definition opt_list {A} (o : option (list A)) : list A :=
  match o with Some l => l | None => [] end.

Definition VOptStr (o : option string) : Value :=
  match o with Some s => VStr s | None => VNone end.

Definition VOptBool (o : option bool) : Value :=
  match o with Some b => VBool b | None => VNone end.

Definition VLen {A} (l : list A) : Value := VInt (Z.of_nat (List.length l)).

(** [x[:n]] of an optional string: [None] is not subscriptable. *)
Definition slice_opt (n : nat) (o : option string) : M string :=
  match o with
  | Some s => ret (slice_to n s)
  | None => raise (TypeError "'NoneType' object is not subscriptable")
  end.

(** [enumerate(l, start)] *)
Fixpoint enumerate {A} (start : Z) (l : list A) : list (Z * A) :=
  match l with
  | [] => []
  | x :: l' => (start, x) :: enumerate (start + 1) l'
  end.

(** ** [validate_a2a_card.py] *)

Module Validator.

Definition rule (c : string) (n : nat) : Value := VStr (str_mul c n).

(** [response.raise_for_status()] of [requests] *)
Definition raise_for_status (response : Response) : M unit :=
  if (400 <=? status_code response)%Z && (status_code response <? 600)%Z
  then raise (HTTPError (status_code response) (text response))
  else ret tt.

(** [response.json()] *)
Definition response_json (response : Response) : M JSON :=
  match json response with
  | inl details => raise (JSONDecodeError details)
  | inr data => ret data
  end.

(** Lines 37-93: the report of a validated card. *)
Definition print_validated (agent_card : AgentCard) : M unit :=
  print "✅ VALIDATION PASSED\n" [] ;;
  print "Agent Card Details (validated by a2a-sdk):" [] ;;
  print "{}" [rule "-" 40] ;;
  print "  Name: {}" [VStr (name agent_card)] ;;
  print "  Protocol Version: {}" [VOptStr (protocol_version agent_card)] ;;
  print "  Description: {}..." [VStr (slice_to 80 (description agent_card))] ;;
  print "  URL: {}" [VStr (url agent_card)] ;;
  print "  Version: {}" [VStr (version agent_card)] ;;
  print "  Preferred Transport: {}" [VOptStr (preferred_transport agent_card)] ;;
  (* Provider information *)
  match provider agent_card with
  | Some p =>
      print "\nProvider:" [] ;;
      print "  Organization: {}" [VStr (organization p)] ;;
      when (nonempty_str (provider_url p))
        (print "  URL: {}" [VStr (provider_url p)])
  | None => ret tt
  end ;;
  (* Capabilities *)
  match capabilities agent_card with
  | Some c =>
      print "\nCapabilities:" [] ;;
      print "  Streaming: {}" [VOptBool (streaming c)] ;;
      print "  Push Notifications: {}" [VOptBool (push_notifications c)] ;;
      print "  State Transition History: {}"
            [VOptBool (state_transition_history c)] ;;
      when (nonempty (opt_list (extensions c)))
        (print "\nExtensions ({}):" [VLen (opt_list (extensions c))] ;;
         for_each (opt_list (extensions c)) (fun ext =>
           print "  - URI: {}" [VStr (uri ext)] ;;
           d <- slice_opt 60 (ext_description ext) ;;
           print "    Description: {}..." [VStr d] ;;
           print "    Required: {}" [VOptBool (required ext)]))
  | None => ret tt
  end ;;
  (* Skills *)
  when (nonempty (skills agent_card))
    (print "\nSkills ({}):" [VLen (skills agent_card)] ;;
     for_each (skills agent_card) (fun skill =>
       print "  - {} (id: {})" [VStr (skill_name skill); VStr (skill_id skill)] ;;
       print "    Description: {}..."
             [VStr (slice_to 60 (skill_description skill))] ;;
       when (nonempty (tags skill))
         (print "    Tags: {}" [VStr (String.concat ", " (tags skill))]))) ;;
  (* Additional interfaces *)
  when (nonempty (opt_list (additional_interfaces agent_card)))
    (print "\nAdditional Interfaces ({}):"
           [VLen (opt_list (additional_interfaces agent_card))] ;;
     for_each (opt_list (additional_interfaces agent_card)) (fun interface =>
       print "  - URL: {}" [VStr (interface_url interface)] ;;
       print "    Transport: {}" [VStr (transport interface)])) ;;
  (* Input/Output modes *)
  when (nonempty (default_input_modes agent_card))
    (print "\nDefault Input Modes: {}"
           [VStr (String.concat ", " (default_input_modes agent_card))]) ;;
  when (nonempty (default_output_modes agent_card))
    (print "Default Output Modes: {}"
           [VStr (String.concat ", " (default_output_modes agent_card))]) ;;
  print "{}" [VStr ("\n" ++ str_mul "=" 60)] ;;
  print "Full Validated Model (as JSON):" [] ;;
  print "{}" [rule "=" 60] ;;
  print "{}" [VCard agent_card].

(** [str(loc)] for one step of an error location. *)
Definition str_of_loc (l : string + Z) : string :=
  match l with
  | inl s => s
  | inr n => str_of_Z n
  end.

(** The lines printed for the error numbered [idx]. *)
Definition print_error (idx : Z) (error : ErrorDetails) : M unit :=
  let field_path := String.concat " → " (map str_of_loc (loc error)) in
  print "\n{}. Field: {}" [VInt idx; VStr field_path] ;;
  print "   Error: {}" [VStr (msg error)] ;;
  match input error with
  | Some v => print "   Input value: {}" [VJson v]
  | None => ret tt
  end ;;
  match ctx error with
  | Some v => print "   Context: {}" [VJson v]
  | None => ret tt
  end.

(** Lines 95-112: the handler of [ValidationError]. *)
Definition validation_failed (errors : list ErrorDetails)
    (agent_card_data : JSON) : M unit :=
  print "❌ VALIDATION FAILED\n" [] ;;
  print "Validation errors from a2a-sdk:" [] ;;
  print "{}" [rule "-" 40] ;;
  for_each (enumerate 1 errors) (fun '(idx, error) => print_error idx error) ;;
  print "{}" [VStr ("\n" ++ str_mul "=" 60)] ;;
  print "Raw JSON received:" [] ;;
  print "{}" [rule "=" 60] ;;
  print "{}" [VDump agent_card_data] ;;
  sys_exit 1.

(** [try: m  except ValidationError as e: handler e.errors()] *)
Definition try_except_ValidationError {A} (m : M A)
    (handler : list ErrorDetails -> M A) : M A :=
  match m with
  | (evs, Raise (ValidationError errors)) =>
      let (evs', r) := handler errors in (evs ++ evs', r)
  | _ => m
  end.

(** Lines 114-134: the handlers of the outer [try], in their order. *)
Definition transport_failed (target : string) (e : Exception) : M unit :=
  match e with
  | Timeout =>
      print "❌ ERROR: Request timed out after 10 seconds" [] ;;
      sys_exit 1
  | ConnectionError _ =>
      print "❌ ERROR: Failed to connect to {}" [VStr target] ;;
      print "   Details: {}" [VExc e] ;;
      sys_exit 1
  | HTTPError code body =>
      print "❌ ERROR: HTTP error occurred" [] ;;
      print "   Status code: {}" [VInt code] ;;
      print "   Response: {}" [VStr body] ;;
      sys_exit 1
  | JSONDecodeError _ =>
      print "❌ ERROR: Invalid JSON response" [] ;;
      print "   Details: {}" [VExc e] ;;
      sys_exit 1
  | _ =>
      print "❌ ERROR: Unexpected error occurred" [] ;;
      print "   Type: {}" [VStr (type_name_of e)] ;;
      print "   Details: {}" [VExc e] ;;
      sys_exit 1
  end.

(** Lines 33-112: validation with the SDK and its report. *)
Definition check_card (sdk : SDK) (agent_card_data : JSON) : M unit :=
  try_except_ValidationError
    (tell [EModelValidate agent_card_data] ;;
     agent_card <- lift (model_validate sdk agent_card_data) ;;
     print_validated agent_card)
    (fun errors => validation_failed errors agent_card_data).

(** Lines 24-112: the body of the outer [try].  [requests_get target] is
    what [requests.get(target, timeout=10)] does: the response, or the
    exception it raises. *)
Definition fetch_and_check (sdk : SDK)
    (requests_get : string -> Exception + Response) (target : string)
    : M unit :=
  (* Fetch the agent card *)
  tell [EHttpGet target] ;;
  response <- lift (requests_get target) ;;
  raise_for_status response ;;
  agent_card_data <- response_json response ;;
  print "✓ Successfully fetched agent card" [] ;;
  print "  Response status: {}" [VInt (status_code response)] ;;
  print "  Content size: {} bytes\n"
        [VInt (Z.of_nat (String.length (text response)))] ;;
  (* Validate using the A2A SDK *)
  check_card sdk agent_card_data.

Definition validate_agent_card_from_url (sdk : SDK)
    (requests_get : string -> Exception + Response) (target : string)
    : M unit :=
  print "{}" [rule "=" 60] ;;
  print "A2A SDK Agent Card Validator" [] ;;
  print "{}" [rule "=" 60] ;;
  print "\nFetching agent card from: {}\n" [VStr target] ;;
  try_except (fetch_and_check sdk requests_get target)
             (transport_failed target).

Definition main (sdk : SDK)
    (requests_get : string -> Exception + Response) (argv : list string)
    : M unit :=
  when (negb (List.length argv =? 2)%nat)
    (print "Usage: python validate_a2a_card.py <agent-card-url>" [] ;;
     print "Example: python validate_a2a_card.py http://localhost:3003/rooms/abc/agent-card.json" [] ;;
     sys_exit 1) ;;
  let target := nth 1 argv EmptyString in
  (* Basic URL validation *)
  when (negb (PyStr.startswith target "http://"
              || PyStr.startswith target "https://"))
    (print "❌ ERROR: Invalid URL format. URL must start with http:// or https://" [] ;;
     print "   Provided: {}" [VStr target] ;;
     sys_exit 1) ;;
  validate_agent_card_from_url sdk requests_get target.

(** The status the process ends with. *)
Definition exit_status {A} (m : M A) : Z :=
  match outcome m with
  | Ok _ => 0
  | Raise _ => 1
  | Exit code => code
  end.

End Validator.

(** ** [a2a_client.py] *)

Module Client.

Record SimpleA2AClient := {
  agent_url : string;
  client : option Client;
  http_client : option HttpClient;
  current_task : option Task
}.

(** [SimpleA2AClient(agent_url)] *)
Definition init (agent_url : string) : SimpleA2AClient :=
  {| agent_url := agent_url; client := None; http_client := None;
     current_task := None |}.

Definition set_current_task (self : SimpleA2AClient) (t : option Task)
    : SimpleA2AClient :=
  {| agent_url := agent_url self; client := client self;
     http_client := http_client self; current_task := t |}.

Definition set_http_client (self : SimpleA2AClient) (h : option HttpClient)
    : SimpleA2AClient :=
  {| agent_url := agent_url self; client := client self;
     http_client := h; current_task := current_task self |}.

Definition set_client (self : SimpleA2AClient) (c : option Client)
    : SimpleA2AClient :=
  {| agent_url := agent_url self; client := c;
     http_client := http_client self; current_task := current_task self |}.

(** *** [connect] *)

(** Truth value of a decoded JSON document. *)
Definition truthy (v : JSON) : bool :=
  match v with
  | JNull => false
  | JBool b => b
  | JInt n => negb (n =? 0)%Z
  | JFloat x => negb (PrimFloat.eqb x PrimFloat.zero)
  | JStr s => nonempty_str s
  | JList items => nonempty items
  | JDict items => nonempty items
  end.

(** [key in data] *)
Definition py_in (key : string) (data : JSON) : M bool :=
  match data with
  | JDict items => ret (existsb (fun kv => (fst kv =? key)%string) items)
  | JList items =>
      ret (existsb (fun v => match v with
                             | JStr s => (s =? key)%string
                             | _ => false
                             end) items)
  | JStr s => ret (PyStr.contains key s)
  | _ => raise (TypeError "argument is not iterable")
  end.

(** [d[key] = v] on a dict: the value of an existing key is replaced, a new
    key goes to the end. *)
Fixpoint dict_set (key : string) (v : JSON) (items : list (string * JSON))
    : list (string * JSON) :=
  match items with
  | [] => [(key, v)]
  | (k, w) :: items' =>
      if (k =? key)%string then (key, v) :: items'
      else (k, w) :: dict_set key v items'
  end.

(** [data[key] = v] *)
Definition py_setitem (data : JSON) (key : string) (v : JSON) : M JSON :=
  match data with
  | JDict items => ret (JDict (dict_set key v items))
  | _ => raise (TypeError "object does not support item assignment")
  end.

(** Lines 63-72: the candidate URLs in turn.  [http_get i u] is what the
    [i]-th call [await self.http_client.get(u)] does.  The result is
    [agent_card_data]: [None] while no URL has answered. *)
Fixpoint try_card_urls (http_get : nat -> string -> Exception + Response)
    (i : nat) (card_urls : list string) : list Event * option JSON :=
  match card_urls with
  | [] => ([], None)
  | u :: rest =>
      let attempt := [EPrint "   Trying: {}" [VStr u]; EHttpGet u] in
      let continue :=
        let (evs, r) := try_card_urls http_get (S i) rest in
        (attempt ++ evs, r) in
      match http_get i u with
      | inl _ => continue                         (* except: continue *)
      | inr response =>
          if (status_code response =? 200)%Z then
            match json response with
            | inl _ => continue                   (* except: continue *)
            | inr data =>
                (attempt ++ [EPrint "   ✅ Found agent card at: {}" [VStr u]],
                 Some data)                       (* break *)
            end
          else continue
      end
  end.

(** Python's [None] and JSON's [null] are the same value. *)
Definition data_truthy (agent_card_data : option JSON) : bool :=
  match agent_card_data with
  | Some d => truthy d
  | None => false
  end.

(** Lines 59-76: the agent-card data [connect] goes on with, or [None]
    where it prints that no card could be fetched and returns [False]. *)
Definition fetch_agent_card (http_get : nat -> string -> Exception + Response)
    (self : SimpleA2AClient) : list Event * option JSON :=
  let card_urls := _get_agent_card_urls (agent_url self) in
  let (evs, agent_card_data) := try_card_urls http_get 0 card_urls in
  if negb (data_truthy agent_card_data)
  then (evs ++ [EPrint "❌ Could not fetch agent card from any URL pattern" []],
        None)
  else (evs, agent_card_data).

(** Lines 78-81: the compatibility fix-up. *)
Definition add_missing_version (agent_card_data : JSON) : M JSON :=
  has_version <- py_in "version" agent_card_data ;;
  if negb has_version
  then py_setitem agent_card_data "version" (JStr "1.0.0")
  else ret agent_card_data.

(** Lines 78-103. *)
Definition create_client (sdk : SDK) (self : SimpleA2AClient)
    (agent_card_data : JSON) : M (SimpleA2AClient * bool) :=
  agent_card_data <- add_missing_version agent_card_data ;;
  tell [EModelValidate agent_card_data] ;;
  agent_card <- lift (model_validate sdk agent_card_data) ;;
  print "✅ Connected to: {}" [VStr (name agent_card)] ;;
  print "   Protocol: v{}" [VOptStr (protocol_version agent_card)] ;;
  print "   Transport: {}" [VOptStr (preferred_transport agent_card)] ;;
  tell [EFactoryCreate agent_card] ;;
  c <- lift (factory_create sdk agent_card) ;;
  print "✅ Client initialized successfully\n" [] ;;
  ret (set_client self (Some c), true).

(** The handler of the outer [try] of [connect]. *)
Definition connection_failed (self : SimpleA2AClient) (e : Exception)
    : M (SimpleA2AClient * bool) :=
  print "❌ Connection failed: {}" [VExc e] ;;
  match http_client self with
  | Some _ => tell [EHttpClientClose]
  | None => ret tt
  end ;;
  ret (self, false).

Definition connect (sdk : SDK)
    (http_get : nat -> string -> Exception + Response)
    (self : SimpleA2AClient) : M (SimpleA2AClient * bool) :=
  print "🔌 Connecting to: {}" [VStr (agent_url self)] ;;
  (* Create HTTP client with longer timeout *)
  let self := set_http_client self (Some (AsyncClient 60)) in
  try_except
    (tell [EHttpClientNew 60] ;;
     (* Try different agent card URL patterns *)
     agent_card_data <- (let (evs, d) := fetch_agent_card http_get self in
                         (evs, Ok d)) ;;
     match agent_card_data with
     | None => ret (self, false)
     | Some d => create_client sdk self d
     end)
    (connection_failed self).

(** *** [poll_for_updates] *)

(** [current_state]: the state of the task, or [str(task.status)]. *)
Inductive StateVal :=
| SState (s : TaskState)
| SStr (s : string).

Definition StateVal_str (v : StateVal) : string :=
  match v with
  | SState s => TaskState_value s
  | SStr s => s
  end.

(** [a != b] for [last_state] and [current_state]; [TaskState] compares as
    the string it is. *)
Definition state_ne (a : StateVal) (b : option StateVal) : bool :=
  match b with
  | None => true
  | Some b' => negb (StateVal_str a =? StateVal_str b')%string
  end.

Definition VStateVal (v : StateVal) : Value :=
  match v with
  | SState s => VState s
  | SStr s => VStr s
  end.

Definition VOptStateVal (o : option StateVal) : Value :=
  match o with
  | Some v => VStateVal v
  | None => VNone
  end.

Definition TaskState_eqb (a b : TaskState) : bool :=
  (TaskState_value a =? TaskState_value b)%string.

Definition Role_eqb (a b : Role) : bool :=
  match a, b with
  | agent, agent | user, user => true
  | _, _ => false
  end.

(** [msg.message_id if hasattr(msg, 'message_id') else str(id(msg))] *)
Definition msg_id_of (msg : StatusMessage) : string :=
  match msg with
  | WithId m => message_id m
  | WithoutId obj_id _ _ => str_of_Z obj_id
  end.

Definition role_of (msg : StatusMessage) : Role :=
  match msg with
  | WithId m => role m
  | WithoutId _ r _ => r
  end.

(** [get_message_text(msg)] *)
Definition get_message_text (msg : StatusMessage) : string :=
  match msg with
  | WithId m => message_text m
  | WithoutId _ _ txt => txt
  end.

(** [x in l] for a list of strings. *)
Definition mem (x : string) (l : list string) : bool :=
  existsb (String.eqb x) l.

(** The local variables of the loop and [self.current_task]. *)
Record PollState := {
  poll_count : Z;
  last_state : option StateVal;
  messages_received : list string;
  last_agent_message : option StatusMessage;
  self_current_task : Task
}.

Inductive Control := Continue | Break.

(** Lines 153-156 and 161-164: a message is recorded unless its
    identifier has been seen. *)
Definition receive (msg_id : string) (msg : StatusMessage) (st : PollState)
    : list Event * PollState :=
  if negb (mem msg_id (messages_received st)) then
    ([EAppend msg_id],
     {| poll_count := poll_count st;
        last_state := last_state st;
        messages_received := messages_received st ++ [msg_id];
        last_agent_message :=
          if Role_eqb (role_of msg) agent then Some msg
          else last_agent_message st;
        self_current_task := self_current_task st |})
  else ([], st).

(** Lines 160-164: [for item in task.history]. *)
Fixpoint receive_history (items : list HistoryItem) (st : PollState)
    : list Event * PollState :=
  match items with
  | [] => ([], st)
  | HMessage m :: items' =>
      let (evs, st1) := receive (message_id m) (WithId m) st in
      let (evs', st2) := receive_history items' st1 in
      (evs ++ evs', st2)
  | HOther :: items' => receive_history items' st
  end.

(** Lines 140-145. *)
Definition note_state (task : Task) (st : PollState)
    : list Event * PollState :=
  let current_state :=
    match state (status task) with
    | Some s => SState s
    | None => SStr (status_str (status task))
    end in
  if state_ne current_state (last_state st) then
    ([EPrint "   ✓ State changed: {} → {}"
             [VOptStateVal (last_state st); VStateVal current_state]],
     {| poll_count := poll_count st;
        last_state := Some current_state;
        messages_received := messages_received st;
        last_agent_message := last_agent_message st;
        self_current_task := self_current_task st |})
  else ([EPrint "   State: {}" [VStateVal current_state]], st).

(** The agent's message as lines 174-178 and 192-196 print it. *)
Definition print_agent_text (msg : StatusMessage) : Event :=
  let message_text := get_message_text msg in
  if nonempty_str message_text then EPrint "{}" [VStr message_text]
  else EPrint "[No text content in agent message]" [].

Definition set_self_current_task (st : PollState) (task : Task)
    : PollState :=
  {| poll_count := poll_count st;
     last_state := last_state st;
     messages_received := messages_received st;
     last_agent_message := last_agent_message st;
     self_current_task := task |}.

(** Line 186: [state in [completed, failed, canceled]]. *)
Definition terminal (s : TaskState) : bool :=
  existsb (TaskState_eqb s) [completed; failed; canceled].

(** Lines 166-199: whether to stop polling. *)
Definition check_stop (task : Task) (st : PollState)
    : list Event * (Control * PollState) :=
  match state (status task) with
  | Some s =>
      (* Stop on input_required (agent is waiting for user input) *)
      if TaskState_eqb s input_required then
        (match last_agent_message st with
         | Some msg =>
             [EPrint "\n   ✅ Agent responded. Stopping polls.\n" [];
              EPrint "🤖 Agent:" [];
              print_agent_text msg]
         | None =>
             [EPrint "\n   ℹ️ Reached input_required state. Stopping polls." [];
              EPrint "   (No agent message found in status)" []]
         end,
         (Break, set_self_current_task st task))
      (* Also stop on terminal states *)
      else if terminal s then
        ([EPrint "\n   Task {}. Stopping polls." [VState s]]
         ++ match last_agent_message st with
            | Some msg =>
                if TaskState_eqb s completed
                then [EPrint "\n🤖 Agent (final message):" [];
                      print_agent_text msg]
                else []
            | None => []
            end,
         (Break, set_self_current_task st task))
      else ([], (Continue, st))
  | None => ([], (Continue, st))
  end.

(** Lines 139-199: what an iteration does with the task it fetched. *)
Definition process_task (task : Task) (st : PollState)
    : list Event * (Control * PollState) :=
  (* Check for state change *)
  let (evs1, st) := note_state task st in
  (* Check for message in task.status.message *)
  let (evs2, st) :=
    match status_message (status task) with
    | Some msg => receive (msg_id_of msg) msg st
    | None => ([], st)
    end in
  (* Also check for messages in history *)
  let (evs3, st) := receive_history (opt_list (history task)) st in
  (* Check if we should stop polling *)
  let (evs4, r) := check_stop task st in
  (evs1 ++ evs2 ++ evs3 ++ evs4, r).

Definition next_poll (st : PollState) : PollState :=
  {| poll_count := poll_count st + 1;
     last_state := last_state st;
     messages_received := messages_received st;
     last_agent_message := last_agent_message st;
     self_current_task := self_current_task st |}.

(** Lines 124-202: one iteration.  [get_task n params] is what the [n]-th
    poll's [await self.client.get_task(params)] does; it is the only step
    of the [try] block that can raise, and it comes before any update. *)
Definition poll_iteration
    (get_task : Z -> TaskQueryParams -> Exception + Task)
    (interval : float) (st : PollState)
    : list Event * (Control * PollState) :=
  let st := next_poll st in
  let params := {| query_id := task_id (self_current_task st);
                   history_length := 100 |} in
  let begin :=
    [EPrint "\n   Poll #{} (waiting {}s)..."
            [VInt (poll_count st); VFloat interval];
     ESleep interval;
     EPrint "   Checking task {}..." [VStr (task_id (self_current_task st))];
     EGetTask params] in
  match get_task (poll_count st) params with
  | inr task =>
      let (evs, r) := process_task task st in (begin ++ evs, r)
  | inl e =>
      (begin ++ [EPrint "   Poll error: {}" [VExc e]], (Continue, st))
  end.

(** Lines 123-202: [while poll_count < max_polls].  The result is the
    trace of each iteration and the state the loop is left in; [None] when
    [fuel] iterations were not enough. *)
Fixpoint poll_loop (get_task : Z -> TaskQueryParams -> Exception + Task)
    (max_polls : Z) (interval : float) (fuel : nat) (st : PollState)
    : option (list (list Event) * PollState) :=
  if (poll_count st <? max_polls)%Z then
    match fuel with
    | O => None
    | S fuel' =>
        match poll_iteration get_task interval st with
        | (evs, (Break, st')) => Some ([evs], st')
        | (evs, (Continue, st')) =>
            match poll_loop get_task max_polls interval fuel' st' with
            | Some (its, st'') => Some (evs :: its, st'')
            | None => None
            end
        end
    end
  else Some ([], st).

(** What a call of [poll_for_updates] did. *)
Inductive PollResult :=
| NoTask                               (* line 114: returned at once *)
| Polled (iterations : list (list Event)) (epilogue : list Event)
         (final : PollState).

Definition initial (task : Task) : PollState :=
  {| poll_count := 0;
     last_state := None;
     messages_received := [];
     last_agent_message := None;
     self_current_task := task |}.

Definition poll_for_updates
    (get_task : Z -> TaskQueryParams -> Exception + Task)
    (self : SimpleA2AClient) (max_polls : Z) (interval : float)
    : option (PollResult * SimpleA2AClient) :=
  match current_task self with
  | None => Some (NoTask, self)
  | Some task =>
      match poll_loop get_task max_polls interval (Z.to_nat max_polls)
                      (initial task) with
      | Some (its, st) =>
          Some (Polled its
                  (if (poll_count st >=? max_polls)%Z
                   then [EPrint "\n   Reached max polls ({}). Stopping."
                                [VInt max_polls]]
                   else [])
                  st,
                set_current_task self (Some (self_current_task st)))
      | None => None
      end
  end.

(** The default arguments: [max_polls=10], [interval=2.0]. *)
Definition default_max_polls : Z := 10.
Definition default_interval : float := 2.

(** [self.poll_for_updates()], as [send_message] calls it. *)
Definition poll_for_updates_default
    (get_task : Z -> TaskQueryParams -> Exception + Task)
    (self : SimpleA2AClient) : option (PollResult * SimpleA2AClient) :=
  poll_for_updates get_task self default_max_polls default_interval.

(** *** [end_conversation] *)

(** [self.client.send_task_status_update(ev)]: without a client the
    attribute lookup fails. *)
Definition client_send (sdk : SDK) (self : SimpleA2AClient)
    (ev : TaskStatusUpdateEvent) : M unit :=
  match client self with
  | Some _ =>
      tell [ESendTaskStatusUpdate ev] ;;
      lift (send_task_status_update sdk ev)
  | None =>
      raise (OtherError "AttributeError"
               "'NoneType' object has no attribute 'send_task_status_update'")
  end.

Definition end_conversation (sdk : SDK) (self : SimpleA2AClient)
    : M SimpleA2AClient :=
  match current_task self with
  | None =>
      print "❌ No active conversation to end" [] ;;
      ret self
  | Some task =>
      try_except
        (print "📤 Ending conversation..." [] ;;
         (* Create a status update event to mark task as completed *)
         tell [ENewStatusUpdate (task_id task) completed] ;;
         status_update <- lift (new_status_update sdk (task_id task) completed) ;;
         (* Send the status update *)
         client_send sdk self status_update ;;
         print "✅ Conversation ended" [] ;;
         ret (set_current_task self None))
        (fun e =>
           print "❌ Error ending conversation: {}" [VExc e] ;;
           (* If the SDK method doesn't exist or fails, just clear locally *)
           print "   Clearing conversation locally" [] ;;
           ret (set_current_task self None))
  end.

End Client.

(** ** Vocabulary of the statements about the polling loop *)

Module PollSpec.
Import Client.

(** The identifiers appended to [messages_received] along a trace. *)
Fixpoint appended (evs : list Event) : list string :=
  match evs with
  | [] => []
  | EAppend x :: evs' => x :: appended evs'
  | _ :: evs' => appended evs'
  end.

(** Events that stay inside the script: prints and appends. *)
Definition quiet (e : Event) : Prop :=
  match e with
  | EPrint _ _ | EAppend _ => True
  | _ => False
  end.

(** The states on which the loop stops. *)
Definition stopping (t : Task) : Prop :=
  exists s, state (status t) = Some s
            /\ In s [input_required; completed; failed; canceled].

Definition params_of (task : Task) : TaskQueryParams :=
  {| query_id := task_id task; history_length := 100 |}.

Definition is_sleep (e : Event) : Prop :=
  match e with
  | ESleep _ => True
  | _ => False
  end.

(** An iteration announces itself, sleeps [interval] seconds, and does
    not sleep again. *)
Definition begins_with_sleep (interval : float) (it : list Event) : Prop :=
  exists fmt args rest,
    it = EPrint fmt args :: ESleep interval :: rest
    /\ Forall (fun e => ~ is_sleep e) rest.

(** The claim that only the terminal states end the loop early. *)
Definition terminal_task (t : Task) : Prop :=
  exists s, state (status t) = Some s /\ In s [completed; failed; canceled].

Definition early_exit_only_on_terminal
    (get_task : Z -> TaskQueryParams -> Exception + Task)
    (self : SimpleA2AClient) (max_polls : Z) (interval : float) : Prop :=
  forall task its ep st self',
    current_task self = Some task ->
    poll_for_updates get_task self max_polls interval
    = Some (Polled its ep st, self') ->
    (poll_count st < max_polls)%Z ->
    exists t, get_task (poll_count st) (params_of task) = inr t
              /\ terminal_task t.

End PollSpec.

(** ** A conversation used as test input: the first poll fails, the second
    finds the task working, the third finds the agent's answer. *)

Module Scenario.
Import Client.

Definition msg_user : Message :=
  {| message_id := "m-user"; role := user; message_text := "hello" |}.

Definition msg_agent : Message :=
  {| message_id := "m-agent"; role := agent; message_text := "hi there" |}.

Definition task_with (s : TaskState) (m : option StatusMessage)
    (h : option (list HistoryItem)) : Task :=
  {| task_id := "task-1";
     status := {| state := Some s; status_message := m;
                  status_str := TaskState_value s |};
     history := h |}.

Definition sent : Task := task_with submitted None None.

Definition answered : Task :=
  task_with input_required (Some (WithId msg_agent))
            (Some [HMessage msg_user; HOther; HMessage msg_agent]).

Definition get_task (n : Z) (params : TaskQueryParams) : Exception + Task :=
  if (n =? 1)%Z then inl (OtherError "A2AClientTimeoutError" "timed out")
  else if (n =? 2)%Z then
    inr (task_with working None (Some [HMessage msg_user]))
  else inr answered.

Definition self : SimpleA2AClient :=
  {| agent_url := "http://localhost:3003/api/rooms/r1/a2a";
     client := None; http_client := None; current_task := Some sent |}.

End Scenario.

(** ** Vocabulary of the statements about traces *)

Module TraceSpec.

(** The URLs of the HTTP GET requests of a trace, in order. *)
Fixpoint gets (evs : list Event) : list string :=
  match evs with
  | [] => []
  | EHttpGet u :: evs' => u :: gets evs'
  | _ :: evs' => gets evs'
  end.

(** The documents handed to [AgentCard.model_validate], in order. *)
Fixpoint validated (evs : list Event) : list JSON :=
  match evs with
  | [] => []
  | EModelValidate d :: evs' => d :: validated evs'
  | _ :: evs' => validated evs'
  end.

Definition is_print (e : Event) : Prop :=
  match e with
  | EPrint _ _ => True
  | _ => False
  end.

Definition not_get (e : Event) : Prop :=
  match e with
  | EHttpGet _ => False
  | _ => True
  end.

Definition not_validate (e : Event) : Prop :=
  match e with
  | EModelValidate _ => False
  | _ => True
  end.

(** A computation all of whose events satisfy [P]. *)
Definition all_events {A} (P : Event -> Prop) (m : M A) : Prop :=
  Forall P (trace m).

End TraceSpec.

(** ** Vocabulary of the statements about [connect] *)

Module ConnectSpec.
Import Client TraceSpec.

(** The [i]-th GET, to [u], is answered with status 200. *)
Definition answers_200 (http_get : nat -> string -> Exception + Response)
    (i : nat) (u : string) : Prop :=
  exists r, http_get i u = inr r /\ status_code r = 200%Z.

(** The [i]-th GET, to [u], is answered with status 200 and a body that
    decodes to [data]. *)
Definition usable (http_get : nat -> string -> Exception + Response)
    (i : nat) (u : string) (data : JSON) : Prop :=
  exists r, http_get i u = inr r /\ status_code r = 200%Z
            /\ json r = inr data.

Definition unusable (http_get : nat -> string -> Exception + Response)
    (i : nat) (u : string) : Prop :=
  forall data, ~ usable http_get i u data.

(** The claim that the first response with status 200 ends the search:
    the GETs of [connect] are the candidates up to and including it. *)
Definition first_200_ends_search (sdk : SDK)
    (http_get : nat -> string -> Exception + Response)
    (self : SimpleA2AClient) : Prop :=
  forall k u,
    nth_error (_get_agent_card_urls (agent_url self)) k = Some u ->
    answers_200 http_get k u ->
    (forall j v, (j < k)%nat ->
       nth_error (_get_agent_card_urls (agent_url self)) j = Some v ->
       ~ answers_200 http_get j v) ->
    gets (trace (connect sdk http_get self))
    = firstn (S k) (_get_agent_card_urls (agent_url self)).

(** [d.get(key)] on the items of a dict. *)
Fixpoint lookup (key : string) (items : list (string * JSON)) : option JSON :=
  match items with
  | [] => None
  | (k, v) :: items' => if (k =? key)%string then Some v else lookup key items'
  end.

End ConnectSpec.

(** ** A stand-in for the SDK and a server, used as test input *)

Module Fixture.
Import Client ConnectSpec.

Definition missing (field : string) (data : JSON) : Exception :=
  ValidationError
    [{| loc := [inl field]; msg := "Field required";
        input := Some data; ctx := None |}].

Definition extension_of (j : JSON) : AgentExtension :=
  match j with
  | JDict items =>
      {| uri := match lookup "uri" items with
                | Some (JStr u) => u
                | _ => EmptyString
                end;
         ext_description := match lookup "description" items with
                            | Some (JStr d) => Some d
                            | _ => None
                            end;
         required := None |}
  | _ => {| uri := EmptyString; ext_description := None; required := None |}
  end.

Definition extensions_of (items : list (string * JSON))
    : option (list AgentExtension) :=
  match lookup "extensions" items with
  | Some (JList l) => Some (map extension_of l)
  | _ => None
  end.

(** A validator that asks for a name and a version only. *)
Definition validate_name_version (data : JSON) : Exception + AgentCard :=
  match data with
  | JDict items =>
      match lookup "name" items, lookup "version" items with
      | Some (JStr n), Some (JStr v) =>
          inr {| name := n;
                 protocol_version := Some "0.3.0";
                 description := "A test agent";
                 url := "http://localhost:3003/api/rooms/r1/a2a";
                 version := v;
                 preferred_transport := Some "JSONRPC";
                 provider := None;
                 capabilities :=
                   Some {| streaming := Some false;
                           push_notifications := None;
                           state_transition_history := None;
                           extensions := extensions_of items |};
                 skills := [];
                 additional_interfaces := None;
                 default_input_modes := ["text/plain"];
                 default_output_modes := ["text/plain"] |}
      | Some (JStr _), _ => inl (missing "version" data)
      | _, _ => inl (missing "name" data)
      end
  | _ => inl (missing "name" data)
  end.

(** An SDK whose client has no way to send a status update. *)
Definition sdk : SDK :=
  {| model_validate := validate_name_version;
     factory_create := fun card => inr (ClientOf card);
     new_status_update := fun tid st =>
       inr {| update_task_id := tid; update_state := st |};
     send_task_status_update := fun _ =>
       inl (OtherError "AttributeError"
              "object has no attribute 'send_task_status_update'") |}.

Definition card_without_version : list (string * JSON) :=
  [("name", JStr "Room agent"); ("url", JStr "http://localhost:3003/api/rooms/r1/a2a")].

Definition card_with_extension : JSON :=
  JDict [("name", JStr "Room agent"); ("version", JStr "1.0.0");
         ("extensions", JList [JDict [("uri", JStr "urn:example:ext")]])].

Definition ok (body : string) (data : string + JSON) : Response :=
  {| status_code := 200; text := body; json := data |}.

(** A server that answers every path with status 200: a web page for the
    first candidate URL, the agent card for the others. *)
Definition http_get (i : nat) (u : string) : Exception + Response :=
  match i with
  | O => inr (ok "<!doctype html>" (inl "Expecting value: line 1 column 1 (char 0)"))
  | _ => inr (ok "{...}" (inr (JDict card_without_version)))
  end.

Definition self : SimpleA2AClient := init "http://agent.example/a2a".

(** What [requests.get] finds at two addresses. *)
Definition requests_get (u : string) : Exception + Response :=
  if (u =? "http://agent.example/ext-card.json")%string
  then inr (ok "{...}" (inr card_with_extension))
  else if (u =? "http://agent.example/card.json")%string
  then inr (ok "{...}" (inr (JDict card_without_version)))
  else inl (ConnectionError "Connection refused").

End Fixture.

(** ** Vocabulary of the statements about the validator *)

Module ValidatorSpec.

(** An error message has been printed. *)
Definition error_reported (evs : list Event) : Prop :=
  exists fmt args,
    In (EPrint fmt args) evs /\ PyStr.startswith fmt "❌ ERROR:" = true.

(** The response carries an HTTP error status. *)
Definition error_status (r : Response) : Prop :=
  (400 <= status_code r < 600)%Z.

(** The validator's opening lines. *)
Definition opening (target : string) : list Event :=
  [EPrint "{}" [Validator.rule "=" 60];
   EPrint "A2A SDK Agent Card Validator" [];
   EPrint "{}" [Validator.rule "=" 60];
   EPrint "\nFetching agent card from: {}\n" [VStr target]].

(** Every extension of the card has a description. *)
Definition extensions_described (card : AgentCard) : Prop :=
  match capabilities card with
  | Some c =>
      Forall (fun ext => ext_description ext <> None) (opt_list (extensions c))
  | None => True
  end.

(** The lines that report the error numbered [idx]. *)
Definition error_lines (idx : Z) (error : ErrorDetails) : list Event :=
  [EPrint "\n{}. Field: {}"
     [VInt idx;
      VStr (String.concat " → " (map Validator.str_of_loc (loc error)))];
   EPrint "   Error: {}" [VStr (msg error)]].

End ValidatorSpec.

(** ** Python [str] operations of the interactive loop *)

Module PyText.

Definition string_of_bytes (l : list nat) : string :=
  fold_right (fun n s => String (ascii_of_nat n) s) EmptyString l.

(** The characters [str.strip()] removes, in their UTF-8 encoding:
    U+0009-000D, U+001C-0020, U+0085, U+00A0, U+1680, U+2000-200A, U+2028,
    U+2029, U+202F, U+205F and U+3000. *)
Definition whitespace : list string :=
  map string_of_bytes
    [ [9]; [10]; [11]; [12]; [13]; [28]; [29]; [30]; [31]; [32];
      [194; 133]; [194; 160]; [225; 154; 128];
      [226; 128; 128]; [226; 128; 129]; [226; 128; 130]; [226; 128; 131];
      [226; 128; 132]; [226; 128; 133]; [226; 128; 134]; [226; 128; 135];
      [226; 128; 136]; [226; 128; 137]; [226; 128; 138];
      [226; 128; 168]; [226; 128; 169]; [226; 128; 175];
      [226; 129; 159]; [227; 128; 128] ]%nat.

(** The length of the pattern [s] starts with, 0 when it starts with
    none. *)
Definition leading (patterns : list string) (s : string) : nat :=
  match find (fun w => String.prefix w s) patterns with
  | Some w => String.length w
  | None => O
  end.

(** Drops leading patterns; [skip] counts the characters of the pattern
    just found that are still to be dropped. *)
Fixpoint lstrip_from (patterns : list string) (skip : nat) (s : string)
    : string :=
  match s with
  | EmptyString => EmptyString
  | String c s' =>
      match skip with
      | S k => lstrip_from patterns k s'
      | O =>
          match leading patterns s with
          | O => s
          | S k => lstrip_from patterns k s'
          end
      end
  end.

Fixpoint reverse_onto (s acc : string) : string :=
  match s with
  | EmptyString => acc
  | String c s' => reverse_onto s' (String c acc)
  end.

Definition reverse (s : string) : string := reverse_onto s EmptyString.

(** [s.lstrip()], [s.rstrip()], [s.strip()] for a string in UTF-8. *)
Definition lstrip (s : string) : string := lstrip_from whitespace 0 s.

Definition rstrip (s : string) : string :=
  reverse (lstrip_from (map reverse whitespace) 0 (reverse s)).

Definition strip (s : string) : string := rstrip (lstrip s).

Definition lower_ascii (c : ascii) : ascii :=
  let n := nat_of_ascii c in
  if (65 <=? n)%nat && (n <=? 90)%nat then ascii_of_nat (n + 32) else c.

(** [s.lower()] on the letters A-Z.  The loop only compares the result
    with '/quit', '/new' and '/end', and no character outside A-Z has one
    of their letters as its lower case. *)
Fixpoint lower (s : string) : string :=
  match s with
  | EmptyString => EmptyString
  | String c s' => String (lower_ascii c) (lower s')
  end.

End PyText.

(** ** [a2a_client.py]: sending, the interactive loop and [main] *)

Module Chat.
Import Client.

(** The message [send_message] builds: a fresh identifier, the role user,
    one text part, and the task it continues. *)
Record SentMessage := {
  sent_id : string;
  sent_role : Role;
  sent_text : string;
  sent_task_id : option string
}.

(** The trace of the chat: the events of the client, and those of the
    conversation with the user and the agent. *)
Inductive ChatEvent :=
| Core (e : Event)
| ESendMessage (m : SentMessage)   (* [self.client.send_message(message)] *)
| ETraceback (e : Exception)       (* [traceback.print_exc()] *)
| EInput (prompt : string).        (* [input(prompt)] *)

Definition say (fmt : string) (args : list Value) : ChatEvent :=
  Core (EPrint fmt args).

(** What [send_message] reads of a task beyond its identifier, status and
    history. *)
Record TaskView := {
  context_id : option string;
  has_message : bool;              (* [hasattr(task.status, 'message')] *)
  message_parts : option (list (option string));
    (* the parts of that message, [None] when it has no 'parts'; a part
       is its text, [None] when it has no 'text' *)
  metadata : option JSON
}.

(** What the response stream yields. *)
Inductive StreamItem :=
| TaskUpdate (task : Task) (view : TaskView) (event : option string)
    (* a tuple [(task, event)]; the event by the name of its type *)
| MessageReply (r : Role) (parts : list (option string))
    (* a [Message] *)
| Unknown (type_repr : string).

(** The stream: what it yields, and the exception that ends it if one
    does. *)
Record Stream := {
  items : list StreamItem;
  failure : option Exception
}.

(** The agent and the SDK during one call of [send_message]. *)
Record Agent := {
  uuid4 : string;                        (* [str(uuid.uuid4())] *)
  polling : bool;                        (* [self.client._config.polling] *)
  answer : SentMessage -> Stream;
  get_task : Z -> TaskQueryParams -> Exception + Task
}.

(** The role as line 261 prints it, by its value.  What an f-string shows
    of a member of a [str] enum depends on the version of Python (the
    value, or 'Role.agent'); no statement below depends on this text. *)
Definition Role_value (r : Role) : string :=
  match r with
  | agent => "agent"
  | user => "user"
  end.

(** The lines 247-249, 265-267 and 270-272 print for the parts that have
    a text. *)
Fixpoint part_lines (fmt : string) (cut : string -> string)
    (parts : list (option string)) : list ChatEvent :=
  match parts with
  | [] => []
  | Some t :: parts' => say fmt [VStr (cut t)] :: part_lines fmt cut parts'
  | None :: parts' => part_lines fmt cut parts'
  end.

Record SendState := {
  the_self : SimpleA2AClient;
  response_count : Z;
  message_count : Z
}.

(** Lines 234-277: one response of the stream. *)
Definition handle_response (item : StreamItem) (st : SendState)
    : list ChatEvent * SendState :=
  match item with
  | TaskUpdate task view event =>
      ([say "\n   📋 Task Update #{}:" [VInt (response_count st + 1)];
        say "      Task ID: {}" [VStr (task_id task)];
        say "      Context ID: {}"
            [VStr match context_id view with
                  | Some c => if nonempty_str c then c else "None"
                  | None => "None"
                  end]]
       ++ match state (status task) with
          | Some s => [say "      State: {}" [VState s]]
          | None => []
          end
       ++ (if has_message view then
             match message_parts view with
             | Some parts =>
                 part_lines "      Last message: {}..." (slice_to 100) parts
             | None => []
             end
           else [say "      Status: {}" [VStr (status_str (status task))]])
       ++ match metadata view with
          | Some m => if truthy m then [say "      Metadata: {}" [VJson m]]
                      else []
          | None => []
          end
       ++ match event with
          | Some name => [say "      Event: {}" [VStr name]]
          | None => []
          end,
       {| the_self := set_current_task (the_self st) (Some task);
          response_count := response_count st + 1;
          message_count := message_count st |})
  | MessageReply r parts =>
      ([say "\n📨 Received message #{} (role: {})"
            [VInt (message_count st + 1); VStr (Role_value r)]]
       ++ match r with
          | agent => say "🤖 Agent says:" []
                     :: part_lines "   {}" (fun t => t) parts
          | user => say "👤 User echo:" []
                    :: part_lines "   {}" (fun t => t) parts
          end,
       {| the_self := the_self st;
          response_count := response_count st + 1;
          message_count := message_count st + 1 |})
  | Unknown type_repr =>
      ([say "   Unknown response type: {}" [VStr type_repr]],
       {| the_self := the_self st;
          response_count := response_count st + 1;
          message_count := message_count st |})
  end.

(** Line 233: [async for response in ...]. *)
Fixpoint consume (l : list StreamItem) (st : SendState)
    : list ChatEvent * SendState :=
  match l with
  | [] => ([], st)
  | item :: l' =>
      let (evs, st1) := handle_response item st in
      let (evs', st2) := consume l' st1 in
      (evs ++ evs', st2)
  end.

(** The events of a call of [poll_for_updates]. *)
Definition poll_events (r : PollResult) : list Event :=
  match r with
  | NoTask => []
  | Polled its ep _ => concat its ++ ep
  end.

(** [send_message].  The responses already handled keep their effect on
    [self.current_task] when the stream ends with an exception.  The
    result is [None] when the polling it starts does not return. *)
Definition send_message (a : Agent) (self : SimpleA2AClient) (text : string)
    : option (list ChatEvent * SimpleA2AClient) :=
  match client self with
  | None => Some ([say "❌ Not connected" []], self)
  | Some _ =>
      (* Create message with proper fields *)
      let message :=
        {| sent_id := uuid4 a; sent_role := user; sent_text := text;
           (* Add task_id if we have an ongoing conversation *)
           sent_task_id := option_map task_id (current_task self) |} in
      let start :=
        [say "📤 Sending message..." [];
         say "   Waiting for responses..." [];
         say "   [Polling enabled: {}]" [VBool (polling a)];
         ESendMessage message] in
      let (evs, st) :=
        consume (items (answer a message))
                {| the_self := self; response_count := 0;
                   message_count := 0 |} in
      match failure (answer a message) with
      | Some e =>
          Some (start ++ evs ++ [say "❌ Error: {}" [VExc e]; ETraceback e],
                the_self st)
      | None =>
          let summary :=
            if (response_count st =? 0)%Z
            then [say "   ⚠️ No responses received" []]
            else [say "   Total responses: {} (messages: {})"
                      [VInt (response_count st); VInt (message_count st)]] in
          (* If we only got a task update and no messages, start manual
             polling *)
          match current_task (the_self st), (message_count st =? 0)%Z with
          | Some _, true =>
              match poll_for_updates_default (get_task a) (the_self st) with
              | Some (r, self') =>
                  Some (start ++ evs ++ summary
                          ++ [say "\n   🔄 Starting manual polling for updates..." []]
                          ++ map Core (poll_events r)
                          ++ [say "" []],
                        self')
              | None => None
              end
          | _, _ => Some (start ++ evs ++ summary ++ [say "" []], the_self st)
          end
      end
  end.

(** What [input()] does: a line, or Ctrl-C.  When the lines are used up
    the input is at its end and [input()] raises [EOFError]. *)
Inductive Stdin :=
| Line (s : string)
| KeyboardInterrupt.

(** One round of the loop that did not leave it: the prompt and the
    events of the round, then the rounds that follow. *)
Definition next_round (evs : list ChatEvent)
    (r : option (list ChatEvent * Outcome SimpleA2AClient * list Stdin))
    : option (list ChatEvent * Outcome SimpleA2AClient * list Stdin) :=
  match r with
  | Some (evs', o, rest) => Some (EInput "You> " :: evs ++ evs', o, rest)
  | None => None
  end.

(** Lines 337-358: the loop.  [agents k] is the agent at the [k]-th call
    of [send_message].  The result holds the input that was not read. *)
Fixpoint run_loop (sdk : SDK) (agents : nat -> Agent) (k : nat)
    (input : list Stdin) (self : SimpleA2AClient)
    : option (list ChatEvent * Outcome SimpleA2AClient * list Stdin) :=
  match input with
  | [] => Some ([EInput "You> "; say "\n👋 Goodbye!" []], Ok self, [])
  | KeyboardInterrupt :: rest =>
      Some ([EInput "You> "; say "\n👋 Goodbye!" []], Ok self, rest)
  | Line s :: rest =>
      let user_input := PyText.strip s in
      if negb (nonempty_str user_input) then
        next_round [] (run_loop sdk agents k rest self)
      else if (PyText.lower user_input =? "/quit")%string then
        Some ([EInput "You> "; say "👋 Goodbye!" []], Ok self, rest)
      else if (PyText.lower user_input =? "/new")%string then
        next_round [say "🆕 Starting new conversation\n" []]
                 (run_loop sdk agents k rest (set_current_task self None))
      else if (PyText.lower user_input =? "/end")%string then
        match end_conversation sdk self with
        | (evs, Ok self') =>
            next_round (map Core evs ++ [say "" []])
                     (run_loop sdk agents k rest self')
        | (evs, Raise e) => Some (EInput "You> " :: map Core evs, Raise e, rest)
        | (evs, Exit c) => Some (EInput "You> " :: map Core evs, Exit c, rest)
        end
      else
        match send_message (agents k) self user_input with
        | Some (evs, self') =>
            next_round evs (run_loop sdk agents (S k) rest self')
        | None => None
        end
  end.

(** Lines 327-335: the banner. *)
Definition banner : list ChatEvent :=
  [say "{}" [VStr (str_mul "=" 60)];
   say "A2A Interactive Client v2" [];
   say "{}" [VStr (str_mul "=" 60)];
   say "\nCommands:" [];
   say "  /new   - Start a new conversation" [];
   say "  /end   - End the current conversation" [];
   say "  /quit  - Exit" [];
   say "  (anything else) - Send to agent\n" [];
   say "{}" [VStr (str_mul "=" 60 ++ "\n")]].

Definition run_interactive (sdk : SDK) (agents : nat -> Agent)
    (input : list Stdin) (self : SimpleA2AClient)
    : option (list ChatEvent * Outcome SimpleA2AClient * list Stdin) :=
  match run_loop sdk agents 0 input self with
  | Some (evs, o, rest) => Some (banner ++ evs, o, rest)
  | None => None
  end.

(** [disconnect] *)
Definition disconnect (self : SimpleA2AClient) : list ChatEvent :=
  match http_client self with
  | Some _ => [Core EHttpClientClose]
  | None => []
  end.

Definition default_url : string :=
  "http://localhost:3003/api/rooms/please-replace-this-placeholder-1756426027739-gvr0wy/a2a".

Definition banterop_url : string :=
  "https://banterop.fhir.me/api/bridge/eyJ0aXRsZSI6IlJ1bjogS25lZSBNUkkgUHJpb3IgQXV0aCIsInNjZW5hcmlvSWQiOiJzY2VuX2tuZWVfbXJpXzAxIiwiYWdlbnRzIjpbeyJpZCI6InBhdGllbnQtYWdlbnQifSx7ImlkIjoiaW5zdXJhbmNlLWF1dGgtc3BlY2lhbGlzdCIsImNvbmZpZyI6eyJtb2RlbCI6Im9wZW5haS9ncHQtb3NzLTEyMGI6bml0cm8ifX1dLCJzdGFydGluZ0FnZW50SWQiOiJwYXRpZW50LWFnZW50In0/a2a".

(** Lines 367-376: the URL [main] connects to. *)
Definition chosen_url (argv : list string) : string :=
  (* Parse arguments *)
  let target :=
    if (1 <? List.length argv)%nat then nth 1 argv EmptyString
    else default_url in
  (* Override for banterop test *)
  if (1 <? List.length argv)%nat
     && (nth 1 argv EmptyString =? "--banterop")%string
  then banterop_url
  else target.

(** [main]: connect, talk, disconnect. *)
Definition main (sdk : SDK)
    (http_get : nat -> string -> Exception + Response)
    (agents : nat -> Agent) (input : list Stdin) (argv : list string)
    : option (list ChatEvent * Outcome unit * list Stdin) :=
  (* Create client *)
  let client := init (chosen_url argv) in
  (* Connect *)
  match connect sdk http_get client with
  | (evs, Ok (client, true)) =>
      (* Run interactive loop *)
      match run_interactive sdk agents input client with
      | Some (evs', Ok client, rest) =>
          (* Disconnect *)
          Some (map Core evs ++ evs' ++ disconnect client, Ok tt, rest)
      | Some (evs', Raise e, rest) => Some (map Core evs ++ evs', Raise e, rest)
      | Some (evs', Exit c, rest) => Some (map Core evs ++ evs', Exit c, rest)
      | None => None
      end
  | (evs, Ok (_, false)) => Some (map Core evs, Ok tt, input)
  | (evs, Raise e) => Some (map Core evs, Raise e, input)
  | (evs, Exit c) => Some (map Core evs, Exit c, input)
  end.

End Chat.

(** ** Vocabulary of further statements *)

Module MoreSpec.
Import Client.

(** What slicing a missing description raises. *)
Definition none_not_subscriptable : Exception :=
  TypeError "'NoneType' object is not subscriptable".

(** An exception other than pydantic's [ValidationError]. *)
Definition not_validation_error (e : Exception) : Prop :=
  match e with
  | ValidationError _ => False
  | _ => True
  end.

(** How often a trace closes the HTTP client. *)
Fixpoint closes (evs : list Event) : nat :=
  match evs with
  | [] => O
  | EHttpClientClose :: evs' => S (closes evs')
  | _ :: evs' => closes evs'
  end.

(** The task queries of a trace, in order. *)
Fixpoint queries (evs : list Event) : list TaskQueryParams :=
  match evs with
  | [] => []
  | EGetTask q :: evs' => q :: queries evs'
  | _ :: evs' => queries evs'
  end.

(** The status updates a trace sends, in order. *)
Fixpoint updates_sent (evs : list Event) : list TaskStatusUpdateEvent :=
  match evs with
  | [] => []
  | ESendTaskStatusUpdate ev :: evs' => ev :: updates_sent evs'
  | _ :: evs' => updates_sent evs'
  end.

(** The documents on which lines 80-81 raise: a number, a boolean, a list
    without the string 'version', a string without that substring. *)
Definition fixup_fails (d : JSON) : Prop :=
  match d with
  | JDict _ => False
  | JList items => ~ In (JStr "version") items
  | JStr s => PyStr.contains "version" s = false
  | _ => True
  end.

(** The stored agent message is from the agent and among those received. *)
Definition agent_message_recorded (st : PollState) : Prop :=
  forall msg,
    last_agent_message st = Some msg ->
    role_of msg = agent /\ In (msg_id_of msg) (messages_received st).

(** The identifiers of the messages a task carries: its status message
    and the messages of its history. *)
Definition message_ids (t : Task) : list string :=
  match status_message (status t) with
  | Some msg => [msg_id_of msg]
  | None => []
  end
  ++ flat_map (fun item => match item with
                           | HMessage m => [message_id m]
                           | HOther => []
                           end) (opt_list (history t)).

(** The validator's lines between the request and the validation. *)
Definition fetched_lines (target : string) (r : Response) : list Event :=
  [EHttpGet target;
   EPrint "✓ Successfully fetched agent card" [];
   EPrint "  Response status: {}" [VInt (status_code r)];
   EPrint "  Content size: {} bytes\n"
          [VInt (Z.of_nat (String.length (text r)))]].

(** The line that closes a run of [max_polls] polls. *)
Definition reached_max (max_polls : Z) : Event :=
  EPrint "\n   Reached max polls ({}). Stopping." [VInt max_polls].

End MoreSpec.

(** ** Further test input *)

Module MoreFixture.

Definition card_plain : JSON :=
  JDict [("name", JStr "Room agent"); ("version", JStr "2.1.0")].

(** A server that has the plain card at every address. *)
Definition requests_get (u : string) : Exception + Response :=
  inr (Fixture.ok "{...}" (inr card_plain)).

Definition http_get (i : nat) (u : string) : Exception + Response :=
  inr (Fixture.ok "{...}" (inr card_plain)).

(** A server whose document is a number. *)
Definition http_get_number (i : nat) (u : string) : Exception + Response :=
  inr (Fixture.ok "42" (inr (JInt 42))).

(** A server without any agent card. *)
Definition http_get_404 (i : nat) (u : string) : Exception + Response :=
  inr {| status_code := 404; text := "Not Found"; json := inl "Expecting value" |}.


(** An SDK whose client can send status updates. *)
Definition sdk_sending : SDK :=
  {| model_validate := Fixture.validate_name_version;
     factory_create := fun card => inr (ClientOf card);
     new_status_update := fun tid st =>
       inr {| update_task_id := tid; update_state := st |};
     send_task_status_update := fun _ => inr tt |}.

(** A server that never answers a poll. *)
Definition get_task_down (n : Z) (params : TaskQueryParams)
    : Exception + Task :=
  inl (OtherError "A2AClientTimeoutError" "timed out").

End MoreFixture.

(** ** Vocabulary of the statements about the chat *)

Module ChatSpec.
Import Client Chat.

(** The messages a trace sends to the agent, in order. *)
Fixpoint sends (evs : list ChatEvent) : list SentMessage :=
  match evs with
  | [] => []
  | ESendMessage m :: evs' => m :: sends evs'
  | _ :: evs' => sends evs'
  end.


(** The task of the last task update of a stream, [default] without
    one. *)
Fixpoint last_task (l : list StreamItem) (default : option Task)
    : option Task :=
  match l with
  | [] => default
  | TaskUpdate task _ _ :: l' => last_task l' (Some task)
  | _ :: l' => last_task l' default
  end.

(** Whether a stream yields a [Message]. *)
Definition has_reply (l : list StreamItem) : bool :=
  existsb (fun item => match item with
                       | MessageReply _ _ => true
                       | _ => false
                       end) l.

(** An event that is a printed line. *)
Definition is_say (e : ChatEvent) : Prop :=
  match e with
  | Core (EPrint _ _) => True
  | _ => False
  end.

(** The events of the polling loop, and those of [end_conversation]. *)
Definition poll_kind (e : Event) : Prop :=
  match e with
  | EPrint _ _ | ESleep _ | EGetTask _ | EAppend _ => True
  | _ => False
  end.

Definition end_kind (e : Event) : Prop :=
  match e with
  | EPrint _ _ | ENewStatusUpdate _ _ | ESendTaskStatusUpdate _ => True
  | _ => False
  end.

(** The events of the interactive loop: no HTTP request, no validation,
    no closing of the HTTP client. *)
Definition talk_kind (e : ChatEvent) : Prop :=
  match e with
  | Core e' => poll_kind e' \/ end_kind e'
  | _ => True
  end.

(** The message [send_message] sends for [text]. *)
Definition message_for (a : Agent) (self : SimpleA2AClient) (text : string)
    : SentMessage :=
  {| sent_id := uuid4 a; sent_role := user; sent_text := text;
     sent_task_id := option_map task_id (current_task self) |}.

(** The command a line of input is, after stripping and lowering. *)
Definition is_command (name line : string) : bool :=
  (PyText.lower (PyText.strip line) =? name)%string.

Definition is_blank (line : string) : bool :=
  negb (nonempty_str (PyText.strip line)).

(** A line that is sent to the agent. *)
Definition is_text (line : string) : bool :=
  negb (is_blank line) && negb (is_command "/quit" line)
  && negb (is_command "/new" line) && negb (is_command "/end" line).

(** Input that neither quits nor interrupts. *)
Definition keeps_going (input : list Stdin) : bool :=
  forallb (fun i => match i with
                    | Line s => negb (is_command "/quit" s)
                    | KeyboardInterrupt => false
                    end) input.

(** The input behind the first '/quit' or Ctrl-C. *)
Fixpoint unread (input : list Stdin) : list Stdin :=
  match input with
  | [] => []
  | KeyboardInterrupt :: rest => rest
  | Line s :: rest => if is_command "/quit" s then rest else unread rest
  end.

(** The texts in front of the first '/quit' or Ctrl-C, stripped. *)
Fixpoint texts_to_send (input : list Stdin) : list string :=
  match input with
  | [] => []
  | KeyboardInterrupt :: _ => []
  | Line s :: rest =>
      if is_command "/quit" s then []
      else if is_text s then PyText.strip s :: texts_to_send rest
      else texts_to_send rest
  end.

End ChatSpec.

(** ** Test input for the chat *)

Module ChatFixture.
Import Client Chat.

Definition card : AgentCard :=
  {| name := "Room agent"; protocol_version := Some "0.3.0";
     description := "A test agent";
     url := "http://localhost:3003/api/rooms/r1/a2a"; version := "1.0.0";
     preferred_transport := Some "JSONRPC"; provider := None;
     capabilities := None; skills := []; additional_interfaces := None;
     default_input_modes := []; default_output_modes := [] |}.

(** A connected client without a conversation. *)
Definition connected : SimpleA2AClient :=
  {| agent_url := "http://localhost:3003/api/rooms/r1/a2a";
     client := Some (ClientOf card);
     http_client := Some (AsyncClient 60);
     current_task := None |}.

Definition view : TaskView :=
  {| context_id := Some "ctx-1"; has_message := true;
     message_parts := None; metadata := None |}.

(** An agent that acknowledges with a task and answers to the polls. *)
Definition agent_task_only : Agent :=
  {| uuid4 := "0f0e0d0c-0000-4000-8000-000000000001";
     polling := true;
     answer := fun _ =>
       {| items := [TaskUpdate Scenario.sent view None]; failure := None |};
     get_task := Scenario.get_task |}.

(** An agent that answers in the stream. *)
Definition agent_replying : Agent :=
  {| uuid4 := "0f0e0d0c-0000-4000-8000-000000000002";
     polling := true;
     answer := fun _ =>
       {| items := [TaskUpdate Scenario.sent view None;
                    MessageReply agent [Some "hi there"; None]];
          failure := None |};
     get_task := MoreFixture.get_task_down |}.

(** An agent whose stream breaks after the first task update. *)
Definition agent_breaking : Agent :=
  {| uuid4 := "0f0e0d0c-0000-4000-8000-000000000003";
     polling := true;
     answer := fun _ =>
       {| items := [TaskUpdate Scenario.sent view None];
          failure := Some (OtherError "A2AClientHTTPError" "503") |};
     get_task := MoreFixture.get_task_down |}.

Definition agents (k : nat) : Agent :=
  match k with
  | O => agent_replying
  | _ => agent_breaking
  end.

Definition session : list Stdin :=
  [Line "  "; Line "hello"; Line " /NEW "; Line "again ";
   Line "/Quit"; Line "never read"].

End ChatFixture.

(** * Properties *)

(** ** The string operations on concrete inputs *)

Example replace_a2a :
  PyStr.replace "http://h/api/rooms/r/a2a" "/a2a" "/agent-card.json"
  = "http://h/api/rooms/r/agent-card.json".
Proof. reflexivity. Qed.

Example replace_all_occurrences :
  PyStr.replace "aaaa-aa-a" "aa" "b" = "bb-b-a".
Proof. reflexivity. Qed.

Example replace_empty_old : PyStr.replace "ab" "" "-" = "-a-b-".
Proof. reflexivity. Qed.

Example contains_port :
  PyStr.contains "localhost:3003" "http://localhost:3003/x" = true
  /\ PyStr.contains "localhost:3003" "http://localhost:3004/x" = false.
Proof. split; reflexivity. Qed.

Example str_of_Z_examples :
  str_of_Z 0 = "0" /\ str_of_Z 42 = "42" /\ str_of_Z (-7) = "-7".
Proof. repeat split; reflexivity. Qed.

(** ** The candidate URLs of the agent card *)

Example card_urls_room :
  _get_agent_card_urls "http://localhost:3003/api/rooms/r1/a2a"
  = [ "http://localhost:3003/api/rooms/r1/.well-known/agent-card.json";
      "http://localhost:3003/rooms/r1/agent-card.json";
      "http://localhost:3003/api/rooms/r1/a2a/.well-known/agent-card.json" ].
Proof. reflexivity. Qed.

Example card_urls_plain :
  _get_agent_card_urls "https://agent.example"
  = [ "https://agent.example/.well-known/agent-card.json" ].
Proof. reflexivity. Qed.

(** C4.  For every [agent_url] the list of candidate URLs is not empty and
    ends with [agent_url + '/.well-known/agent-card.json']; when '/a2a'
    occurs in [agent_url] the list starts with [agent_url] where '/a2a' is
    replaced by '/.well-known/agent-card.json'; when 'localhost:3003'
    occurs in it the list also holds [agent_url] with '/api/rooms/'
    replaced by '/rooms/' and '/a2a' by '/agent-card.json'. *)
Theorem get_agent_card_urls_spec (agent_url : string) :
  _get_agent_card_urls agent_url <> []
  /\ (exists front,
        _get_agent_card_urls agent_url
        = front ++ [(agent_url ++ "/.well-known/agent-card.json")%string])
  /\ (PyStr.contains "/a2a" agent_url = true ->
      hd_error (_get_agent_card_urls agent_url)
      = Some (PyStr.replace agent_url "/a2a" "/.well-known/agent-card.json"))
  /\ (PyStr.contains "localhost:3003" agent_url = true ->
      In (PyStr.replace (PyStr.replace agent_url "/api/rooms/" "/rooms/")
                        "/a2a" "/agent-card.json")
         (_get_agent_card_urls agent_url)).
Proof.
  unfold _get_agent_card_urls, well_known_suffix.
  destruct (PyStr.contains "/a2a" agent_url) eqn:Ha;
    destruct (PyStr.contains "localhost:3003" agent_url) eqn:Hl;
    cbn [app]; (split; [discriminate|]).
  - split; [exists [PyStr.replace agent_url "/a2a" "/.well-known/agent-card.json";
                    PyStr.replace (PyStr.replace agent_url "/api/rooms/" "/rooms/")
                                  "/a2a" "/agent-card.json"]; reflexivity|].
    split; intros _; [reflexivity | right; left; reflexivity].
  - split; [exists [PyStr.replace agent_url "/a2a" "/.well-known/agent-card.json"];
            reflexivity|].
    split; [reflexivity | discriminate].
  - split; [exists [PyStr.replace (PyStr.replace agent_url "/api/rooms/" "/rooms/")
                                  "/a2a" "/agent-card.json"]; reflexivity|].
    split; [discriminate | intros _; left; reflexivity].
  - split; [exists []; reflexivity|].
    split; discriminate.
Qed.

Lemma get_agent_card_urls_spec_witness :
  hd_error (_get_agent_card_urls "http://localhost:3003/api/rooms/r1/a2a")
  = Some "http://localhost:3003/api/rooms/r1/.well-known/agent-card.json"
  /\ In "http://localhost:3003/rooms/r1/agent-card.json"
        (_get_agent_card_urls "http://localhost:3003/api/rooms/r1/a2a").
Proof.
  destruct (get_agent_card_urls_spec "http://localhost:3003/api/rooms/r1/a2a")
    as (_ & _ & Hfirst & Hroom).
  split.
  - apply Hfirst. reflexivity.
  - apply Hroom. reflexivity.
Defined.

(** ** The polling loop *)

Module PollFacts.
Import Client PollSpec.
Local Open Scope Z_scope.

Lemma appended_app evs evs' :
  appended (evs ++ evs') = appended evs ++ appended evs'.
Proof.
  induction evs as [|e evs IH]; [reflexivity|].
  destruct e; cbn; rewrite ?IH; reflexivity.
Qed.

Lemma mem_In x l : mem x l = true <-> In x l.
Proof.
  unfold mem. rewrite existsb_exists. split.
  - intros (y & Hy & Heq). apply String.eqb_eq in Heq. now subst.
  - intros H. exists x. split; [assumption | apply String.eqb_refl].
Qed.

Lemma mem_false x l : mem x l = false -> ~ In x l.
Proof. intros H Hin. apply mem_In in Hin. congruence. Qed.

(** What [receive] leaves unchanged, and what it appends. *)
Lemma receive_spec msg_id msg st evs st' :
  receive msg_id msg st = (evs, st') ->
  poll_count st' = poll_count st
  /\ self_current_task st' = self_current_task st
  /\ messages_received st' = messages_received st ++ appended evs
  /\ Forall quiet evs
  /\ (NoDup (messages_received st) -> NoDup (messages_received st')).
Proof.
  unfold receive. destruct (mem msg_id (messages_received st)) eqn:Hm; cbn;
    intros H; injection H as <- <-; cbn.
  - rewrite app_nil_r. repeat split; auto.
  - repeat split; auto.
    + repeat constructor.
    + intros Hnd. apply NoDup_app_remove_l with (l := []).
      apply mem_false in Hm. cbn.
      apply NoDup_rev in Hnd.
      rewrite <- (rev_involutive (messages_received st ++ [msg_id])).
      apply NoDup_rev. rewrite rev_app_distr. cbn.
      constructor; [|assumption].
      intros Hin. apply in_rev in Hin. contradiction.
Qed.

Lemma receive_history_spec items : forall st evs st',
  receive_history items st = (evs, st') ->
  poll_count st' = poll_count st
  /\ self_current_task st' = self_current_task st
  /\ messages_received st' = messages_received st ++ appended evs
  /\ Forall quiet evs
  /\ (NoDup (messages_received st) -> NoDup (messages_received st')).
Proof.
  induction items as [|item items IH]; intros st evs st'; cbn.
  - intros H; injection H as <- <-. cbn. rewrite app_nil_r.
    repeat split; auto.
  - destruct item as [m|]; [|apply IH].
    destruct (receive (message_id m) (WithId m) st) as [evs1 st1] eqn:H1.
    destruct (receive_history items st1) as [evs2 st2] eqn:H2.
    intros H; injection H as <- <-.
    apply receive_spec in H1. apply IH in H2.
    destruct H1 as (Hp1 & Hc1 & Hm1 & Hq1 & Hn1).
    destruct H2 as (Hp2 & Hc2 & Hm2 & Hq2 & Hn2).
    repeat split.
    + congruence.
    + congruence.
    + rewrite Hm2, Hm1, appended_app, app_assoc. reflexivity.
    + apply Forall_app; split; assumption.
    + auto.
Qed.

Lemma note_state_spec task st evs st' :
  note_state task st = (evs, st') ->
  poll_count st' = poll_count st
  /\ self_current_task st' = self_current_task st
  /\ messages_received st' = messages_received st
  /\ Forall quiet evs /\ appended evs = [].
Proof.
  unfold note_state.
  destruct (state_ne _ _); intros H; injection H as <- <-; cbn;
    repeat split; repeat constructor.
Qed.

Lemma terminal_In s : terminal s = true <-> In s [completed; failed; canceled].
Proof.
  split.
  - destruct s; cbn; intros H; try discriminate; auto.
  - intros [<-|[<-|[<-|[]]]]; reflexivity.
Qed.

Lemma TaskState_eqb_eq a b : TaskState_eqb a b = true <-> a = b.
Proof.
  split; [|intros <-; apply String.eqb_refl].
  destruct a, b; cbn; intros H; try discriminate; reflexivity.
Qed.

Lemma print_agent_text_quiet msg : quiet (print_agent_text msg).
Proof. unfold print_agent_text. destruct (nonempty_str _); exact I. Qed.

(** The loop stops exactly on the four stopping states, and then stores
    the fetched task in [self.current_task]. *)
Lemma check_stop_spec task st evs c st' :
  check_stop task st = (evs, (c, st')) ->
  poll_count st' = poll_count st
  /\ messages_received st' = messages_received st
  /\ Forall quiet evs /\ appended evs = []
  /\ match c with
     | Break => stopping task /\ self_current_task st' = task
     | Continue => ~ stopping task /\ st' = st
     end.
Proof.
  unfold check_stop, stopping.
  destruct (state (status task)) as [s|] eqn:Hs.
  - destruct (TaskState_eqb s input_required) eqn:Hi.
    + apply TaskState_eqb_eq in Hi. subst s.
      intros H; injection H as <- <- <-. cbn.
      repeat split.
      * destruct (last_agent_message st); repeat constructor.
        apply print_agent_text_quiet.
      * destruct (last_agent_message st); cbn; [|reflexivity].
        unfold print_agent_text. destruct (nonempty_str _); reflexivity.
      * exists input_required. split; [reflexivity | left; reflexivity].
    + destruct (terminal s) eqn:Ht.
      * intros H; injection H as <- <- <-. cbn.
        apply terminal_In in Ht.
        repeat split.
        -- constructor; [exact I|].
           destruct (last_agent_message st); [|constructor].
           destruct (TaskState_eqb s completed); repeat constructor.
           apply print_agent_text_quiet.
        -- destruct (last_agent_message st); [|reflexivity].
           destruct (TaskState_eqb s completed); [|reflexivity].
           cbn. unfold print_agent_text. destruct (nonempty_str _); reflexivity.
        -- exists s. split; [reflexivity | right; assumption].
      * intros H; injection H as <- <- <-. cbn.
        repeat split; [constructor|].
        intros (s' & Hs' & Hin). injection Hs' as <-.
        destruct Hin as [<-|Hin].
        -- cbn in Hi. discriminate.
        -- apply terminal_In in Hin. congruence.
  - intros H; injection H as <- <- <-. cbn.
    repeat split; [constructor|].
    intros (s' & Hs' & _). discriminate.
Qed.

Lemma process_task_spec task st evs c st' :
  process_task task st = (evs, (c, st')) ->
  poll_count st' = poll_count st
  /\ messages_received st' = messages_received st ++ appended evs
  /\ Forall quiet evs
  /\ (NoDup (messages_received st) -> NoDup (messages_received st'))
  /\ match c with
     | Break => stopping task /\ self_current_task st' = task
     | Continue =>
         ~ stopping task /\ self_current_task st' = self_current_task st
     end.
Proof.
  unfold process_task.
  destruct (note_state task st) as [evs1 st1] eqn:H1.
  destruct (match status_message (status task) with
            | Some msg => receive (msg_id_of msg) msg st1
            | None => ([], st1)
            end) as [evs2 st2] eqn:H2.
  destruct (receive_history (opt_list (history task)) st2)
    as [evs3 st3] eqn:H3.
  destruct (check_stop task st3) as [evs4 [c4 st4]] eqn:H4.
  intros H; injection H as <- <- <-.
  apply note_state_spec in H1. destruct H1 as (Hp1 & Hc1 & Hm1 & Hq1 & Ha1).
  assert (S2 : poll_count st2 = poll_count st1
               /\ self_current_task st2 = self_current_task st1
               /\ messages_received st2 = messages_received st1 ++ appended evs2
               /\ Forall quiet evs2
               /\ (NoDup (messages_received st1) ->
                   NoDup (messages_received st2))).
  { destruct (status_message (status task)) as [msg|].
    - eapply receive_spec; eassumption.
    - injection H2 as <- <-. cbn. rewrite app_nil_r. repeat split; auto. }
  destruct S2 as (Hp2 & Hc2 & Hm2 & Hq2 & Hn2).
  apply receive_history_spec in H3.
  destruct H3 as (Hp3 & Hc3 & Hm3 & Hq3 & Hn3).
  apply check_stop_spec in H4.
  destruct H4 as (Hp4 & Hm4 & Hq4 & Ha4 & Hc4).
  repeat split.
  - congruence.
  - rewrite !appended_app, Ha1, Ha4, app_nil_r. cbn.
    rewrite Hm4, Hm3, Hm2, Hm1, app_assoc. reflexivity.
  - repeat (apply Forall_app; split); assumption.
  - rewrite Hm4, <- Hm1. auto.
  - destruct c4.
    + destruct Hc4 as [Hns ->]. split; [assumption | congruence].
    + assumption.
Qed.

Section Loop.

Variable get_task : Z -> TaskQueryParams -> Exception + Task.
Variable max_polls : Z.
Variable interval : float.

Lemma quiet_not_sleep evs :
  Forall quiet evs -> Forall (fun e => ~ is_sleep e) evs.
Proof.
  apply Forall_impl. intros [] Hq Hs; cbn in *; contradiction.
Qed.

(** One iteration: the poll counter advances by one, the iteration starts
    with its sleep, and it ends the loop exactly when the fetch succeeded
    with a task in a stopping state. *)
Lemma poll_iteration_spec st evs c st' :
  poll_iteration get_task interval st = (evs, (c, st')) ->
  poll_count st' = poll_count st + 1
  /\ begins_with_sleep interval evs
  /\ messages_received st' = messages_received st ++ appended evs
  /\ (NoDup (messages_received st) -> NoDup (messages_received st'))
  /\ match c with
     | Break =>
         exists t,
           get_task (poll_count st + 1) (params_of (self_current_task st))
           = inr t
           /\ stopping t /\ self_current_task st' = t
     | Continue =>
         self_current_task st' = self_current_task st
         /\ forall t,
              get_task (poll_count st + 1) (params_of (self_current_task st))
              = inr t -> ~ stopping t
     end.
Proof.
  unfold poll_iteration, params_of. cbn [next_poll poll_count self_current_task].
  destruct (get_task _ _) as [e|task] eqn:Hg.
  - intros H; injection H as <- <- <-. cbn.
    rewrite app_nil_r. repeat split; auto.
    + do 3 eexists. split; [reflexivity|].
      repeat constructor; cbn; tauto.
    + intros t Ht. discriminate.
  - destruct (process_task task (next_poll st)) as [evs' [c' st'']] eqn:Hp.
    intros H; injection H as <- <- <-.
    apply process_task_spec in Hp.
    destruct Hp as (Hpc & Hm & Hq & Hn & Hc).
    cbn in Hpc, Hm, Hn, Hc.
    repeat split.
    + assumption.
    + do 3 eexists. split; [reflexivity|].
      constructor; [cbn; tauto|]. constructor; [cbn; tauto|].
      apply quiet_not_sleep. assumption.
    + cbn. assumption.
    + assumption.
    + destruct c'.
      * destruct Hc as [Hns Hs]. split; [assumption|].
        intros t Ht. injection Ht as <-. assumption.
      * exists task. destruct Hc as [Hs Ht]. auto.
Qed.

(** The loop returns when it is given an iteration of fuel for every
    poll that is left. *)
Lemma poll_loop_terminates fuel : forall st,
  max_polls - poll_count st <= Z.of_nat fuel ->
  exists r, poll_loop get_task max_polls interval fuel st = Some r.
Proof.
  induction fuel as [|fuel IH]; intros st Hfuel.
  - cbn. destruct (poll_count st <? max_polls) eqn:Hlt; [|eauto].
    apply Z.ltb_lt in Hlt. lia.
  - cbn [poll_loop]. destruct (poll_count st <? max_polls) eqn:Hlt; [|eauto].
    destruct (poll_iteration get_task interval st) as [evs [[|] st']] eqn:Hit.
    + apply poll_iteration_spec in Hit. destruct Hit as (Hpc & _).
      destruct (IH st') as [[its st''] Hr]; [lia|].
      rewrite Hr. eauto.
    + eauto.
Qed.

(** What a finished run of the loop looks like. *)
Lemma poll_loop_spec fuel : forall st its st',
  poll_loop get_task max_polls interval fuel st = Some (its, st') ->
  poll_count st' = poll_count st + Z.of_nat (List.length its)
  /\ (its = [] \/ poll_count st' <= max_polls)
  /\ Forall (begins_with_sleep interval) its
  /\ messages_received st' = messages_received st ++ appended (concat its)
  /\ (NoDup (messages_received st) -> NoDup (messages_received st'))
  /\ (poll_count st < max_polls -> poll_count st' < max_polls ->
      exists t,
        get_task (poll_count st') (params_of (self_current_task st)) = inr t
        /\ stopping t /\ self_current_task st' = t)
  /\ (forall n t,
        poll_count st < n <= poll_count st' ->
        get_task n (params_of (self_current_task st)) = inr t ->
        stopping t -> n = poll_count st').
Proof.
  induction fuel as [|fuel IH]; intros st its st'; cbn [poll_loop];
    destruct (poll_count st <? max_polls) eqn:Hlt.
  - discriminate.
  - intros H; injection H as <- <-. cbn. rewrite app_nil_r.
    apply Z.ltb_ge in Hlt.
    repeat split; auto; try lia.
  - apply Z.ltb_lt in Hlt.
    destruct (poll_iteration get_task interval st) as [evs [[|] st1]] eqn:Hit;
      apply poll_iteration_spec in Hit;
      destruct Hit as (Hpc & Hb & Hm & Hn & Hc).
    + destruct (poll_loop get_task max_polls interval fuel st1)
        as [[its1 st2]|] eqn:Hrec; [|discriminate].
      intros H; injection H as <- <-.
      apply IH in Hrec.
      destruct Hrec as (Hpc2 & Hle2 & Hb2 & Hm2 & Hn2 & Hex2 & Hun2).
      destruct Hc as (Hsame & Hnostop).
      rewrite Hsame in Hex2, Hun2.
      repeat split.
      * cbn [List.length]. lia.
      * right. destruct Hle2 as [-> | Hle2]; [cbn in Hpc2|]; lia.
      * constructor; assumption.
      * cbn [concat]. rewrite appended_app, Hm2, Hm, app_assoc. reflexivity.
      * auto.
      * intros _ Hlt2. apply Hex2; [|assumption].
        destruct Hle2 as [-> | Hle2]; cbn in Hpc2; lia.
      * intros n t Hrange Hg Hs.
        destruct (Z.eq_dec n (poll_count st + 1)) as [->|Hne].
        -- exfalso. exact (Hnostop t Hg Hs).
        -- apply (Hun2 n t); [lia | assumption | assumption].
    + intros H; injection H as <- <-.
      destruct Hc as (t & Hg & Hs & Ht).
      repeat split.
      * cbn. lia.
      * right. lia.
      * constructor; [assumption | constructor].
      * cbn. rewrite app_nil_r. assumption.
      * assumption.
      * intros _ _. exists t. rewrite Hpc. auto.
      * intros n t' Hrange _ _. lia.
  - intros H; injection H as <- <-. cbn. rewrite app_nil_r.
    apply Z.ltb_ge in Hlt.
    repeat split; auto; try lia.
Qed.

End Loop.

Example scenario_run :
  exists its ep st,
    poll_for_updates Scenario.get_task Scenario.self 10 2
    = Some (Polled its ep st,
            set_current_task Scenario.self (Some Scenario.answered))
    /\ List.length its = 3%nat
    /\ ep = []
    /\ poll_count st = 3
    /\ messages_received st = ["m-user"; "m-agent"]
    /\ last_agent_message st = Some (WithId Scenario.msg_agent).
Proof. do 3 eexists. split; [vm_compute; reflexivity|]. repeat split. Qed.

(** C1, as stated: the loop would leave early only on a terminal state.
    In the test conversation it leaves at the third of ten polls, on
    [input_required]. *)
Lemma early_exit_on_input_required :
  ~ early_exit_only_on_terminal Scenario.get_task Scenario.self 10 2.
Proof.
  intros H.
  destruct scenario_run as (its & ep & st & Hrun & _ & _ & Hpc & _).
  destruct (H Scenario.sent its ep st _ eq_refl Hrun) as (t & Ht & s & Hs & Hin).
  - rewrite Hpc. reflexivity.
  - rewrite Hpc in Ht. injection Ht as <-. injection Hs as <-.
    cbn in Hin. intuition discriminate.
Qed.

(** C1, amended.  The loop leaves before [max_polls] iterations only
    when the task it has just fetched is in one of the states
    input_required, completed, failed or canceled, and that task becomes
    the current task; and no iteration follows one whose fetch returned a
    task in such a state. *)
Theorem poll_stops_on_stopping_states
    (get_task : Z -> TaskQueryParams -> Exception + Task)
    (self self' : SimpleA2AClient) (task : Task) (max_polls : Z)
    (interval : float) (its : list (list Event)) (ep : list Event)
    (st : PollState) :
  current_task self = Some task ->
  poll_for_updates get_task self max_polls interval
  = Some (Polled its ep st, self') ->
  poll_count st = Z.of_nat (List.length its)
  /\ (poll_count st < max_polls ->
      exists t, get_task (poll_count st) (params_of task) = inr t
                /\ stopping t /\ current_task self' = Some t)
  /\ (forall n t,
        1 <= n <= poll_count st ->
        get_task n (params_of task) = inr t ->
        stopping t -> n = poll_count st).
Proof.
  unfold poll_for_updates. intros -> H.
  destruct (poll_loop _ _ _ _ _) as [[its0 st0]|] eqn:Hloop; [|discriminate].
  injection H as <- _ <- <-.
  apply poll_loop_spec in Hloop. cbn in Hloop.
  destruct Hloop as (Hpc & _ & _ & _ & _ & Hex & Hun).
  repeat split.
  - assumption.
  - intros Hlt.
    destruct Hex as (t & Hg & Hs & Ht); [lia | assumption |].
    exists t. cbn. rewrite Ht. auto.
  - intros n t Hrange. apply Hun. lia.
Qed.

Lemma poll_stops_on_stopping_states_witness :
  (exists t, Scenario.get_task 3 (params_of Scenario.sent) = inr t
             /\ stopping t)
  /\ (forall n t, 1 <= n <= 3 ->
       Scenario.get_task n (params_of Scenario.sent) = inr t ->
       stopping t -> n = 3).
Proof.
  destruct scenario_run as (its & ep & st & Hrun & _ & _ & Hpc & _).
  destruct (poll_stops_on_stopping_states Scenario.get_task Scenario.self _
              Scenario.sent 10 2 its ep st eq_refl Hrun) as (_ & Hex & Hun).
  rewrite Hpc in Hex, Hun. split.
  - destruct Hex as (t & Hg & Hs & _); [reflexivity|]. eauto.
  - exact Hun.
Defined.

(** C2.  [poll_for_updates] always returns.  Without a current task it
    returns at once, with no iteration and the client unchanged.
    Otherwise the body of the loop runs at most [max_polls] times (not at
    all when [max_polls] is zero or negative) and every iteration starts
    by sleeping exactly [interval] seconds, once.  The defaults are 10
    polls and 2.0 seconds. *)
Theorem poll_for_updates_bounded
    (get_task : Z -> TaskQueryParams -> Exception + Task)
    (self : SimpleA2AClient) (max_polls : Z) (interval : float) :
  (exists r self',
     poll_for_updates get_task self max_polls interval = Some (r, self')
     /\ match current_task self with
        | None => r = NoTask /\ self' = self
        | Some _ =>
            exists its ep st,
              r = Polled its ep st
              /\ (List.length its <= Z.to_nat max_polls)%nat
              /\ Forall (begins_with_sleep interval) its
        end)
  /\ poll_for_updates_default get_task self
     = poll_for_updates get_task self 10 2.
Proof.
  split; [|reflexivity].
  unfold poll_for_updates.
  destruct (current_task self) as [task|]; [|eauto].
  destruct (poll_loop_terminates get_task max_polls interval
              (Z.to_nat max_polls) (initial task)) as [[its st] Hloop].
  { cbn. lia. }
  rewrite Hloop. do 2 eexists. split; [reflexivity|].
  exists its. do 2 eexists. split; [reflexivity|].
  apply poll_loop_spec in Hloop. cbn in Hloop.
  destruct Hloop as (Hpc & Hle & Hb & _).
  split; [|assumption].
  destruct Hle as [-> | Hle]; cbn; lia.
Qed.

(** C3.  The identifiers in [messages_received] are those appended
    during the run, in order; at every point of the run the identifiers
    appended so far are pairwise distinct, and an identifier is appended
    only when it is not among them. *)
Theorem messages_received_no_duplicates
    (get_task : Z -> TaskQueryParams -> Exception + Task)
    (self self' : SimpleA2AClient) (max_polls : Z) (interval : float)
    (its : list (list Event)) (ep : list Event) (st : PollState) :
  poll_for_updates get_task self max_polls interval
  = Some (Polled its ep st, self') ->
  messages_received st = appended (concat its)
  /\ NoDup (messages_received st)
  /\ (forall pre post, concat its = pre ++ post -> NoDup (appended pre))
  /\ (forall pre x post,
        concat its = pre ++ EAppend x :: post -> ~ In x (appended pre)).
Proof.
  unfold poll_for_updates.
  destruct (current_task self) as [task|]; [|discriminate].
  destruct (poll_loop _ _ _ _ _) as [[its0 st0]|] eqn:Hloop; [|discriminate].
  intros H; injection H as Hits _ Hst _. subst its0 st0.
  apply poll_loop_spec in Hloop. cbn in Hloop.
  destruct Hloop as (_ & _ & _ & Hm & Hn & _).
  specialize (Hn (NoDup_nil _)).
  assert (Hpre : forall pre post,
             concat its = pre ++ post -> NoDup (appended pre)).
  { intros pre post Heq. rewrite Hm, Heq, appended_app in Hn.
    apply NoDup_app_remove_r in Hn. assumption. }
  repeat split; try assumption.
  intros pre x post Heq Hin.
  specialize (Hpre (pre ++ [EAppend x]) post).
  rewrite <- app_assoc in Hpre. specialize (Hpre Heq).
  rewrite appended_app in Hpre. cbn in Hpre.
  apply NoDup_remove_2 in Hpre. rewrite app_nil_r in Hpre. contradiction.
Qed.

Lemma messages_received_no_duplicates_witness :
  NoDup ["m-user"; "m-agent"].
Proof.
  destruct scenario_run as (its & ep & st & Hrun & _ & _ & _ & Hmr & _).
  destruct (messages_received_no_duplicates Scenario.get_task Scenario.self _
              10 2 its ep st Hrun) as (_ & Hnd & _).
  rewrite Hmr in Hnd. exact Hnd.
Defined.

End PollFacts.

(** ** Traces of computations *)

Module TraceFacts.
Import TraceSpec.

Lemma gets_app evs evs' : gets (evs ++ evs') = gets evs ++ gets evs'.
Proof.
  induction evs as [|e evs IH]; [reflexivity|].
  destruct e; cbn; rewrite ?IH; reflexivity.
Qed.

Lemma validated_app evs evs' :
  validated (evs ++ evs') = validated evs ++ validated evs'.
Proof.
  induction evs as [|e evs IH]; [reflexivity|].
  destruct e; cbn; rewrite ?IH; reflexivity.
Qed.

Lemma no_gets evs : Forall not_get evs -> gets evs = [].
Proof.
  induction 1 as [|e evs He _ IH]; [reflexivity|].
  destruct e; cbn in *; tauto.
Qed.

Lemma no_validated evs : Forall not_validate evs -> validated evs = [].
Proof.
  induction 1 as [|e evs He _ IH]; [reflexivity|].
  destruct e; cbn in *; tauto.
Qed.

Lemma trace_bind {A B} (m : M A) (k : A -> M B) :
  trace (bind m k)
  = trace m ++ match outcome m with
               | Ok a => trace (k a)
               | _ => []
               end.
Proof.
  destruct m as [evs [a|e|c]]; cbn; rewrite ?app_nil_r; try reflexivity.
  destruct (k a); reflexivity.
Qed.

Lemma outcome_bind {A B} (m : M A) (k : A -> M B) :
  outcome (bind m k)
  = match outcome m with
    | Ok a => outcome (k a)
    | Raise e => Raise e
    | Exit c => Exit c
    end.
Proof.
  destruct m as [evs [a|e|c]]; cbn; try reflexivity.
  destruct (k a); reflexivity.
Qed.

Lemma trace_try_except {A} (m : M A) (h : Exception -> M A) :
  trace (try_except m h)
  = trace m ++ match outcome m with
               | Raise e => trace (h e)
               | _ => []
               end.
Proof.
  destruct m as [evs [a|e|c]]; cbn; rewrite ?app_nil_r; try reflexivity.
  destruct (h e); reflexivity.
Qed.

Lemma outcome_try_except {A} (m : M A) (h : Exception -> M A) :
  outcome (try_except m h)
  = match outcome m with
    | Raise e => outcome (h e)
    | o => o
    end.
Proof.
  destruct m as [evs [a|e|c]]; cbn; try reflexivity.
  destruct (h e); reflexivity.
Qed.

Section AllEvents.

Variable P : Event -> Prop.

Lemma all_bind {A B} (m : M A) (k : A -> M B) :
  all_events P m -> (forall a, all_events P (k a)) -> all_events P (bind m k).
Proof.
  unfold all_events. intros Hm Hk. rewrite trace_bind.
  apply Forall_app. split; [assumption|].
  destruct (outcome m); [apply Hk | constructor | constructor].
Qed.

Lemma all_try_except {A} (m : M A) (h : Exception -> M A) :
  all_events P m -> (forall e, all_events P (h e)) ->
  all_events P (try_except m h).
Proof.
  unfold all_events. intros Hm Hh. rewrite trace_try_except.
  apply Forall_app. split; [assumption|].
  destruct (outcome m); [constructor | apply Hh | constructor].
Qed.

Lemma all_tell evs : Forall P evs -> all_events P (tell evs).
Proof. trivial. Qed.

Lemma all_print fmt args : P (EPrint fmt args) -> all_events P (print fmt args).
Proof. intros H. repeat constructor. assumption. Qed.

Lemma all_ret {A} (a : A) : all_events P (ret a).
Proof. constructor. Qed.

Lemma all_raise {A} e : all_events P (@raise A e).
Proof. constructor. Qed.

Lemma all_sys_exit {A} c : all_events P (@sys_exit A c).
Proof. constructor. Qed.

Lemma all_lift {A} (r : Exception + A) : all_events P (lift r).
Proof. destruct r; constructor. Qed.

Lemma all_when c m : all_events P m -> all_events P (when c m).
Proof. destruct c; [trivial | intros _; constructor]. Qed.

Lemma all_for_each {A} (l : list A) body :
  (forall x, all_events P (body x)) -> all_events P (for_each l body).
Proof.
  intros Hb. induction l as [|x l IH]; [constructor|].
  cbn. apply all_bind; auto.
Qed.

Lemma all_slice_opt n o : all_events P (slice_opt n o).
Proof. destruct o; constructor. Qed.

End AllEvents.

Lemma in_bind_l {A B} (m : M A) (k : A -> M B) e :
  In e (trace m) -> In e (trace (bind m k)).
Proof. intros H. rewrite trace_bind. apply in_or_app. auto. Qed.

Lemma in_bind_r {A B} (m : M A) (k : A -> M B) a e :
  outcome m = Ok a -> In e (trace (k a)) -> In e (trace (bind m k)).
Proof. intros Hm H. rewrite trace_bind, Hm. apply in_or_app. auto. Qed.

Lemma bind_ok {A B} (m : M A) (k : A -> M B) a b :
  outcome m = Ok a -> outcome (k a) = Ok b -> outcome (bind m k) = Ok b.
Proof. intros Hm Hk. rewrite outcome_bind, Hm. exact Hk. Qed.

Lemma when_ok c m : outcome m = Ok tt -> outcome (when c m) = Ok tt.
Proof. destruct c; [trivial | reflexivity]. Qed.

Lemma for_each_ok {A} (l : list A) body :
  (forall x, In x l -> outcome (body x) = Ok tt) ->
  outcome (for_each l body) = Ok tt.
Proof.
  induction l as [|x l IH]; intros Hb; [reflexivity|].
  cbn [for_each]. apply bind_ok with (a := tt).
  - apply Hb. left. reflexivity.
  - apply IH. intros y Hy. apply Hb. right. assumption.
Qed.

Lemma in_for_each {A} (l : list A) body x e :
  (forall y, In y l -> outcome (body y) = Ok tt) ->
  In x l -> In e (trace (body x)) -> In e (trace (for_each l body)).
Proof.
  induction l as [|y l IH]; intros Hb Hx He; [contradiction|].
  cbn [for_each]. destruct Hx as [->|Hx].
  - apply in_bind_l. assumption.
  - apply in_bind_r with (a := tt).
    + apply Hb. left. reflexivity.
    + apply IH; auto. intros z Hz. apply Hb. right. assumption.
Qed.

(** Proves that a computation made of prints returns. *)
Ltac returns :=
  repeat match goal with
    | H : outcome ?m = Ok tt |- outcome ?m = Ok tt => exact H
    | |- outcome (bind _ _) = Ok tt => apply bind_ok with (a := tt)
    | |- outcome (print _ _) = Ok tt => reflexivity
    | |- outcome (ret _) = Ok _ => reflexivity
    | |- outcome (when _ _) = Ok tt => apply when_ok
    | |- outcome (for_each _ _) = Ok tt => apply for_each_ok; intros ? ?
    | |- outcome (match ?x with _ => _ end) = Ok tt => destruct x
    end.

(** Takes a computation apart down to its single events; [P] is to hold
    of each by computation. *)
Ltac events :=
  repeat match goal with
    | |- all_events _ (bind _ _) => apply all_bind; [|intros]
    | |- all_events _ (try_except _ _) => apply all_try_except; [|intros]
    | |- all_events _ (when _ _) => apply all_when
    | |- all_events _ (for_each _ _) => apply all_for_each; intros
    | |- all_events _ (print _ _) =>
        apply all_print; first [exact I | solve [auto]]
    | |- all_events _ (tell _) => apply all_tell; repeat constructor
    | |- all_events _ (lift _) => apply all_lift
    | |- all_events _ (ret _) => apply all_ret
    | |- all_events _ (raise _) => apply all_raise
    | |- all_events _ (sys_exit _) => apply all_sys_exit
    | |- all_events _ (slice_opt _ _) => apply all_slice_opt
    | |- all_events _ (match ?x with _ => _ end) => destruct x
    end.

End TraceFacts.

(** ** Ending a conversation *)

Module EndFacts.
Import Client.

Example end_conversation_without_client :
  end_conversation Fixture.sdk
    (set_current_task Fixture.self (Some Scenario.sent))
  = ([EPrint "📤 Ending conversation..." [];
      ENewStatusUpdate "task-1" completed;
      EPrint "❌ Error ending conversation: {}"
        [VExc (OtherError "AttributeError"
                 "'NoneType' object has no attribute 'send_task_status_update'")];
      EPrint "   Clearing conversation locally" []],
     Ok Fixture.self).
Proof. reflexivity. Qed.

(** C9.  With an active conversation [end_conversation] returns with
    [current_task] cleared, whatever the SDK calls do, succeed or raise,
    and leaves the other attributes alone; without one it leaves the
    client as it is. *)
Theorem end_conversation_clears_task (sdk : SDK) (self : SimpleA2AClient) :
  (forall task,
     current_task self = Some task ->
     outcome (end_conversation sdk self) = Ok (set_current_task self None))
  /\ (current_task self = None ->
      outcome (end_conversation sdk self) = Ok self).
Proof.
  unfold end_conversation, client_send. split.
  - intros task ->.
    destruct (new_status_update sdk (task_id task) completed) as [e|ev];
      [reflexivity|]. cbn.
    destruct (client self) as [c|]; [|reflexivity]. cbn.
    destruct (send_task_status_update sdk ev) as [e|[]]; reflexivity.
  - intros ->. reflexivity.
Qed.

Lemma end_conversation_clears_task_witness :
  outcome (end_conversation Fixture.sdk
             (set_current_task Fixture.self (Some Scenario.sent)))
  = Ok (set_current_task
          (set_current_task Fixture.self (Some Scenario.sent)) None)
  /\ outcome (end_conversation Fixture.sdk Fixture.self) = Ok Fixture.self.
Proof.
  split.
  - apply (proj1 (end_conversation_clears_task Fixture.sdk
                    (set_current_task Fixture.self (Some Scenario.sent)))
                 Scenario.sent).
    reflexivity.
  - apply (proj2 (end_conversation_clears_task Fixture.sdk Fixture.self)).
    reflexivity.
Defined.

End EndFacts.

(** ** Connecting *)

Module ConnectFacts.
Import Client TraceSpec ConnectSpec TraceFacts.

Section Fetch.

Variable http_get : nat -> string -> Exception + Response.

(** The GETs go to the candidates in their order, without a gap. *)
Lemma try_card_urls_prefix urls : forall i,
  exists k, gets (fst (try_card_urls http_get i urls)) = firstn k urls.
Proof.
  induction urls as [|u urls IH]; intros i.
  - exists 0%nat. reflexivity.
  - cbn [try_card_urls]. destruct (IH (S i)) as [k Hk].
    destruct (try_card_urls http_get (S i) urls) as [evs r].
    assert (Hcont : exists k',
               gets (fst ([EPrint "   Trying: {}" [VStr u]; EHttpGet u] ++ evs, r))
               = firstn k' (u :: urls)).
    { exists (S k). cbn in *. now rewrite Hk. }
    destruct (http_get i u) as [e|response]; [exact Hcont|].
    destruct (status_code response =? 200)%Z; [|exact Hcont].
    destruct (json response) as [e|data]; [exact Hcont|].
    exists 1%nat. reflexivity.
Qed.

(** The events of the search are prints and GETs. *)
Lemma try_card_urls_not_validate urls : forall i,
  Forall not_validate (fst (try_card_urls http_get i urls)).
Proof.
  induction urls as [|u urls IH]; intros i.
  - constructor.
  - cbn [try_card_urls]. specialize (IH (S i)).
    destruct (try_card_urls http_get (S i) urls) as [evs r].
    assert (Hcont : Forall not_validate
               (fst ([EPrint "   Trying: {}" [VStr u]; EHttpGet u] ++ evs, r))).
    { cbn in *. repeat constructor. assumption. }
    destruct (http_get i u) as [e|response]; [exact Hcont|].
    destruct (status_code response =? 200)%Z; [|exact Hcont].
    destruct (json response) as [e|data]; [exact Hcont|].
    repeat constructor.
Qed.

(** A candidate that is not usable is passed over. *)
Lemma try_card_urls_skip u urls i :
  unusable http_get i u ->
  try_card_urls http_get i (u :: urls)
  = (let (evs, r) := try_card_urls http_get (S i) urls in
     ([EPrint "   Trying: {}" [VStr u]; EHttpGet u] ++ evs, r)).
Proof.
  intros Hno. cbn [try_card_urls].
  destruct (http_get i u) as [e|response] eqn:Hg; [reflexivity|].
  destruct (status_code response =? 200)%Z eqn:Hs; [|reflexivity].
  destruct (json response) as [e|data] eqn:Hj; [reflexivity|].
  exfalso. apply (Hno data). exists response.
  apply Z.eqb_eq in Hs. auto.
Qed.

(** The search ends at the first usable candidate. *)
Lemma try_card_urls_found urls : forall i k u data,
  nth_error urls k = Some u ->
  usable http_get (i + k) u data ->
  (forall j v, (j < k)%nat -> nth_error urls j = Some v ->
               unusable http_get (i + j) v) ->
  snd (try_card_urls http_get i urls) = Some data
  /\ gets (fst (try_card_urls http_get i urls)) = firstn (S k) urls.
Proof.
  induction urls as [|u0 urls IH]; intros i k u data Hnth Huse Hbefore.
  - destruct k; discriminate.
  - destruct k as [|k].
    + injection Hnth as ->. rewrite Nat.add_0_r in Huse.
      destruct Huse as (r & Hg & Hs & Hj).
      cbn [try_card_urls]. rewrite Hg, Hs, Hj. cbn. auto.
    + rewrite try_card_urls_skip.
      2:{ specialize (Hbefore 0%nat u0). rewrite Nat.add_0_r in Hbefore.
          apply Hbefore; [lia | reflexivity]. }
      destruct (IH (S i) k u data) as [Hd Hgets].
      * exact Hnth.
      * replace (S i + k)%nat with (i + S k)%nat by lia. exact Huse.
      * intros j v Hj Hv.
        replace (S i + j)%nat with (i + S j)%nat by lia.
        apply Hbefore; [lia | exact Hv].
      * destruct (try_card_urls http_get (S i) urls) as [evs r].
        cbn in *. now rewrite Hgets.
Qed.

(** Without a usable candidate every URL is tried and no data is found. *)
Lemma try_card_urls_none urls : forall i,
  (forall k u, nth_error urls k = Some u -> unusable http_get (i + k) u) ->
  snd (try_card_urls http_get i urls) = None
  /\ gets (fst (try_card_urls http_get i urls)) = urls.
Proof.
  induction urls as [|u0 urls IH]; intros i Hall.
  - auto.
  - rewrite try_card_urls_skip.
    2:{ specialize (Hall 0%nat u0). rewrite Nat.add_0_r in Hall.
        apply Hall. reflexivity. }
    destruct (IH (S i)) as [Hd Hgets].
    { intros k u Hk. replace (S i + k)%nat with (i + S k)%nat by lia.
      apply Hall. exact Hk. }
    destruct (try_card_urls http_get (S i) urls) as [evs r].
    cbn in *. now rewrite Hgets.
Qed.

(** The fetch stage adds a print at most. *)
Lemma fetch_agent_card_spec self :
  gets (fst (fetch_agent_card http_get self))
  = gets (fst (try_card_urls http_get 0 (_get_agent_card_urls (agent_url self))))
  /\ validated (fst (fetch_agent_card http_get self)) = []
  /\ snd (fetch_agent_card http_get self)
     = match snd (try_card_urls http_get 0
                    (_get_agent_card_urls (agent_url self))) with
       | Some d => if truthy d then Some d else None
       | None => None
       end.
Proof.
  unfold fetch_agent_card.
  pose proof (try_card_urls_not_validate
                (_get_agent_card_urls (agent_url self)) 0) as Hnv.
  destruct (try_card_urls http_get 0 _) as [evs [d|]]; cbn in *.
  - destruct (truthy d); cbn.
    + repeat split. apply no_validated. assumption.
    + rewrite gets_app, validated_app, app_nil_r.
      rewrite (no_validated evs Hnv). auto.
  - rewrite gets_app, validated_app, app_nil_r.
    rewrite (no_validated evs Hnv). auto.
Qed.

End Fetch.

Section Connect.

Variable sdk : SDK.
Variable http_get : nat -> string -> Exception + Response.

Lemma create_client_no_get self d :
  all_events not_get (create_client sdk self d).
Proof.
  unfold create_client, add_missing_version, py_in, py_setitem.
  destruct d; events.
Qed.

Lemma connection_failed_quiet self e :
  all_events not_get (connection_failed self e)
  /\ all_events not_validate (connection_failed self e).
Proof. unfold connection_failed. split; events. Qed.

Lemma attempt_no_get self d :
  all_events not_get
    (try_except (create_client sdk self d) (connection_failed self)).
Proof.
  apply all_try_except; [apply create_client_no_get|].
  intros e. apply connection_failed_quiet.
Qed.

(** [connect], one stage after the other. *)
Lemma connect_stages self :
  let self1 := set_http_client self (Some (AsyncClient 60)) in
  let intro := [EPrint "🔌 Connecting to: {}" [VStr (agent_url self)];
                EHttpClientNew 60] in
  connect sdk http_get self
  = match fetch_agent_card http_get self with
    | (evs, None) => (intro ++ evs, Ok (self1, false))
    | (evs, Some d) =>
        let (evs', r) := try_except (create_client sdk self1 d)
                                    (connection_failed self1) in
        (intro ++ evs ++ evs', r)
    end.
Proof.
  cbn zeta. unfold connect.
  change (fetch_agent_card http_get (set_http_client self (Some (AsyncClient 60))))
    with (fetch_agent_card http_get self).
  destruct (fetch_agent_card http_get self) as [evs [d|]]; cbn.
  - destruct (create_client sdk _ d) as [evs1 [r|e|c]]; cbn.
    + reflexivity.
    + rewrite <- app_assoc. reflexivity.
    + reflexivity.
  - rewrite app_nil_r. reflexivity.
Qed.

Lemma connect_gets self :
  gets (trace (connect sdk http_get self))
  = gets (fst (try_card_urls http_get 0 (_get_agent_card_urls (agent_url self)))).
Proof.
  rewrite connect_stages. cbn zeta.
  destruct (fetch_agent_card_spec http_get self) as (Hg & _ & _).
  destruct (fetch_agent_card http_get self) as [evs [d|]]; cbn in Hg |- *.
  - pose proof (attempt_no_get
                  (set_http_client self (Some (AsyncClient 60))) d) as Ht.
    unfold all_events in Ht.
    destruct (try_except _ _) as [evs' r]. cbn in Ht |- *.
    rewrite gets_app, (no_gets evs' Ht), app_nil_r. exact Hg.
  - exact Hg.
Qed.

End Connect.

Example connect_past_a_web_page :
  gets (trace (connect Fixture.sdk Fixture.http_get Fixture.self))
  = ["http://agent.example/.well-known/agent-card.json";
     "http://agent.example/a2a/.well-known/agent-card.json"]
  /\ validated (trace (connect Fixture.sdk Fixture.http_get Fixture.self))
     = [JDict [("name", JStr "Room agent");
               ("url", JStr "http://localhost:3003/api/rooms/r1/a2a");
               ("version", JStr "1.0.0")]]
  /\ exists self', outcome (connect Fixture.sdk Fixture.http_get Fixture.self)
                   = Ok (self', true).
Proof. repeat split. eexists. reflexivity. Qed.

(** C5, as stated: the first response with status 200 would end the
    search.  The test server answers the first candidate with status 200
    and a web page; [connect] goes on to the second candidate. *)
Lemma first_200_not_json_is_passed_over :
  ~ first_200_ends_search Fixture.sdk Fixture.http_get Fixture.self.
Proof.
  intros H.
  specialize (H 0%nat "http://agent.example/.well-known/agent-card.json"
                eq_refl).
  destruct connect_past_a_web_page as (Hgets & _).
  rewrite Hgets in H. cbn in H.
  assert (Hfalse : ["http://agent.example/.well-known/agent-card.json";
                    "http://agent.example/a2a/.well-known/agent-card.json"]
                   = ["http://agent.example/.well-known/agent-card.json"]).
  { apply H.
    - eexists. split; reflexivity.
    - intros j v Hj. lia. }
  discriminate.
Qed.

(** C5, amended.  [connect] sends its GETs to the candidate URLs in the
    order of [_get_agent_card_urls], one after the other, and stops at the
    first candidate answered with status 200 and a body that decodes as
    JSON: no GET follows it.  That body is the agent-card data unless it is
    falsy, in which case [connect] returns [False]; a candidate answered
    otherwise is passed over, and [connect] returns [False] when no
    candidate is answered in that way. *)
Theorem connect_fetch_order (sdk : SDK)
    (http_get : nat -> string -> Exception + Response)
    (self : SimpleA2AClient) :
  (exists k,
     gets (trace (connect sdk http_get self))
     = firstn k (_get_agent_card_urls (agent_url self)))
  /\ (forall k u data,
        nth_error (_get_agent_card_urls (agent_url self)) k = Some u ->
        usable http_get k u data ->
        (forall j v, (j < k)%nat ->
           nth_error (_get_agent_card_urls (agent_url self)) j = Some v ->
           unusable http_get j v) ->
        gets (trace (connect sdk http_get self))
        = firstn (S k) (_get_agent_card_urls (agent_url self))
        /\ snd (fetch_agent_card http_get self)
           = (if truthy data then Some data else None)
        /\ (truthy data = false ->
            outcome (connect sdk http_get self)
            = Ok (set_http_client self (Some (AsyncClient 60)), false)))
  /\ ((forall k u,
         nth_error (_get_agent_card_urls (agent_url self)) k = Some u ->
         unusable http_get k u) ->
      gets (trace (connect sdk http_get self))
      = _get_agent_card_urls (agent_url self)
      /\ outcome (connect sdk http_get self)
         = Ok (set_http_client self (Some (AsyncClient 60)), false)).
Proof.
  assert (Hnone : snd (fetch_agent_card http_get self) = None ->
                  outcome (connect sdk http_get self)
                  = Ok (set_http_client self (Some (AsyncClient 60)), false)).
  { rewrite connect_stages. cbn zeta.
    destruct (fetch_agent_card http_get self) as [evs [d|]]; cbn;
      [discriminate | reflexivity]. }
  destruct (fetch_agent_card_spec http_get self) as (_ & _ & Hdata).
  rewrite connect_gets. split; [|split].
  - apply try_card_urls_prefix.
  - intros k u data Hnth Huse Hbefore.
    destruct (try_card_urls_found http_get _ 0%nat k u data Hnth Huse Hbefore)
      as [Hd Hgets].
    rewrite Hd in Hdata. repeat split; try assumption.
    intros Hfalsy. apply Hnone. rewrite Hdata, Hfalsy. reflexivity.
  - intros Hall.
    destruct (try_card_urls_none http_get _ 0%nat Hall) as [Hd Hgets].
    rewrite Hd in Hdata. auto.
Qed.

Lemma connect_fetch_order_witness :
  gets (trace (connect Fixture.sdk Fixture.http_get Fixture.self))
  = firstn 2 (_get_agent_card_urls (agent_url Fixture.self))
  /\ snd (fetch_agent_card Fixture.http_get Fixture.self)
     = Some (JDict Fixture.card_without_version).
Proof.
  destruct (connect_fetch_order Fixture.sdk Fixture.http_get Fixture.self)
    as (_ & Hfound & _).
  destruct (Hfound 1%nat "http://agent.example/a2a/.well-known/agent-card.json"
                   (JDict Fixture.card_without_version))
    as (Hgets & Hdata & _).
  - reflexivity.
  - eexists. repeat split; reflexivity.
  - intros j v Hj Hv data (r & Hg & _ & Hjson).
    assert (j = 0%nat) by lia. subst j.
    cbn in Hg. injection Hg as <-. discriminate.
  - split; assumption.
Defined.

Lemma lookup_existsb key items :
  lookup key items = None ->
  existsb (fun kv : string * JSON => (fst kv =? key)%string) items = false.
Proof.
  induction items as [|[k v] items IH]; [reflexivity|].
  cbn. destruct (k =? key)%string; [discriminate | exact IH].
Qed.

Lemma dict_set_absent key v items :
  lookup key items = None -> dict_set key v items = items ++ [(key, v)].
Proof.
  induction items as [|[k w] items IH]; [reflexivity|].
  cbn. destruct (k =? key)%string; [discriminate|].
  intros H. now rewrite IH.
Qed.

(** A fetched dict without 'version' reaches validation with the key
    added, and a card the SDK accepts in that form is the one the client
    is created for. *)
Lemma connect_adds_version sdk http_get self items :
  snd (fetch_agent_card http_get self) = Some (JDict items) ->
  lookup "version" items = None ->
  validated (trace (connect sdk http_get self))
  = [JDict (items ++ [("version", JStr "1.0.0")])]
  /\ forall card,
       model_validate sdk (JDict (items ++ [("version", JStr "1.0.0")]))
       = inr card ->
       In (EFactoryCreate card) (trace (connect sdk http_get self)).
Proof.
  intros Hfetch Hlack.
  rewrite connect_stages. cbn zeta.
  destruct (fetch_agent_card_spec http_get self) as (_ & Hnv & _).
  destruct (fetch_agent_card http_get self) as [evs d]. cbn in Hfetch, Hnv.
  subst d.
  unfold create_client, add_missing_version, py_in, py_setitem.
  rewrite (lookup_existsb _ _ Hlack), (dict_set_absent _ _ _ Hlack). cbn.
  destruct (model_validate sdk _) as [e|card]; cbn.
  - rewrite validated_app, Hnv. split; [reflexivity|]. discriminate.
  - destruct (factory_create sdk card) as [e|c]; cbn;
      rewrite validated_app, Hnv; (split; [reflexivity|]);
      intros card' Hcard; injection Hcard as <-;
      right; right; apply in_or_app; right; cbn; tauto.
Qed.

End ConnectFacts.

(** ** The validator *)

Module ValidatorFacts.
Import Validator TraceSpec ValidatorSpec TraceFacts.

Lemma all_try_except_ValidationError {A} P (m : M A) h :
  all_events P m -> (forall errors, all_events P (h errors)) ->
  all_events P (try_except_ValidationError m h).
Proof.
  unfold all_events. intros Hm Hh.
  destruct m as [evs [a|e|c]]; cbn in *; try assumption.
  destruct e; cbn; try assumption.
  specialize (Hh errors). destruct (h errors) as [evs' r]. cbn in *.
  apply Forall_app. auto.
Qed.

Section Reports.

Variable P : Event -> Prop.
Hypothesis P_print : forall fmt args, P (EPrint fmt args).

Lemma print_validated_all card : all_events P (print_validated card).
Proof. unfold print_validated. events. Qed.

Lemma validation_failed_all errors data :
  all_events P (validation_failed errors data).
Proof. unfold validation_failed, print_error. events. Qed.

Lemma transport_failed_all target e : all_events P (transport_failed target e).
Proof. unfold transport_failed. events. Qed.

Lemma check_card_all sdk data :
  P (EModelValidate data) -> all_events P (check_card sdk data).
Proof.
  intros Hv. unfold check_card.
  apply all_try_except_ValidationError.
  - events; [assumption | apply print_validated_all].
  - intros errors. apply validation_failed_all.
Qed.

End Reports.

Section Run.

Variable sdk : SDK.
Variable requests_get : string -> Exception + Response.
Variable target : string.

Lemma validate_stages :
  validate_agent_card_from_url sdk requests_get target
  = (opening target
       ++ trace (try_except (fetch_and_check sdk requests_get target)
                            (transport_failed target)),
     outcome (try_except (fetch_and_check sdk requests_get target)
                         (transport_failed target))).
Proof.
  unfold validate_agent_card_from_url.
  destruct (try_except _ _) as [evs r]. reflexivity.
Qed.

(** The request comes first in the body of the [try], and is the only
    one. *)
Lemma fetch_and_check_trace :
  exists rest,
    trace (fetch_and_check sdk requests_get target) = EHttpGet target :: rest
    /\ Forall not_get rest.
Proof.
  unfold fetch_and_check. rewrite trace_bind. cbn [tell trace fst outcome snd app].
  eexists. split; [reflexivity|].
  change (all_events not_get
            (response <- lift (requests_get target) ;;
             raise_for_status response ;;
             agent_card_data <- response_json response ;;
             print "✓ Successfully fetched agent card" [] ;;
             print "  Response status: {}" [VInt (status_code response)] ;;
             print "  Content size: {} bytes\n"
                   [VInt (Z.of_nat (String.length (text response)))] ;;
             check_card sdk agent_card_data)).
  unfold raise_for_status, response_json. events.
  apply check_card_all; [intros; exact I | exact I].
Qed.

Lemma validate_gets :
  gets (trace (validate_agent_card_from_url sdk requests_get target))
  = [target].
Proof.
  rewrite validate_stages. cbn [trace fst].
  rewrite gets_app, trace_try_except, gets_app.
  destruct fetch_and_check_trace as (rest & -> & Hrest).
  cbn. rewrite (no_gets rest Hrest). cbn.
  destruct (outcome _); try reflexivity.
  rewrite no_gets; [reflexivity|].
  apply transport_failed_all. intros; exact I.
Qed.

Lemma transport_failed_spec e :
  outcome (transport_failed target e) = Exit 1
  /\ error_reported (trace (transport_failed target e)).
Proof.
  destruct e; (split; [reflexivity|]);
    do 2 eexists; (split; [left; reflexivity | reflexivity]).
Qed.

(** Whatever the body of the [try] raises ends the run with an error
    message and status 1. *)
Lemma validate_on_raise e :
  outcome (fetch_and_check sdk requests_get target) = Raise e ->
  outcome (validate_agent_card_from_url sdk requests_get target) = Exit 1
  /\ error_reported
       (trace (validate_agent_card_from_url sdk requests_get target)).
Proof.
  intros Hraise. rewrite validate_stages. cbn [trace outcome fst snd].
  rewrite outcome_try_except, trace_try_except, Hraise.
  destruct (transport_failed_spec e) as [Hout (fmt & args & Hin & Hfmt)].
  split; [assumption|].
  exists fmt, args. split; [|assumption].
  apply in_or_app. right. apply in_or_app. right. assumption.
Qed.

Lemma fetch_and_check_raises :
  (forall e, requests_get target = inl e ->
             outcome (fetch_and_check sdk requests_get target) = Raise e)
  /\ (forall r, requests_get target = inr r -> error_status r ->
                outcome (fetch_and_check sdk requests_get target)
                = Raise (HTTPError (status_code r) (text r)))
  /\ (forall r details, requests_get target = inr r -> json r = inl details ->
        exists e, outcome (fetch_and_check sdk requests_get target) = Raise e).
Proof.
  unfold fetch_and_check, raise_for_status, response_json, error_status.
  repeat split.
  - intros e ->. reflexivity.
  - intros r -> [Hlo Hhi].
    apply Z.leb_le in Hlo. apply Z.ltb_lt in Hhi.
    cbn. rewrite Hlo, Hhi. reflexivity.
  - intros r details -> Hjson. cbn.
    destruct ((400 <=? status_code r)%Z && (status_code r <? 600)%Z);
      cbn; [eauto|].
    rewrite Hjson. cbn. eauto.
Qed.

End Run.

(** C7.  A run of the validator sends exactly one GET, to the URL it was
    given.  When that request raises (a timeout, a connection error, or
    anything else), when the response carries an HTTP error status, or when
    its body does not decode as JSON, the validator prints an error message
    and exits with status 1. *)
Theorem one_request_and_exit_on_transport_failure (sdk : SDK)
    (requests_get : string -> Exception + Response) (target : string) :
  gets (trace (validate_agent_card_from_url sdk requests_get target))
  = [target]
  /\ (forall e,
        requests_get target = inl e ->
        outcome (validate_agent_card_from_url sdk requests_get target) = Exit 1
        /\ error_reported
             (trace (validate_agent_card_from_url sdk requests_get target)))
  /\ (forall r,
        requests_get target = inr r -> error_status r ->
        outcome (validate_agent_card_from_url sdk requests_get target) = Exit 1
        /\ error_reported
             (trace (validate_agent_card_from_url sdk requests_get target)))
  /\ (forall r details,
        requests_get target = inr r -> json r = inl details ->
        outcome (validate_agent_card_from_url sdk requests_get target) = Exit 1
        /\ error_reported
             (trace (validate_agent_card_from_url sdk requests_get target))).
Proof.
  destruct (fetch_and_check_raises sdk requests_get target)
    as (Hexc & Hstatus & Hjson).
  split; [apply validate_gets|]. repeat split.
  - apply (validate_on_raise _ _ _ e); auto.
  - apply (validate_on_raise _ _ _ e); auto.
  - eapply validate_on_raise; eauto.
  - eapply validate_on_raise; eauto.
  - destruct (Hjson r details) as [e He]; auto.
    apply (validate_on_raise _ _ _ e); auto.
  - destruct (Hjson r details) as [e He]; auto.
    apply (validate_on_raise _ _ _ e); auto.
Qed.

Lemma one_request_and_exit_on_transport_failure_witness :
  outcome (validate_agent_card_from_url Fixture.sdk Fixture.requests_get
             "http://agent.example/nothing-here") = Exit 1
  /\ outcome (validate_agent_card_from_url Fixture.sdk
                (fun _ => inr {| status_code := 503;
                                 text := "Service Unavailable";
                                 json := inl "Expecting value" |})
                "http://agent.example/card.json") = Exit 1.
Proof.
  split.
  - apply (proj1 (proj2 (one_request_and_exit_on_transport_failure
                           Fixture.sdk Fixture.requests_get
                           "http://agent.example/nothing-here"))
                 (ConnectionError "Connection refused")).
    reflexivity.
  - destruct (one_request_and_exit_on_transport_failure Fixture.sdk
                (fun _ => inr {| status_code := 503;
                                 text := "Service Unavailable";
                                 json := inl "Expecting value" |})
                "http://agent.example/card.json") as (_ & _ & Hstatus & Hjson).
    destruct (Hstatus _ eq_refl) as [Hexit _].
    + unfold error_status. cbn. lia.
    + destruct (Hjson _ "Expecting value" eq_refl eq_refl) as [Hexit' _].
      exact Hexit'.
Defined.

(** C10.  [main] exits with status 1, without any request, when the
    command line is not the program name and one argument, and when that
    argument starts with neither 'http://' nor 'https://'; a URL that is
    requested is that one argument and passes the prefix check. *)
Theorem main_checks_before_fetching (sdk : SDK)
    (requests_get : string -> Exception + Response) (argv : list string) :
  (List.length argv <> 2%nat ->
   outcome (main sdk requests_get argv) = Exit 1
   /\ gets (trace (main sdk requests_get argv)) = [])
  /\ (forall prog u,
        argv = [prog; u] ->
        PyStr.startswith u "http://" = false ->
        PyStr.startswith u "https://" = false ->
        outcome (main sdk requests_get argv) = Exit 1
        /\ gets (trace (main sdk requests_get argv)) = [])
  /\ (forall u,
        In u (gets (trace (main sdk requests_get argv))) ->
        exists prog,
          argv = [prog; u]
          /\ (PyStr.startswith u "http://" = true
              \/ PyStr.startswith u "https://" = true)).
Proof.
  unfold main. split; [|split].
  - intros Hlen. apply Nat.eqb_neq in Hlen. rewrite Hlen. cbn. auto.
  - intros prog u -> Hhttp Hhttps. cbn [List.length Nat.eqb negb when nth].
    rewrite Hhttp, Hhttps. cbn. auto.
  - intros u.
    destruct (List.length argv =? 2)%nat eqn:Hlen; [|cbn; tauto].
    apply Nat.eqb_eq in Hlen.
    destruct argv as [|prog [|u0 [|? ?]]]; try discriminate.
    cbn [negb when nth].
    destruct (PyStr.startswith u0 "http://") eqn:Hhttp;
      [|destruct (PyStr.startswith u0 "https://") eqn:Hhttps];
      cbn [orb negb when]; try (cbn; tauto).
    all: rewrite trace_bind; cbn [ret trace fst outcome snd app];
      rewrite trace_bind; cbn [ret trace fst outcome snd app];
      rewrite validate_gets; intros [<-|[]]; eauto.
Qed.

Lemma main_checks_before_fetching_witness :
  outcome (main Fixture.sdk Fixture.requests_get ["validate_a2a_card.py"])
  = Exit 1
  /\ outcome (main Fixture.sdk Fixture.requests_get
                ["validate_a2a_card.py"; "ftp://agent.example/card.json"])
     = Exit 1
  /\ exists prog,
       ["validate_a2a_card.py"; "http://agent.example/card.json"]
       = [prog; "http://agent.example/card.json"].
Proof.
  split; [|split].
  - apply (proj1 (main_checks_before_fetching Fixture.sdk Fixture.requests_get
                    ["validate_a2a_card.py"])).
    cbn. lia.
  - apply (proj1 (proj2 (main_checks_before_fetching Fixture.sdk
                           Fixture.requests_get
                           ["validate_a2a_card.py";
                            "ftp://agent.example/card.json"]))
                 "validate_a2a_card.py" "ftp://agent.example/card.json");
      reflexivity.
  - destruct (proj2 (proj2 (main_checks_before_fetching Fixture.sdk
                              Fixture.requests_get
                              ["validate_a2a_card.py";
                               "http://agent.example/card.json"]))
                    "http://agent.example/card.json") as (prog & Hargv & _).
    + left. reflexivity.
    + exists prog. exact Hargv.
Defined.

(** *** The two reports *)

Lemma enumerate_In {A} (l : list A) : forall start i x,
  In (i, x) (enumerate start l) -> In x l.
Proof.
  induction l as [|y l IH]; intros start i x; cbn; [tauto|].
  intros [H|H]; [injection H as _ ->; auto | eauto].
Qed.

Lemma print_error_spec idx error :
  outcome (print_error idx error) = Ok tt
  /\ incl (error_lines idx error) (trace (print_error idx error)).
Proof.
  unfold print_error, error_lines.
  destruct (input error), (ctx error); cbn; (split; [reflexivity|]);
    intros e [<-|[<-|[]]]; cbn; tauto.
Qed.

(** The handler of [ValidationError] reports every error with its number,
    then the document, and exits with status 1. *)
Lemma validation_failed_spec errors data :
  outcome (validation_failed errors data) = Exit 1
  /\ (forall idx error,
        In (idx, error) (enumerate 1 errors) ->
        incl (error_lines idx error) (trace (validation_failed errors data)))
  /\ In (EPrint "{}" [VDump data]) (trace (validation_failed errors data)).
Proof.
  unfold validation_failed.
  assert (Hloop : outcome (for_each (enumerate 1 errors)
                             (fun '(idx, error) => print_error idx error))
                  = Ok tt).
  { apply for_each_ok. intros [i e] _. apply print_error_spec. }
  repeat split.
  - rewrite !outcome_bind. cbn [print tell outcome snd]. rewrite Hloop.
    reflexivity.
  - intros idx error Hin e He.
    do 3 (apply in_bind_r with (a := tt); [reflexivity|]).
    apply in_bind_l.
    apply in_for_each with (x := (idx, error)).
    + intros [i e'] _. apply print_error_spec.
    + assumption.
    + apply print_error_spec. assumption.
  - do 3 (apply in_bind_r with (a := tt); [reflexivity|]).
    apply in_bind_r with (a := tt); [assumption|].
    do 3 (apply in_bind_r with (a := tt); [reflexivity|]).
    apply in_bind_l. left. reflexivity.
Qed.

(** The report of a validated card returns when every extension has a
    description, and then ends with the full model. *)
Lemma print_validated_spec card :
  extensions_described card ->
  outcome (print_validated card) = Ok tt
  /\ In (EPrint "✅ VALIDATION PASSED\n" []) (trace (print_validated card))
  /\ In (EPrint "  Name: {}" [VStr (name card)]) (trace (print_validated card))
  /\ In (EPrint "  Version: {}" [VStr (version card)])
        (trace (print_validated card))
  /\ In (EPrint "{}" [VCard card]) (trace (print_validated card)).
Proof.
  unfold extensions_described, print_validated. intros Hdesc.
  assert (Hcaps :
    outcome
      match capabilities card with
      | Some c =>
          print "\nCapabilities:" [] ;;
          print "  Streaming: {}" [VOptBool (streaming c)] ;;
          print "  Push Notifications: {}" [VOptBool (push_notifications c)] ;;
          print "  State Transition History: {}"
                [VOptBool (state_transition_history c)] ;;
          when (nonempty (opt_list (extensions c)))
            (print "\nExtensions ({}):" [VLen (opt_list (extensions c))] ;;
             for_each (opt_list (extensions c)) (fun ext =>
               print "  - URI: {}" [VStr (uri ext)] ;;
               d <- slice_opt 60 (ext_description ext) ;;
               print "    Description: {}..." [VStr d] ;;
               print "    Required: {}" [VOptBool (required ext)]))
      | None => ret tt
      end = Ok tt).
  { destruct (capabilities card) as [c|]; [|reflexivity].
    returns.
    match goal with H : In ?x _ |- _ =>
      rewrite Forall_forall in Hdesc; specialize (Hdesc x H) end.
    destruct (ext_description _); [reflexivity | contradiction]. }
  split; [|split; [|split; [|split]]].
  - returns.
  - apply in_bind_l. left. reflexivity.
  - do 3 (apply in_bind_r with (a := tt); [reflexivity|]).
    apply in_bind_l. left. reflexivity.
  - do 7 (apply in_bind_r with (a := tt); [reflexivity|]).
    apply in_bind_l. left. reflexivity.
  - do 9 (apply in_bind_r with (a := tt); [reflexivity|]).
    apply in_bind_r with (a := tt); [returns|].
    apply in_bind_r with (a := tt); [assumption|].
    do 4 (apply in_bind_r with (a := tt); [returns|]).
    do 3 (apply in_bind_r with (a := tt); [reflexivity|]).
    left. reflexivity.
Qed.

Lemma trace_try_except_ValidationError {A} (m : M A) h :
  trace (try_except_ValidationError m h)
  = trace m ++ match outcome m with
               | Raise (ValidationError errors) => trace (h errors)
               | _ => []
               end.
Proof.
  destruct m as [evs [a|e|c]]; cbn; rewrite ?app_nil_r; try reflexivity.
  destruct e; cbn; rewrite ?app_nil_r; try reflexivity.
  destruct (h errors). reflexivity.
Qed.

Section Checked.

Variable sdk : SDK.
Variable requests_get : string -> Exception + Response.
Variable target : string.
Variable r : Response.
Variable data : JSON.

(** The document is handed to the SDK once, as it is. *)
Lemma check_card_validated : validated (trace (check_card sdk data)) = [data].
Proof.
  unfold check_card.
  rewrite trace_try_except_ValidationError, validated_app, trace_bind.
  cbn [tell trace fst outcome snd app validated].
  rewrite no_validated.
  2:{ change (all_events not_validate
                (agent_card <- lift (model_validate sdk data) ;;
                 print_validated agent_card)).
      events. apply print_validated_all. intros; exact I. }
  destruct (outcome _) as [a|e|c]; try reflexivity.
  destruct e; try reflexivity.
  rewrite no_validated; [reflexivity|].
  apply validation_failed_all. intros; exact I.
Qed.

Lemma check_card_failed errors :
  model_validate sdk data = inl (ValidationError errors) ->
  check_card sdk data
  = (EModelValidate data :: trace (validation_failed errors data),
     outcome (validation_failed errors data)).
Proof.
  intros H. unfold check_card. rewrite H. cbn -[validation_failed].
  destruct (validation_failed errors data). reflexivity.
Qed.

Lemma check_card_passed card :
  model_validate sdk data = inr card ->
  outcome (print_validated card) = Ok tt ->
  check_card sdk data
  = (EModelValidate data :: trace (print_validated card), Ok tt).
Proof.
  intros H Hok. unfold check_card. rewrite H. cbn -[print_validated].
  destruct (print_validated card) as [evs o]. cbn in *. subst o. reflexivity.
Qed.

Hypothesis fetched : requests_get target = inr r.
Hypothesis status_ok : ~ error_status r.
Hypothesis decoded : json r = inr data.

Lemma fetch_and_check_ok :
  fetch_and_check sdk requests_get target
  = ([EHttpGet target;
      EPrint "✓ Successfully fetched agent card" [];
      EPrint "  Response status: {}" [VInt (status_code r)];
      EPrint "  Content size: {} bytes\n"
             [VInt (Z.of_nat (String.length (text r)))]]
       ++ trace (check_card sdk data),
     outcome (check_card sdk data)).
Proof.
  unfold fetch_and_check, raise_for_status, response_json.
  rewrite fetched. cbn -[check_card].
  destruct ((400 <=? status_code r)%Z && (status_code r <? 600)%Z) eqn:Hs.
  - exfalso. apply status_ok. apply andb_prop in Hs. destruct Hs as [Hlo Hhi].
    apply Z.leb_le in Hlo. apply Z.ltb_lt in Hhi. split; assumption.
  - rewrite decoded. cbn -[check_card].
    destruct (check_card sdk data). reflexivity.
Qed.

(** The validator hands the fetched document to the SDK unchanged. *)
Lemma validate_validated :
  validated (trace (validate_agent_card_from_url sdk requests_get target))
  = [data].
Proof.
  rewrite validate_stages. cbn [trace fst].
  rewrite validated_app, trace_try_except, validated_app, fetch_and_check_ok.
  cbn [trace fst outcome snd opening validated app].
  rewrite check_card_validated.
  destruct (outcome _); try reflexivity.
  rewrite no_validated; [reflexivity|].
  apply transport_failed_all. intros; exact I.
Qed.

(** A document the SDK rejects: every error and the document are
    printed, and the exit status is 1. *)
Lemma validation_failure_reported errors :
  model_validate sdk data = inl (ValidationError errors) ->
  outcome (validate_agent_card_from_url sdk requests_get target) = Exit 1
  /\ (forall idx error,
        In (idx, error) (enumerate 1 errors) ->
        incl (error_lines idx error)
             (trace (validate_agent_card_from_url sdk requests_get target)))
  /\ In (EPrint "{}" [VDump data])
        (trace (validate_agent_card_from_url sdk requests_get target)).
Proof.
  intros Hrej.
  destruct (validation_failed_spec errors data) as (Hexit & Herrs & Hraw).
  rewrite validate_stages. cbn [trace outcome fst snd].
  rewrite outcome_try_except, trace_try_except, fetch_and_check_ok.
  rewrite (check_card_failed errors Hrej). cbn [trace outcome fst snd].
  rewrite Hexit, app_nil_r.
  repeat split.
  - intros idx error Hin e He.
    apply in_or_app. right. apply in_or_app. right. right.
    apply (Herrs idx error Hin). assumption.
  - apply in_or_app. right. apply in_or_app. right. right. assumption.
Qed.

(** A document the SDK accepts, all of whose extensions are described:
    the fields and the full model are printed and the run ends without
    an exit. *)
Lemma validation_success_reported card :
  model_validate sdk data = inr card ->
  extensions_described card ->
  outcome (validate_agent_card_from_url sdk requests_get target) = Ok tt
  /\ In (EPrint "  Name: {}" [VStr (name card)])
        (trace (validate_agent_card_from_url sdk requests_get target))
  /\ In (EPrint "  Version: {}" [VStr (version card)])
        (trace (validate_agent_card_from_url sdk requests_get target))
  /\ In (EPrint "{}" [VCard card])
        (trace (validate_agent_card_from_url sdk requests_get target)).
Proof.
  intros Hacc Hdesc.
  destruct (print_validated_spec card Hdesc) as (Hok & _ & Hname & Hver & Hfull).
  rewrite validate_stages. cbn [trace outcome fst snd].
  rewrite outcome_try_except, trace_try_except, fetch_and_check_ok.
  rewrite (check_card_passed card Hacc Hok). cbn [trace outcome fst snd].
  rewrite app_nil_r.
  repeat split; apply in_or_app; right; apply in_or_app; right; right;
    assumption.
Qed.

End Checked.

Example rejected_card_is_reported :
  Validator.exit_status
    (validate_agent_card_from_url Fixture.sdk Fixture.requests_get
       "http://agent.example/card.json") = 1%Z
  /\ In (EPrint "\n{}. Field: {}" [VInt 1; VStr "version"])
        (trace (validate_agent_card_from_url Fixture.sdk Fixture.requests_get
                  "http://agent.example/card.json")).
Proof. split; [reflexivity|]. cbn. tauto. Qed.

(** C6.  The test server serves a card with one extension that has no
    description.  The SDK accepts the card and the validator prints
    VALIDATION PASSED; the report then fails on the missing description,
    the handler of unexpected errors prints its message, and the exit
    status is 1. *)
Theorem validator_exits_1_after_validation_passed :
  (exists card,
     model_validate Fixture.sdk Fixture.card_with_extension = inr card)
  /\ In (EPrint "✅ VALIDATION PASSED\n" [])
        (trace (validate_agent_card_from_url Fixture.sdk Fixture.requests_get
                  "http://agent.example/ext-card.json"))
  /\ In (EPrint "   Type: {}" [VStr "TypeError"])
        (trace (validate_agent_card_from_url Fixture.sdk Fixture.requests_get
                  "http://agent.example/ext-card.json"))
  /\ outcome (validate_agent_card_from_url Fixture.sdk Fixture.requests_get
                "http://agent.example/ext-card.json") = Exit 1.
Proof.
  split; [eexists; reflexivity|].
  split; [cbn; tauto|]. split; [cbn; tauto | reflexivity].
Qed.

End ValidatorFacts.

(** ** The version fix-up *)

Module VersionFacts.
Import Client TraceSpec ConnectSpec ValidatorSpec.

(** C8.  When the agent-card data [connect] has fetched is a dict without
    a 'version' key, what [connect] hands to the SDK's validation is that
    dict with 'version': '1.0.0' added, so a card that is valid but for its
    version is accepted and the client is created for it.  The validator
    hands the document it has fetched to the SDK unchanged. *)
Theorem version_added_by_client_only (sdk : SDK)
    (http_get : nat -> string -> Exception + Response)
    (requests_get : string -> Exception + Response)
    (self : SimpleA2AClient) (items : list (string * JSON))
    (target : string) (r : Response) (data : JSON) :
  (snd (fetch_agent_card http_get self) = Some (JDict items) ->
   lookup "version" items = None ->
   validated (trace (connect sdk http_get self))
   = [JDict (items ++ [("version", JStr "1.0.0")])]
   /\ forall card,
        model_validate sdk (JDict (items ++ [("version", JStr "1.0.0")]))
        = inr card ->
        In (EFactoryCreate card) (trace (connect sdk http_get self)))
  /\ (requests_get target = inr r ->
      ~ error_status r ->
      json r = inr data ->
      validated (trace (Validator.validate_agent_card_from_url
                          sdk requests_get target))
      = [data]).
Proof.
  split.
  - apply ConnectFacts.connect_adds_version.
  - intros Hget Hstatus Hjson.
    apply (ValidatorFacts.validate_validated sdk requests_get target r data);
      assumption.
Qed.

Lemma version_added_by_client_only_witness :
  validated (trace (connect Fixture.sdk Fixture.http_get Fixture.self))
  = [JDict (Fixture.card_without_version ++ [("version", JStr "1.0.0")])]
  /\ validated (trace (Validator.validate_agent_card_from_url Fixture.sdk
                         Fixture.requests_get "http://agent.example/card.json"))
     = [JDict Fixture.card_without_version].
Proof.
  destruct (version_added_by_client_only Fixture.sdk Fixture.http_get
              Fixture.requests_get Fixture.self Fixture.card_without_version
              "http://agent.example/card.json"
              (Fixture.ok "{...}" (inr (JDict Fixture.card_without_version)))
              (JDict Fixture.card_without_version)) as [Hclient Hvalidator].
  split.
  - apply Hclient; reflexivity.
  - apply Hvalidator; [reflexivity | | reflexivity].
    unfold error_status. cbn. lia.
Defined.

End VersionFacts.

(** ** More on the candidate URLs *)

Module UrlMore.

Lemma prefix_occurs p : forall s,
  String.prefix p s = true <-> exists rest, s = (p ++ rest)%string.
Proof.
  induction p as [|c p IH]; intros s.
  - split; [intros _; exists s; reflexivity | destruct s; reflexivity].
  - destruct s as [|c' s]; cbn.
    + split; [discriminate | intros (rest & H); discriminate].
    + destruct (Ascii.ascii_dec c c') as [->|Hne].
      * rewrite IH. split; intros (rest & H); exists rest.
        -- now rewrite H.
        -- now injection H.
      * split; [discriminate|].
        intros (rest & H). injection H as H _. congruence.
Qed.

(** The substring test holds exactly when the pattern occurs. *)
Lemma contains_occurs sub : forall s,
  PyStr.contains sub s = true
  <-> exists pre post, s = (pre ++ sub ++ post)%string.
Proof.
  induction s as [|c s IH]; cbn [PyStr.contains].
  - rewrite prefix_occurs. split.
    + intros (rest & H). exists EmptyString, rest. exact H.
    + intros (pre & post & H). destruct pre; [|discriminate].
      exists post. exact H.
  - rewrite orb_true_iff, prefix_occurs, IH. split.
    + intros [(rest & H) | (pre & post & H)].
      * exists EmptyString, rest. exact H.
      * exists (String c pre), post. cbn. now rewrite H.
    + intros (pre & post & H). destruct pre as [|c' pre]; cbn in H.
      * left. exists post. exact H.
      * right. injection H as _ H. exists pre, post. exact H.
Qed.

(** X20.  The list of candidates is the single URL
    [agent_url + '/.well-known/agent-card.json'] exactly when neither
    '/a2a' nor 'localhost:3003' occurs in [agent_url]. *)
Theorem one_candidate_exactly_without_patterns (agent_url : string) :
  _get_agent_card_urls agent_url
  = [(agent_url ++ "/.well-known/agent-card.json")%string]
  <-> (~ exists pre post, agent_url = (pre ++ "/a2a" ++ post)%string)
      /\ (~ exists pre post,
            agent_url = (pre ++ "localhost:3003" ++ post)%string).
Proof.
  rewrite <- !(contains_occurs _ agent_url).
  unfold _get_agent_card_urls, well_known_suffix.
  destruct (PyStr.contains "/a2a" agent_url);
    destruct (PyStr.contains "localhost:3003" agent_url); cbn [app].
  - split; [discriminate | intros [H _]; exfalso; auto].
  - split; [discriminate | intros [H _]; exfalso; auto].
  - split; [discriminate | intros [_ H]; exfalso; auto].
  - split; [intros _; split; discriminate | reflexivity].
Qed.

Lemma one_candidate_exactly_without_patterns_witness :
  ~ exists pre post, "https://agent.example" = (pre ++ "/a2a" ++ post)%string.
Proof.
  apply (proj1 (one_candidate_exactly_without_patterns
                  "https://agent.example")).
  reflexivity.
Defined.

End UrlMore.

(** ** More on the validator *)

Module ValidatorMore.
Import Validator TraceSpec ValidatorSpec TraceFacts ValidatorFacts MoreSpec.

Lemma bind_then {A B} (m : M A) (k : A -> M B) a :
  outcome m = Ok a -> outcome (bind m k) = outcome (k a).
Proof. intros H. rewrite outcome_bind, H. reflexivity. Qed.

Lemma bind_raise {A B} (m : M A) (k : A -> M B) e :
  outcome m = Raise e -> outcome (bind m k) = Raise e.
Proof. intros H. rewrite outcome_bind, H. reflexivity. Qed.

Lemma all_bind_raise {A B} P (m : M A) (k : A -> M B) e :
  all_events P m -> outcome m = Raise e -> all_events P (bind m k).
Proof.
  unfold all_events. intros Hm He. rewrite trace_bind, He, app_nil_r.
  assumption.
Qed.

(** A loop ends with the exception of the first body that raises. *)
Lemma for_each_raise {A} (l : list A) body e :
  (forall x, In x l -> outcome (body x) = Ok tt \/ outcome (body x) = Raise e) ->
  (exists x, In x l /\ outcome (body x) = Raise e) ->
  outcome (for_each l body) = Raise e.
Proof.
  induction l as [|y l IH]; intros Hall (x & Hin & Hx); [contradiction|].
  cbn [for_each].
  destruct (Hall y (or_introl eq_refl)) as [Hy|Hy].
  - rewrite (bind_then _ _ tt Hy). apply IH.
    + intros z Hz. apply Hall. right. assumption.
    + destruct Hin as [->|Hin]; [congruence|]. eauto.
  - apply bind_raise. assumption.
Qed.

Lemma undescribed_exists (l : list AgentExtension) :
  ~ Forall (fun ext => ext_description ext <> None) l ->
  exists ext, In ext l /\ ext_description ext = None.
Proof.
  induction l as [|ext l IH]; intros Hnot.
  - exfalso. apply Hnot. constructor.
  - destruct (ext_description ext) as [d|] eqn:Hd.
    + destruct IH as (ext' & Hin & Hnone).
      * intros Hall. apply Hnot. constructor; [congruence | assumption].
      * exists ext'. split; [right; assumption | assumption].
    + exists ext. split; [left; reflexivity | assumption].
Qed.

Lemma ne_print_model card fmt args :
  (fmt <> "{}" \/ args <> [VCard card]) ->
  EPrint fmt args <> EPrint "{}" [VCard card].
Proof. intros [H|H] Heq; injection Heq as ? ?; contradiction. Qed.

Ltac events_ne card :=
  repeat match goal with
    | |- all_events _ (bind _ _) => apply all_bind; [|intros]
    | |- all_events _ (when _ _) => apply all_when
    | |- all_events _ (for_each _ _) => apply all_for_each; intros
    | |- all_events _ (print _ _) =>
        apply all_print; apply (ne_print_model card);
        first [left; discriminate | right; unfold rule; discriminate]
    | |- all_events _ (ret _) => apply all_ret
    | |- all_events _ (slice_opt _ _) => apply all_slice_opt
    | |- all_events _ (match ?x with _ => _ end) => destruct x
    end.

(** The report of a card with an extension that has no description stops
    at that extension. *)
Lemma print_validated_raises card :
  ~ extensions_described card ->
  outcome (print_validated card) = Raise none_not_subscriptable
  /\ ~ In (EPrint "{}" [VCard card]) (trace (print_validated card)).
Proof.
  unfold extensions_described. intros Hnd.
  destruct (capabilities card) as [c|] eqn:Hc; [|exfalso; apply Hnd; exact I].
  destruct (undescribed_exists _ Hnd) as (ext & Hin & Hnone).
  assert (Hne : nonempty (opt_list (extensions c)) = true).
  { destruct (opt_list (extensions c)); [contradiction | reflexivity]. }
  assert (Hloop : outcome
            (for_each (opt_list (extensions c)) (fun ext =>
               print "  - URI: {}" [VStr (uri ext)] ;;
               d <- slice_opt 60 (ext_description ext) ;;
               print "    Description: {}..." [VStr d] ;;
               print "    Required: {}" [VOptBool (required ext)]))
          = Raise none_not_subscriptable).
  { apply for_each_raise.
    - intros x _. destruct (ext_description x); [left | right]; reflexivity.
    - exists ext. split; [assumption|]. rewrite Hnone. reflexivity. }
  unfold print_validated. rewrite Hc.
  split.
  - do 9 (rewrite (bind_then _ _ tt) by reflexivity).
    rewrite (bind_then _ _ tt) by returns.
    apply bind_raise.
    do 4 (rewrite (bind_then _ _ tt) by reflexivity).
    rewrite Hne. cbn [when].
    rewrite (bind_then _ _ tt) by reflexivity. exact Hloop.
  - intros Hin'.
    match type of Hin' with
    | In _ (trace ?m) =>
        assert (Hall : all_events (fun e => e <> EPrint "{}" [VCard card]) m)
    end.
    { do 10 (apply all_bind; [events_ne card | intros _]).
      apply all_bind_raise with (e := none_not_subscriptable);
        [events_ne card|].
      do 4 (rewrite (bind_then _ _ tt) by reflexivity).
      rewrite Hne. cbn [when].
      rewrite (bind_then _ _ tt) by reflexivity. exact Hloop. }
    unfold all_events in Hall. rewrite Forall_forall in Hall.
    exact (Hall _ Hin' eq_refl).
Qed.
Lemma extensions_described_dec card :
  extensions_described card \/ ~ extensions_described card.
Proof.
  unfold extensions_described.
  destruct (capabilities card) as [c|]; [|left; exact I].
  induction (opt_list (extensions c)) as [|ext l IH]; [left; constructor|].
  destruct (ext_description ext) as [d|] eqn:Hd.
  - destruct IH as [IH|IH].
    + left. constructor; [congruence | assumption].
    + right. intros Hall. apply IH. inversion Hall. assumption.
  - right. intros Hall. inversion Hall. congruence.
Qed.

Section Cases.

Variable sdk : SDK.
Variable requests_get : string -> Exception + Response.
Variable target : string.

(** A request that fails, an error status and a body that does not decode
    leave the body of the [try] right after the request. *)
Lemma fetch_and_check_failed :
  (exists e, requests_get target = inl e)
  \/ (exists r, requests_get target = inr r
                /\ (error_status r \/ exists details, json r = inl details)) ->
  exists e,
    fetch_and_check sdk requests_get target = ([EHttpGet target], Raise e).
Proof.
  unfold fetch_and_check, raise_for_status, response_json, error_status.
  intros [(e & ->) | (r & -> & Hbad)]; cbn; [eauto|].
  destruct ((400 <=? status_code r)%Z && (status_code r <? 600)%Z) eqn:Hs;
    cbn; [eauto|].
  destruct Hbad as [[Hlo Hhi] | (details & Hjson)].
  - apply Z.leb_le in Hlo. apply Z.ltb_lt in Hhi.
    rewrite Hlo, Hhi in Hs. discriminate.
  - rewrite Hjson. cbn. eauto.
Qed.

Lemma check_card_raised data e :
  model_validate sdk data = inl e -> not_validation_error e ->
  check_card sdk data = ([EModelValidate data], Raise e).
Proof.
  intros H Hnv. unfold check_card. rewrite H. cbn.
  destruct e; try reflexivity. contradiction.
Qed.

Lemma check_card_crashed data card :
  model_validate sdk data = inr card -> ~ extensions_described card ->
  check_card sdk data
  = (EModelValidate data :: trace (print_validated card),
     Raise none_not_subscriptable).
Proof.
  intros H Hnd. destruct (print_validated_raises card Hnd) as [Hraise _].
  unfold check_card. rewrite H. cbn -[print_validated].
  destruct (print_validated card) as [evs o]. cbn in *. subst o. reflexivity.
Qed.

Lemma error_status_dec r : error_status r \/ ~ error_status r.
Proof. unfold error_status. lia. Qed.

(** The run of the validator, by what the server and the SDK answer. *)
Lemma validate_cases :
  (exists e,
     fetch_and_check sdk requests_get target = ([EHttpGet target], Raise e)
     /\ ((exists e', requests_get target = inl e')
         \/ exists r, requests_get target = inr r
                      /\ (error_status r \/ exists details, json r = inl details)))
  \/ (exists r data,
        requests_get target = inr r /\ ~ error_status r /\ json r = inr data
        /\ ((exists errors,
               model_validate sdk data = inl (ValidationError errors))
            \/ (exists e,
                  model_validate sdk data = inl e /\ not_validation_error e)
            \/ (exists card,
                  model_validate sdk data = inr card
                  /\ extensions_described card)
            \/ (exists card,
                  model_validate sdk data = inr card
                  /\ ~ extensions_described card))).
Proof.
  destruct (requests_get target) as [e|r] eqn:Hget.
  - left. destruct fetch_and_check_failed as [e' He']; [left; eauto|]. eauto.
  - destruct (error_status_dec r) as [Hs|Hs].
    + left. destruct fetch_and_check_failed as [e' He'].
      * right. exists r. auto.
      * exists e'. split; [assumption|]. right. exists r. auto.
    + destruct (json r) as [details|data] eqn:Hjson.
      * left. destruct fetch_and_check_failed as [e' He'].
        -- right. exists r. split; [assumption|]. right. eauto.
        -- exists e'. split; [assumption|]. right. exists r.
           split; [reflexivity|]. right. eauto.
      * right. exists r, data. repeat split; try assumption.
        destruct (model_validate sdk data) as [e|card] eqn:Hmv.
        -- destruct e; try (right; left; eexists; split; [reflexivity | exact I]).
           left. eauto.
        -- destruct (extensions_described_dec card); eauto 6.
Qed.

End Cases.

Section Handled.

Variable sdk : SDK.
Variable requests_get : string -> Exception + Response.
Variable target : string.

(** A run that does not get as far as a decoded document. *)
Lemma validate_failed e :
  fetch_and_check sdk requests_get target = ([EHttpGet target], Raise e) ->
  validate_agent_card_from_url sdk requests_get target
  = (opening target ++ [EHttpGet target] ++ trace (transport_failed target e),
     Exit 1).
Proof.
  intros Hf. rewrite validate_stages, Hf.
  destruct (transport_failed_spec target e) as [Hexit _].
  unfold try_except. destruct (transport_failed target e) as [evs o].
  cbn in *. subst o. reflexivity.
Qed.

Variable r : Response.
Variable data : JSON.
Hypothesis fetched : requests_get target = inr r.
Hypothesis status_ok : ~ error_status r.
Hypothesis decoded : json r = inr data.

(** A run that gets as far as the validation. *)
Lemma validate_checked :
  validate_agent_card_from_url sdk requests_get target
  = (opening target ++ fetched_lines target r
       ++ trace (try_except (check_card sdk data) (transport_failed target)),
     outcome (try_except (check_card sdk data) (transport_failed target))).
Proof.
  rewrite validate_stages.
  rewrite (fetch_and_check_ok sdk requests_get target r data fetched status_ok
             decoded).
  destruct (check_card sdk data) as [evs [[]|e|c]]; cbn; try reflexivity.
  destruct (transport_failed target e) as [evs' o]. reflexivity.
Qed.

End Handled.

(** X1.  Whatever the server and the SDK do, the validator ends without
    an exception of its own: it returns, or it exits with status 1. *)
Theorem validator_returns_or_exits_1 (sdk : SDK)
    (requests_get : string -> Exception + Response) (target : string) :
  outcome (validate_agent_card_from_url sdk requests_get target) = Ok tt
  \/ outcome (validate_agent_card_from_url sdk requests_get target) = Exit 1.
Proof.
  destruct (validate_cases sdk requests_get target)
    as [(e & Hf & _) | (r & data & Hget & Hs & Hj & Hmv)].
  - right. rewrite (validate_failed _ _ _ e Hf). reflexivity.
  - rewrite (validate_checked sdk requests_get target r data Hget Hs Hj).
    cbn [outcome snd]. rewrite outcome_try_except.
    destruct Hmv as [(errors & Hmv) | [(e & Hmv & Hnv)
                    | [(card & Hmv & Hd) | (card & Hmv & Hd)]]].
    + right. rewrite (check_card_failed sdk data errors Hmv).
      cbn [outcome snd].
      rewrite (proj1 (validation_failed_spec errors data)). reflexivity.
    + right. rewrite (check_card_raised sdk data e Hmv Hnv).
      cbn [outcome snd]. apply transport_failed_spec.
    + left. destruct (print_validated_spec card Hd) as [Hok _].
      rewrite (check_card_passed sdk data card Hmv Hok). reflexivity.
    + right. rewrite (check_card_crashed sdk data card Hmv Hd).
      cbn [outcome snd]. apply transport_failed_spec.
Qed.

(** X2.  The validator returns (exit status 0) only when the request was
    answered without an error status, the body decoded, the SDK accepted
    the document and every extension of the card has a description; the
    full model has then been printed. *)
Theorem validator_returns_only_for_accepted_card (sdk : SDK)
    (requests_get : string -> Exception + Response) (target : string) :
  outcome (validate_agent_card_from_url sdk requests_get target) = Ok tt ->
  exists r data card,
    requests_get target = inr r /\ ~ error_status r /\ json r = inr data
    /\ model_validate sdk data = inr card
    /\ extensions_described card
    /\ In (EPrint "{}" [VCard card])
          (trace (validate_agent_card_from_url sdk requests_get target)).
Proof.
  intros Hok.
  destruct (validate_cases sdk requests_get target)
    as [(e & Hf & _) | (r & data & Hget & Hs & Hj & Hmv)].
  - rewrite (validate_failed _ _ _ e Hf) in Hok. discriminate.
  - rewrite (validate_checked sdk requests_get target r data Hget Hs Hj) in Hok.
    cbn [outcome snd] in Hok. rewrite outcome_try_except in Hok.
    destruct Hmv as [(errors & Hmv) | [(e & Hmv & Hnv)
                    | [(card & Hmv & Hd) | (card & Hmv & Hd)]]].
    + rewrite (check_card_failed sdk data errors Hmv) in Hok.
      cbn [outcome snd] in Hok.
      rewrite (proj1 (validation_failed_spec errors data)) in Hok.
      discriminate.
    + rewrite (check_card_raised sdk data e Hmv Hnv) in Hok.
      cbn [outcome snd] in Hok.
      rewrite (proj1 (transport_failed_spec target e)) in Hok. discriminate.
    + exists r, data, card. repeat split; try assumption.
      apply (validation_success_reported sdk requests_get target r data
               Hget Hs Hj card Hmv Hd).
    + rewrite (check_card_crashed sdk data card Hmv Hd) in Hok.
      cbn [outcome snd] in Hok.
      rewrite (proj1 (transport_failed_spec target none_not_subscriptable))
        in Hok.
      discriminate.
Qed.

Lemma validator_returns_only_for_accepted_card_witness :
  exists card,
    model_validate Fixture.sdk MoreFixture.card_plain = inr card
    /\ extensions_described card.
Proof.
  destruct (validator_returns_only_for_accepted_card Fixture.sdk
              MoreFixture.requests_get "https://agent.example/card.json")
    as (r & data & card & Hget & _ & Hj & Hmv & Hd & _).
  - reflexivity.
  - injection Hget as <-. injection Hj as <-. exists card. auto.
Defined.

(** X3.  For every card the SDK accepts that has an extension without a
    description, the validator prints VALIDATION PASSED, stops inside the
    list of extensions, reports an unexpected TypeError and exits with
    status 1; the full model is not printed. *)
Theorem undescribed_extension_exits_1 (sdk : SDK)
    (requests_get : string -> Exception + Response) (target : string)
    (r : Response) (data : JSON) (card : AgentCard) :
  requests_get target = inr r -> ~ error_status r -> json r = inr data ->
  model_validate sdk data = inr card ->
  ~ extensions_described card ->
  outcome (validate_agent_card_from_url sdk requests_get target) = Exit 1
  /\ In (EPrint "✅ VALIDATION PASSED\n" [])
        (trace (validate_agent_card_from_url sdk requests_get target))
  /\ In (EPrint "   Type: {}" [VStr "TypeError"])
        (trace (validate_agent_card_from_url sdk requests_get target))
  /\ ~ In (EPrint "{}" [VCard card])
          (trace (validate_agent_card_from_url sdk requests_get target)).
Proof.
  intros Hget Hs Hj Hmv Hd.
  destruct (print_validated_raises card Hd) as [_ Hnomodel].
  rewrite (validate_checked sdk requests_get target r data Hget Hs Hj).
  rewrite (check_card_crashed sdk data card Hmv Hd).
  cbn [trace outcome fst snd try_except none_not_subscriptable
       transport_failed].
  split; [reflexivity|]. split; [|split].
  - apply in_or_app. right. apply in_or_app. right.
    right. apply in_or_app. left.
    unfold print_validated. apply in_bind_l. left. reflexivity.
  - apply in_or_app. right. apply in_or_app. right.
    right. apply in_or_app. right. right. left. reflexivity.
  - intros Hin.
    apply in_app_or in Hin. destruct Hin as [Hin|Hin].
    { cbn in Hin. intuition discriminate. }
    apply in_app_or in Hin. destruct Hin as [Hin|Hin].
    { cbn in Hin. intuition discriminate. }
    destruct Hin as [Hin|Hin]; [discriminate|].
    apply in_app_or in Hin. destruct Hin as [Hin|Hin]; [contradiction|].
    cbn in Hin. intuition discriminate.
Qed.

Lemma undescribed_extension_exits_1_witness :
  outcome (validate_agent_card_from_url Fixture.sdk Fixture.requests_get
             "http://agent.example/ext-card.json") = Exit 1.
Proof.
  destruct (Fixture.validate_name_version Fixture.card_with_extension)
    as [e|card] eqn:Hmv; [discriminate|].
  apply (undescribed_extension_exits_1 Fixture.sdk Fixture.requests_get
           "http://agent.example/ext-card.json"
           (Fixture.ok "{...}" (inr Fixture.card_with_extension))
           Fixture.card_with_extension card).
  - reflexivity.
  - unfold error_status. cbn. lia.
  - reflexivity.
  - exact Hmv.
  - vm_compute in Hmv. injection Hmv as <-.
    unfold extensions_described. cbn. intros Hall.
    inversion Hall as [|? ? Hhead _]. apply Hhead. reflexivity.
Defined.



(** X5.  A response with an HTTP error status is reported with its status
    code and its text, whatever its body, and the SDK is not called; the
    same holds, with the handler of the exception, when the request raises
    or the body does not decode. *)
Theorem failed_fetch_never_validates (sdk : SDK)
    (requests_get : string -> Exception + Response) (target : string) :
  (forall r,
     requests_get target = inr r -> error_status r ->
     validate_agent_card_from_url sdk requests_get target
     = (opening target
          ++ [EHttpGet target;
              EPrint "❌ ERROR: HTTP error occurred" [];
              EPrint "   Status code: {}" [VInt (status_code r)];
              EPrint "   Response: {}" [VStr (text r)]],
        Exit 1))
  /\ ((exists e, requests_get target = inl e)
      \/ (exists r, requests_get target = inr r
                    /\ (error_status r \/ exists details, json r = inl details)) ->
      validated (trace (validate_agent_card_from_url sdk requests_get target))
      = []).
Proof.
  split.
  - intros r Hget Hs.
    destruct (fetch_and_check_raises sdk requests_get target)
      as (_ & Hstatus & _).
    specialize (Hstatus r Hget Hs).
    destruct (fetch_and_check_failed sdk requests_get target) as [e He].
    { right. exists r. auto. }
    rewrite He in Hstatus. cbn in Hstatus. injection Hstatus as ->.
    rewrite (validate_failed _ _ _ _ He). reflexivity.
  - intros Hbad.
    destruct (fetch_and_check_failed sdk requests_get target Hbad) as [e He].
    rewrite (validate_failed _ _ _ _ He). cbn [trace fst].
    rewrite !validated_app. cbn.
    apply no_validated. apply transport_failed_all. intros; exact I.
Qed.

Lemma failed_fetch_never_validates_witness :
  validated (trace (validate_agent_card_from_url Fixture.sdk
                      Fixture.requests_get "http://agent.example/nothing-here"))
  = [].
Proof.
  apply (proj2 (failed_fetch_never_validates Fixture.sdk Fixture.requests_get
                  "http://agent.example/nothing-here")).
  left. eexists. reflexivity.
Defined.

Lemma enumerate_nth {A} (l : list A) : forall start k x,
  nth_error l k = Some x -> In ((start + Z.of_nat k)%Z, x) (enumerate start l).
Proof.
  induction l as [|y l IH]; intros start k x Hk; [destruct k; discriminate|].
  destruct k as [|k]; cbn in *.
  - injection Hk as ->. left. f_equal. lia.
  - right. replace (start + Z.pos (Pos.of_succ_nat k))%Z
      with ((start + 1) + Z.of_nat k)%Z by lia.
    apply IH. assumption.
Qed.

(** X6.  The errors of a rejected document are reported under their
    position in the SDK's list, counted from 1. *)
Theorem errors_numbered_from_1 (sdk : SDK)
    (requests_get : string -> Exception + Response) (target : string)
    (r : Response) (data : JSON) (errors : list ErrorDetails)
    (k : nat) (error : ErrorDetails) :
  requests_get target = inr r -> ~ error_status r -> json r = inr data ->
  model_validate sdk data = inl (ValidationError errors) ->
  nth_error errors k = Some error ->
  incl (error_lines (Z.of_nat k + 1) error)
       (trace (validate_agent_card_from_url sdk requests_get target)).
Proof.
  intros Hget Hs Hj Hmv Hk.
  destruct (validation_failure_reported sdk requests_get target r data
              Hget Hs Hj errors Hmv) as (_ & Herrs & _).
  apply Herrs.
  replace (Z.of_nat k + 1)%Z with (1 + Z.of_nat k)%Z by lia.
  apply enumerate_nth. assumption.
Qed.

Lemma errors_numbered_from_1_witness :
  In (EPrint "\n{}. Field: {}" [VInt 1; VStr "version"])
     (trace (validate_agent_card_from_url Fixture.sdk Fixture.requests_get
               "http://agent.example/card.json")).
Proof.
  apply (errors_numbered_from_1 Fixture.sdk Fixture.requests_get
           "http://agent.example/card.json"
           (Fixture.ok "{...}" (inr (JDict Fixture.card_without_version)))
           (JDict Fixture.card_without_version)
           [{| loc := [inl "version"]; msg := "Field required";
               input := Some (JDict Fixture.card_without_version);
               ctx := None |}]
           0%nat
           {| loc := [inl "version"]; msg := "Field required";
              input := Some (JDict Fixture.card_without_version);
              ctx := None |}).
  - reflexivity.
  - unfold error_status. cbn. lia.
  - reflexivity.
  - reflexivity.
  - reflexivity.
  - left. reflexivity.
Defined.

(** X7.  With a program name and one argument that starts with 'http://'
    or 'https://', [main] is the validator run on that argument; and [main]
    returns only through such a run of the validator that returns. *)
Theorem main_is_the_validator_on_its_argument (sdk : SDK)
    (requests_get : string -> Exception + Response) (argv : list string) :
  (forall prog u,
     argv = [prog; u] ->
     PyStr.startswith u "http://" = true
     \/ PyStr.startswith u "https://" = true ->
     main sdk requests_get argv
     = validate_agent_card_from_url sdk requests_get u)
  /\ (outcome (main sdk requests_get argv) = Ok tt ->
      exists prog u,
        argv = [prog; u]
        /\ (PyStr.startswith u "http://" = true
            \/ PyStr.startswith u "https://" = true)
        /\ outcome (validate_agent_card_from_url sdk requests_get u) = Ok tt).
Proof.
  assert (Hrun : forall prog u,
            PyStr.startswith u "http://" = true
            \/ PyStr.startswith u "https://" = true ->
            main sdk requests_get [prog; u]
            = validate_agent_card_from_url sdk requests_get u).
  { intros prog u Hprefix. unfold main. cbn [List.length Nat.eqb negb when nth].
    assert (Hor : PyStr.startswith u "http://"
                  || PyStr.startswith u "https://" = true).
    { apply orb_true_iff. assumption. }
    rewrite Hor. cbn [negb when].
    destruct (validate_agent_card_from_url sdk requests_get u) as [evs o].
    reflexivity. }
  split.
  - intros prog u ->. apply Hrun.
  - intros Hok.
    destruct (List.length argv =? 2)%nat eqn:Hlen.
    + apply Nat.eqb_eq in Hlen.
      destruct argv as [|prog [|u [|? ?]]]; try discriminate.
      destruct (PyStr.startswith u "http://"
                || PyStr.startswith u "https://") eqn:Hor.
      * apply orb_true_iff in Hor. exists prog, u.
        rewrite (Hrun prog u Hor) in Hok. auto.
      * unfold main in Hok. cbn [List.length Nat.eqb negb when nth] in Hok.
        rewrite Hor in Hok. cbn in Hok. discriminate.
    + unfold main in Hok. rewrite Hlen in Hok. cbn in Hok. discriminate.
Qed.

Lemma main_is_the_validator_on_its_argument_witness :
  main Fixture.sdk MoreFixture.requests_get
       ["validate_a2a_card.py"; "https://agent.example/card.json"]
  = validate_agent_card_from_url Fixture.sdk MoreFixture.requests_get
      "https://agent.example/card.json"
  /\ exists prog u,
       ["validate_a2a_card.py"; "https://agent.example/card.json"] = [prog; u].
Proof.
  destruct (main_is_the_validator_on_its_argument Fixture.sdk
              MoreFixture.requests_get
              ["validate_a2a_card.py"; "https://agent.example/card.json"])
    as [Hrun Honly].
  split.
  - apply (Hrun "validate_a2a_card.py" "https://agent.example/card.json").
    + reflexivity.
    + right. reflexivity.
  - destruct Honly as (prog & u & Hargv & _); [reflexivity|]. eauto.
Defined.

End ValidatorMore.

(** ** More on connecting *)

Module ConnectMore.
Import Client TraceSpec ConnectSpec TraceFacts ConnectFacts MoreSpec.

Lemma closes_app evs evs' : closes (evs ++ evs') = (closes evs + closes evs')%nat.
Proof.
  induction evs as [|e evs IH]; [reflexivity|].
  destruct e; cbn; rewrite ?IH; reflexivity.
Qed.

Lemma lookup_dict_set key v items :
  lookup key (dict_set key v items) = Some v.
Proof.
  induction items as [|[k w] items IH]; cbn.
  - rewrite String.eqb_refl. reflexivity.
  - destruct (k =? key)%string eqn:Hk; cbn.
    + rewrite String.eqb_refl. reflexivity.
    + rewrite Hk. exact IH.
Qed.

Lemma lookup_dict_set_other key v items k :
  k <> key -> lookup k (dict_set key v items) = lookup k items.
Proof.
  intros Hne. induction items as [|[k' w] items IH]; cbn.
  - destruct (key =? k)%string eqn:Hk; [|reflexivity].
    apply String.eqb_eq in Hk. congruence.
  - destruct (k' =? key)%string eqn:Hk'; cbn.
    + apply String.eqb_eq in Hk'. subst k'.
      destruct (key =? k)%string eqn:Hk; [|reflexivity].
      apply String.eqb_eq in Hk. congruence.
    + destruct (k' =? k)%string; [reflexivity | exact IH].
Qed.

Lemma existsb_lookup key items :
  existsb (fun kv : string * JSON => (fst kv =? key)%string) items
  = match lookup key items with Some _ => true | None => false end.
Proof.
  induction items as [|[k v] items IH]; [reflexivity|].
  cbn. destruct (k =? key)%string; [reflexivity | exact IH].
Qed.

(** X8.  On a dict the fix-up never fails; afterwards the dict has a
    'version', the one it had or else '1.0.0', and every other key has the
    value it had. *)
Theorem add_missing_version_on_dict (items : list (string * JSON)) :
  exists items',
    add_missing_version (JDict items) = ([], Ok (JDict items'))
    /\ lookup "version" items'
       = Some match lookup "version" items with
              | Some v => v
              | None => JStr "1.0.0"
              end
    /\ forall k, k <> "version" -> lookup k items' = lookup k items.
Proof.
  unfold add_missing_version, py_in, py_setitem.
  rewrite existsb_lookup.
  destruct (lookup "version" items) as [v|] eqn:Hv; cbn.
  - exists items. auto.
  - exists (dict_set "version" (JStr "1.0.0") items).
    split; [reflexivity|]. split.
    + apply lookup_dict_set.
    + intros k Hk. apply lookup_dict_set_other. assumption.
Qed.

(** The documents on which the fix-up raises, and those it lets pass. *)
Lemma add_missing_version_fails d :
  fixup_fails d -> exists e, add_missing_version d = ([], Raise e).
Proof.
  unfold add_missing_version, py_in, py_setitem.
  destruct d as [|b|n|x|s|items|items]; cbn; intros Hf; eauto.
  - rewrite Hf. cbn. eauto.
  - assert (Hno : existsb (fun v : JSON => match v with
                                           | JStr s => (s =? "version")%string
                                           | _ => false
                                           end) items = false).
    { apply not_true_is_false. intros Hex. apply Hf.
      apply existsb_exists in Hex. destruct Hex as (v & Hin & Hv).
      destruct v; try discriminate.
      apply String.eqb_eq in Hv. subst. assumption. }
    rewrite Hno. cbn. eauto.
  - contradiction.
Qed.

(** The second stage of [connect], by what the SDK answers. *)
Lemma create_client_cases (sdk : SDK) (self : SimpleA2AClient) d :
  (exists e, add_missing_version d = ([], Raise e)
             /\ create_client sdk self d = ([], Raise e))
  \/ exists d',
       add_missing_version d = ([], Ok d')
       /\ ((exists e,
              model_validate sdk d' = inl e
              /\ create_client sdk self d = ([EModelValidate d'], Raise e))
           \/ (exists card e,
                 model_validate sdk d' = inr card
                 /\ factory_create sdk card = inl e
                 /\ trace (create_client sdk self d)
                    = [EModelValidate d';
                       EPrint "✅ Connected to: {}" [VStr (name card)];
                       EPrint "   Protocol: v{}" [VOptStr (protocol_version card)];
                       EPrint "   Transport: {}" [VOptStr (preferred_transport card)];
                       EFactoryCreate card]
                 /\ outcome (create_client sdk self d) = Raise e)
           \/ (exists card c,
                 model_validate sdk d' = inr card
                 /\ factory_create sdk card = inr c
                 /\ trace (create_client sdk self d)
                    = [EModelValidate d';
                       EPrint "✅ Connected to: {}" [VStr (name card)];
                       EPrint "   Protocol: v{}" [VOptStr (protocol_version card)];
                       EPrint "   Transport: {}" [VOptStr (preferred_transport card)];
                       EFactoryCreate card;
                       EPrint "✅ Client initialized successfully\n" []]
                 /\ outcome (create_client sdk self d)
                    = Ok (set_client self (Some c), true))).
Proof.
  assert (Hfix : (exists e, add_missing_version d = ([], Raise e))
                 \/ exists d', add_missing_version d = ([], Ok d')).
  { unfold add_missing_version, py_in, py_setitem.
    destruct d; cbn; eauto;
      match goal with |- context [negb ?b] => destruct b end; cbn; eauto. }
  unfold create_client.
  destruct Hfix as [(e & He) | (d' & Hd')].
  - left. exists e. rewrite He. auto.
  - right. exists d'. rewrite Hd'. split; [reflexivity|]. cbn.
    destruct (model_validate sdk d') as [e|card] eqn:Hmv; cbn; [left; eauto|].
    destruct (factory_create sdk card) as [e|c] eqn:Hfc; cbn.
    + right. left. exists card, e. repeat split; assumption.
    + right. right. exists card, c. repeat split; assumption.
Qed.

Section Connect.

Variable sdk : SDK.
Variable http_get : nat -> string -> Exception + Response.
Variable self : SimpleA2AClient.

(** The events of the search for the card are prints and requests. *)
Lemma try_card_urls_events (P : Event -> Prop) urls :
  (forall fmt args, P (EPrint fmt args)) -> (forall u, P (EHttpGet u)) ->
  forall i, Forall P (fst (try_card_urls http_get i urls)).
Proof.
  intros Hprint Hget.
  induction urls as [|u urls IH]; intros i; [constructor|].
  cbn [try_card_urls]. specialize (IH (S i)).
  destruct (try_card_urls http_get (S i) urls) as [evs r].
  assert (Hcont : Forall P
             (fst ([EPrint "   Trying: {}" [VStr u]; EHttpGet u] ++ evs, r))).
  { cbn in *. repeat constructor; auto. }
  destruct (http_get i u) as [e|response]; [exact Hcont|].
  destruct (status_code response =? 200)%Z; [|exact Hcont].
  destruct (json response) as [e|data]; [exact Hcont|].
  repeat constructor; auto.
Qed.

Lemma fetch_agent_card_events (P : Event -> Prop) :
  (forall fmt args, P (EPrint fmt args)) -> (forall u, P (EHttpGet u)) ->
  Forall P (fst (fetch_agent_card http_get self)).
Proof.
  intros Hprint Hget. unfold fetch_agent_card.
  pose proof (try_card_urls_events P (_get_agent_card_urls (agent_url self))
                Hprint Hget 0) as Hev.
  destruct (try_card_urls http_get 0 _) as [evs d]. cbn in Hev.
  destruct (negb (data_truthy d)); cbn; [|assumption].
  apply Forall_app. split; [assumption|]. repeat constructor. apply Hprint.
Qed.

Lemma no_closes evs :
  Forall (fun e => e <> EHttpClientClose) evs -> closes evs = 0%nat.
Proof.
  induction 1 as [|e evs He _ IH]; [reflexivity|].
  destruct e; cbn; try assumption. congruence.
Qed.

Lemma fetch_agent_card_quiet :
  closes (fst (fetch_agent_card http_get self)) = 0%nat
  /\ validated (fst (fetch_agent_card http_get self)) = [].
Proof.
  split.
  - apply no_closes. apply fetch_agent_card_events; intros; discriminate.
  - apply no_validated. apply fetch_agent_card_events; intros; exact I.
Qed.

(** [connect] after a card has been fetched. *)
Lemma connect_after_fetch d :
  snd (fetch_agent_card http_get self) = Some d ->
  connect sdk http_get self
  = ([EPrint "🔌 Connecting to: {}" [VStr (agent_url self)]; EHttpClientNew 60]
       ++ fst (fetch_agent_card http_get self)
       ++ trace (try_except
                   (create_client sdk
                      (set_http_client self (Some (AsyncClient 60))) d)
                   (connection_failed
                      (set_http_client self (Some (AsyncClient 60))))),
     outcome (try_except
                (create_client sdk
                   (set_http_client self (Some (AsyncClient 60))) d)
                (connection_failed
                   (set_http_client self (Some (AsyncClient 60)))))).
Proof.
  intros Hd. rewrite connect_stages. cbn zeta.
  destruct (fetch_agent_card http_get self) as [evs d0]. cbn in Hd. subst d0.
  destruct (try_except _ _) as [evs' o]. reflexivity.
Qed.

Lemma connect_without_card :
  snd (fetch_agent_card http_get self) = None ->
  connect sdk http_get self
  = ([EPrint "🔌 Connecting to: {}" [VStr (agent_url self)]; EHttpClientNew 60]
       ++ fst (fetch_agent_card http_get self),
     Ok (set_http_client self (Some (AsyncClient 60)), false)).
Proof.
  intros Hd. rewrite connect_stages. cbn zeta.
  destruct (fetch_agent_card http_get self) as [evs d0]. cbn in Hd. subst d0.
  reflexivity.
Qed.

(** The second stage with its handler: what it leaves in the trace and
    what [connect] returns. *)
Lemma attempt_cases d :
  let self1 := set_http_client self (Some (AsyncClient 60)) in
  let attempt := try_except (create_client sdk self1 d)
                            (connection_failed self1) in
  (exists e,
     outcome (create_client sdk self1 d) = Raise e
     /\ trace attempt
        = trace (create_client sdk self1 d)
            ++ [EPrint "❌ Connection failed: {}" [VExc e]; EHttpClientClose]
     /\ outcome attempt = Ok (self1, false))
  \/ (exists d' card c,
        add_missing_version d = ([], Ok d')
        /\ model_validate sdk d' = inr card
        /\ factory_create sdk card = inr c
        /\ attempt
           = ([EModelValidate d';
               EPrint "✅ Connected to: {}" [VStr (name card)];
               EPrint "   Protocol: v{}" [VOptStr (protocol_version card)];
               EPrint "   Transport: {}" [VOptStr (preferred_transport card)];
               EFactoryCreate card;
               EPrint "✅ Client initialized successfully\n" []],
              Ok (set_client self1 (Some c), true))).
Proof.
  cbn zeta.
  assert (Hraise : forall e,
            outcome (create_client sdk
                       (set_http_client self (Some (AsyncClient 60))) d)
            = Raise e ->
            exists e',
              outcome (create_client sdk
                         (set_http_client self (Some (AsyncClient 60))) d)
              = Raise e'
              /\ trace (try_except
                          (create_client sdk
                             (set_http_client self (Some (AsyncClient 60))) d)
                          (connection_failed
                             (set_http_client self (Some (AsyncClient 60)))))
                 = trace (create_client sdk
                            (set_http_client self (Some (AsyncClient 60))) d)
                     ++ [EPrint "❌ Connection failed: {}" [VExc e'];
                         EHttpClientClose]
              /\ outcome (try_except
                            (create_client sdk
                               (set_http_client self (Some (AsyncClient 60))) d)
                            (connection_failed
                               (set_http_client self (Some (AsyncClient 60)))))
                 = Ok (set_http_client self (Some (AsyncClient 60)), false)).
  { intros e He. exists e. split; [assumption|].
    rewrite trace_try_except, outcome_try_except, He. split; reflexivity. }
  destruct (create_client_cases sdk (set_http_client self (Some (AsyncClient 60))) d)
    as [(e & _ & Hc) | (d' & Hfix & [(e & _ & Hc)
       | [(card & e & _ & _ & _ & Ho) | (card & c & Hmv & Hfc & Ht & Ho)]])].
  - left. apply (Hraise e). rewrite Hc. reflexivity.
  - left. apply (Hraise e). rewrite Hc. reflexivity.
  - left. apply (Hraise e). assumption.
  - right. exists d', card, c. repeat split; try assumption.
    destruct (create_client sdk _ d) as [evs o]. cbn in Ht, Ho. subst.
    reflexivity.
Qed.

End Connect.

(** The second stage itself closes nothing. *)
Lemma create_client_never_closes (sdk : SDK) (self : SimpleA2AClient) d :
  closes (trace (create_client sdk self d)) = 0%nat.
Proof.
  apply no_closes.
  change (all_events (fun e => e <> EHttpClientClose)
            (create_client sdk self d)).
  unfold create_client, add_missing_version, py_in, py_setitem.
  destruct d;
    repeat match goal with
      | |- all_events _ (bind _ _) => apply all_bind; [|intros]
      | |- all_events _ (print _ _) => apply all_print; discriminate
      | |- all_events _ (tell _) =>
          apply all_tell; repeat constructor; discriminate
      | |- all_events _ (lift _) => apply all_lift
      | |- all_events _ (ret _) => apply all_ret
      | |- all_events _ (raise _) => apply all_raise
      | |- all_events _ (match ?x with _ => _ end) => destruct x
      end.
Qed.

(** X9.  [connect] catches every exception: it returns a flag, with the
    HTTP client it created stored in the object, the URL and the current
    task untouched, and the SDK client untouched unless the flag is
    [True]. *)
Theorem connect_returns_a_flag (sdk : SDK)
    (http_get : nat -> string -> Exception + Response)
    (self : SimpleA2AClient) :
  exists self' b,
    outcome (connect sdk http_get self) = Ok (self', b)
    /\ agent_url self' = agent_url self
    /\ current_task self' = current_task self
    /\ http_client self' = Some (AsyncClient 60)
    /\ (b = false -> client self' = client self).
Proof.
  destruct (snd (fetch_agent_card http_get self)) as [d|] eqn:Hfetch.
  - rewrite (connect_after_fetch sdk http_get self d Hfetch). cbn [outcome snd].
    destruct (attempt_cases sdk self d)
      as [(e & _ & _ & Ho) | (d' & card & c & _ & _ & _ & Ha)].
    + rewrite Ho. do 2 eexists. split; [reflexivity|]. repeat split.
    + rewrite Ha. do 2 eexists. split; [reflexivity|]. repeat split.
      discriminate.
  - rewrite (connect_without_card sdk http_get self Hfetch).
    do 2 eexists. split; [reflexivity|]. repeat split.
Qed.

(** X10.  [connect] returns [True] exactly when a card was fetched, the
    fix-up did not fail, the SDK accepted the fixed document and the
    factory created a client for the card; that client is then the one
    stored, and nothing is closed. *)
Theorem connect_succeeds_exactly_when_accepted (sdk : SDK)
    (http_get : nat -> string -> Exception + Response)
    (self self' : SimpleA2AClient) :
  outcome (connect sdk http_get self) = Ok (self', true)
  <-> exists d d' card c,
        snd (fetch_agent_card http_get self) = Some d
        /\ add_missing_version d = ([], Ok d')
        /\ model_validate sdk d' = inr card
        /\ factory_create sdk card = inr c
        /\ self' = set_client (set_http_client self (Some (AsyncClient 60)))
                              (Some c).
Proof.
  split.
  - intros Hok.
    destruct (snd (fetch_agent_card http_get self)) as [d|] eqn:Hfetch.
    + rewrite (connect_after_fetch sdk http_get self d Hfetch) in Hok.
      cbn [outcome snd] in Hok.
      destruct (attempt_cases sdk self d)
        as [(e & _ & _ & Ho) | (d' & card & c & Hfix & Hmv & Hfc & Ha)].
      * rewrite Ho in Hok. discriminate.
      * rewrite Ha in Hok. cbn in Hok. injection Hok as <-.
        exists d, d', card, c. auto.
    + rewrite (connect_without_card sdk http_get self Hfetch) in Hok.
      discriminate.
  - intros (d & d' & card & c & Hfetch & Hfix & Hmv & Hfc & ->).
    rewrite (connect_after_fetch sdk http_get self d Hfetch). cbn [outcome snd].
    destruct (attempt_cases sdk self d)
      as [(e & He & _) | (d0 & card0 & c0 & Hfix0 & Hmv0 & Hfc0 & Ha)].
    + exfalso. unfold create_client in He. rewrite Hfix in He. cbn in He.
      rewrite Hmv in He. cbn in He. rewrite Hfc in He. discriminate.
    + rewrite Hfix in Hfix0. injection Hfix0 as <-.
      rewrite Hmv in Hmv0. injection Hmv0 as <-.
      rewrite Hfc in Hfc0. injection Hfc0 as <-.
      rewrite Ha. reflexivity.
Qed.

Lemma connect_succeeds_exactly_when_accepted_witness :
  exists self',
    outcome (connect Fixture.sdk MoreFixture.http_get Fixture.self)
    = Ok (self', true)
    /\ http_client self' = Some (AsyncClient 60).
Proof.
  destruct (Fixture.validate_name_version MoreFixture.card_plain)
    as [e|card] eqn:Hmv; [discriminate|].
  eexists. split.
  - apply (proj2 (connect_succeeds_exactly_when_accepted Fixture.sdk
                    MoreFixture.http_get Fixture.self _)).
    exists MoreFixture.card_plain, MoreFixture.card_plain, card,
           (ClientOf card).
    split; [reflexivity|]. split; [reflexivity|].
    split; [exact Hmv|]. split; reflexivity.
  - reflexivity.
Defined.

(** X11.  [connect] closes the HTTP client it created only when a fetched
    card is followed by an exception: once, before it returns [False].
    When no card could be fetched the client is created and left open, as
    it is when [connect] returns [True]. *)
Theorem http_client_closed_only_after_exception (sdk : SDK)
    (http_get : nat -> string -> Exception + Response)
    (self : SimpleA2AClient) :
  In (EHttpClientNew 60) (trace (connect sdk http_get self))
  /\ (snd (fetch_agent_card http_get self) = None ->
      closes (trace (connect sdk http_get self)) = 0%nat)
  /\ (forall self',
        outcome (connect sdk http_get self) = Ok (self', true) ->
        closes (trace (connect sdk http_get self)) = 0%nat)
  /\ (forall d self',
        snd (fetch_agent_card http_get self) = Some d ->
        outcome (connect sdk http_get self) = Ok (self', false) ->
        closes (trace (connect sdk http_get self)) = 1%nat).
Proof.
  destruct (fetch_agent_card_quiet http_get self) as [Hquiet _].
  pose proof (create_client_never_closes sdk
                (set_http_client self (Some (AsyncClient 60)))) as Hcreate.
  split; [|split; [|split]].
  - destruct (snd (fetch_agent_card http_get self)) as [d|] eqn:Hfetch.
    + rewrite (connect_after_fetch sdk http_get self d Hfetch).
      right. left. reflexivity.
    + rewrite (connect_without_card sdk http_get self Hfetch).
      right. left. reflexivity.
  - intros Hfetch. rewrite (connect_without_card sdk http_get self Hfetch).
    cbn [trace fst]. rewrite closes_app, Hquiet. reflexivity.
  - intros self' Hok.
    destruct (snd (fetch_agent_card http_get self)) as [d|] eqn:Hfetch.
    + rewrite (connect_after_fetch sdk http_get self d Hfetch) in Hok |- *.
      cbn [trace outcome fst snd] in Hok |- *.
      destruct (attempt_cases sdk self d)
        as [(e & _ & _ & Ho) | (d' & card & c & _ & _ & _ & Ha)].
      * rewrite Ho in Hok. discriminate.
      * rewrite Ha. rewrite !closes_app, Hquiet. reflexivity.
    + rewrite (connect_without_card sdk http_get self Hfetch) in Hok.
      discriminate.
  - intros d self' Hfetch Hfalse.
    rewrite (connect_after_fetch sdk http_get self d Hfetch) in Hfalse |- *.
    cbn [trace outcome fst snd] in Hfalse |- *.
    destruct (attempt_cases sdk self d)
      as [(e & _ & Ht & _) | (d' & card & c & _ & _ & _ & Ha)].
    + rewrite Ht, !closes_app, Hquiet, Hcreate. reflexivity.
    + rewrite Ha in Hfalse. discriminate.
Qed.

Lemma http_client_closed_only_after_exception_witness :
  closes (trace (connect Fixture.sdk MoreFixture.http_get_404 Fixture.self))
  = 0%nat
  /\ closes (trace (connect Fixture.sdk MoreFixture.http_get_number
                      Fixture.self)) = 1%nat.
Proof.
  split.
  - apply (proj1 (proj2 (http_client_closed_only_after_exception Fixture.sdk
                           MoreFixture.http_get_404 Fixture.self))).
    reflexivity.
  - apply (proj2 (proj2 (proj2 (http_client_closed_only_after_exception
                                  Fixture.sdk MoreFixture.http_get_number
                                  Fixture.self)))
                 (JInt 42)
                 (set_http_client Fixture.self (Some (AsyncClient 60))));
      reflexivity.
Defined.

(** X12.  A fetched dict that has a 'version' key reaches the SDK's
    validation as it was fetched. *)
Theorem version_kept_when_present (sdk : SDK)
    (http_get : nat -> string -> Exception + Response)
    (self : SimpleA2AClient) (items : list (string * JSON)) (v : JSON) :
  snd (fetch_agent_card http_get self) = Some (JDict items) ->
  lookup "version" items = Some v ->
  validated (trace (connect sdk http_get self)) = [JDict items].
Proof.
  intros Hfetch Hv.
  destruct (fetch_agent_card_quiet http_get self) as [_ Hquiet].
  rewrite (connect_after_fetch sdk http_get self _ Hfetch). cbn [trace fst].
  rewrite !validated_app, Hquiet. cbn [validated app].
  unfold create_client, add_missing_version, py_in, py_setitem.
  rewrite existsb_lookup, Hv. cbn.
  destruct (model_validate sdk (JDict items)) as [e|card]; cbn; [reflexivity|].
  destruct (factory_create sdk card) as [e|c]; reflexivity.
Qed.

Lemma version_kept_when_present_witness :
  validated (trace (connect Fixture.sdk MoreFixture.http_get Fixture.self))
  = [MoreFixture.card_plain].
Proof.
  apply (version_kept_when_present Fixture.sdk MoreFixture.http_get
           Fixture.self
           [("name", JStr "Room agent"); ("version", JStr "2.1.0")]
           (JStr "2.1.0"));
    reflexivity.
Defined.

(** X13.  A fetched document that is a number or a boolean, a list without
    the string 'version' or a string without that substring never reaches
    the SDK: the fix-up raises, [connect] reports the failure, closes the
    HTTP client and returns [False]. *)
Theorem document_that_is_no_dict_fails (sdk : SDK)
    (http_get : nat -> string -> Exception + Response)
    (self : SimpleA2AClient) (d : JSON) :
  snd (fetch_agent_card http_get self) = Some d ->
  fixup_fails d ->
  validated (trace (connect sdk http_get self)) = []
  /\ closes (trace (connect sdk http_get self)) = 1%nat
  /\ (exists e, In (EPrint "❌ Connection failed: {}" [VExc e])
                   (trace (connect sdk http_get self)))
  /\ outcome (connect sdk http_get self)
     = Ok (set_http_client self (Some (AsyncClient 60)), false).
Proof.
  intros Hfetch Hfails.
  destruct (fetch_agent_card_quiet http_get self) as [Hclose Hquiet].
  destruct (add_missing_version_fails d Hfails) as [e He].
  rewrite (connect_after_fetch sdk http_get self d Hfetch).
  assert (Hc : create_client sdk
                 (set_http_client self (Some (AsyncClient 60))) d
               = ([], Raise e)).
  { unfold create_client. rewrite He. reflexivity. }
  rewrite Hc.
  change (try_except ([], Raise e)
            (connection_failed (set_http_client self (Some (AsyncClient 60)))))
    with ([EPrint "❌ Connection failed: {}" [VExc e]; EHttpClientClose],
          @Ok (SimpleA2AClient * bool)
            (set_http_client self (Some (AsyncClient 60)), false)).
  cbn [trace outcome fst snd].
  rewrite !validated_app, !closes_app, Hquiet, Hclose.
  repeat split.
  exists e. apply in_or_app. right. apply in_or_app. right. left. reflexivity.
Qed.

Lemma document_that_is_no_dict_fails_witness :
  validated (trace (connect Fixture.sdk MoreFixture.http_get_number
                      Fixture.self)) = []
  /\ outcome (connect Fixture.sdk MoreFixture.http_get_number Fixture.self)
     = Ok (set_http_client Fixture.self (Some (AsyncClient 60)), false).
Proof.
  destruct (document_that_is_no_dict_fails Fixture.sdk
              MoreFixture.http_get_number Fixture.self (JInt 42))
    as (Hv & _ & _ & Ho).
  - reflexivity.
  - exact I.
  - split; assumption.
Defined.

End ConnectMore.

(** ** More on the polling loop *)

Module PollMore.
Import Client PollSpec PollFacts MoreSpec.
Local Open Scope Z_scope.

Lemma quiet_no_queries evs : Forall quiet evs -> queries evs = [].
Proof.
  induction 1 as [|e evs He _ IH]; [reflexivity|].
  destruct e; cbn in *; tauto.
Qed.

Lemma queries_app evs evs' : queries (evs ++ evs') = queries evs ++ queries evs'.
Proof.
  induction evs as [|e evs IH]; [reflexivity|].
  destruct e; cbn; rewrite ?IH; reflexivity.
Qed.

(** What [receive] records. *)
Lemma receive_records msg_id msg st evs st' :
  receive msg_id msg st = (evs, st') ->
  In msg_id (messages_received st')
  /\ incl (messages_received st) (messages_received st')
  /\ (msg_id = msg_id_of msg ->
      agent_message_recorded st -> agent_message_recorded st').
Proof.
  unfold receive. destruct (mem msg_id (messages_received st)) eqn:Hm; cbn;
    intros H; injection H as <- <-; cbn.
  - apply mem_In in Hm.
    split; [assumption|]. split; [apply incl_refl|]. trivial.
  - split; [|split].
    + apply in_or_app. right. left. reflexivity.
    + apply incl_appl, incl_refl.
    + intros -> Hinv m. unfold agent_message_recorded in *. cbn.
      destruct (Role_eqb (role_of msg) agent) eqn:Hrole.
      * intros Hm'. injection Hm' as <-. split.
        -- destruct (role_of msg); [reflexivity | discriminate].
        -- apply in_or_app. right. left. reflexivity.
      * intros Hm'. destruct (Hinv m Hm') as [Hr Hin].
        split; [assumption | apply in_or_app; left; assumption].
Qed.

Lemma receive_history_records items : forall st evs st',
  receive_history items st = (evs, st') ->
  (forall m, In (HMessage m) items -> In (message_id m) (messages_received st'))
  /\ incl (messages_received st) (messages_received st')
  /\ (agent_message_recorded st -> agent_message_recorded st').
Proof.
  induction items as [|item items IH]; intros st evs st'; cbn.
  - intros H; injection H as <- <-.
    split; [intros m []|]. split; [apply incl_refl | trivial].
  - destruct item as [m|].
    + destruct (receive (message_id m) (WithId m) st) as [evs1 st1] eqn:H1.
      destruct (receive_history items st1) as [evs2 st2] eqn:H2.
      intros H; injection H as <- <-.
      apply receive_records in H1. apply IH in H2.
      destruct H1 as (Hin1 & Hinc1 & Hinv1).
      destruct H2 as (Hin2 & Hinc2 & Hinv2).
      split; [|split].
      * intros m' [Heq|Hm'].
        -- injection Heq as <-. apply Hinc2. assumption.
        -- apply Hin2. assumption.
      * eapply incl_tran; eassumption.
      * intros Hinv. apply Hinv2, Hinv1; [reflexivity | assumption].
    + intros H. apply IH in H. destruct H as (Hin & Hinc & Hinv).
      split; [|split; assumption].
      intros m [Heq|Hm]; [discriminate | apply Hin; assumption].
Qed.

Lemma note_state_keeps task st evs st' :
  note_state task st = (evs, st') ->
  messages_received st' = messages_received st
  /\ last_agent_message st' = last_agent_message st.
Proof.
  unfold note_state.
  destruct (state_ne _ _); intros H; injection H as <- <-; split; reflexivity.
Qed.

Lemma check_stop_keeps task st evs c st' :
  check_stop task st = (evs, (c, st')) ->
  messages_received st' = messages_received st
  /\ last_agent_message st' = last_agent_message st.
Proof.
  unfold check_stop.
  destruct (state (status task)) as [s|].
  - destruct (TaskState_eqb s input_required).
    + intros H; injection H as <- <- <-. split; reflexivity.
    + destruct (terminal s); intros H; injection H as <- <- <-;
        split; reflexivity.
  - intros H; injection H as <- <- <-. split; reflexivity.
Qed.

Lemma recorded_transfer st st' :
  messages_received st' = messages_received st ->
  last_agent_message st' = last_agent_message st ->
  agent_message_recorded st -> agent_message_recorded st'.
Proof.
  unfold agent_message_recorded. intros -> ->. trivial.
Qed.

(** After a fetched task has been processed all its messages are
    recorded. *)
Lemma process_task_records task st evs c st' :
  process_task task st = (evs, (c, st')) ->
  incl (message_ids task) (messages_received st')
  /\ incl (messages_received st) (messages_received st')
  /\ (agent_message_recorded st -> agent_message_recorded st').
Proof.
  unfold process_task.
  destruct (note_state task st) as [evs1 st1] eqn:H1.
  destruct (match status_message (status task) with
            | Some msg => receive (msg_id_of msg) msg st1
            | None => ([], st1)
            end) as [evs2 st2] eqn:H2.
  destruct (receive_history (opt_list (history task)) st2)
    as [evs3 st3] eqn:H3.
  destruct (check_stop task st3) as [evs4 [c4 st4]] eqn:H4.
  intros H; injection H as <- <- <-.
  apply note_state_keeps in H1. destruct H1 as [Hm1 Hl1].
  apply receive_history_records in H3. destruct H3 as (Hin3 & Hinc3 & Hinv3).
  apply check_stop_keeps in H4. destruct H4 as [Hm4 Hl4].
  assert (S2 : (forall msg, status_message (status task) = Some msg ->
                            In (msg_id_of msg) (messages_received st2))
               /\ incl (messages_received st1) (messages_received st2)
               /\ (agent_message_recorded st1 -> agent_message_recorded st2)).
  { destruct (status_message (status task)) as [msg|].
    - apply receive_records in H2. destruct H2 as (Hin & Hinc & Hinv).
      split; [|split; auto].
      intros msg' Heq. injection Heq as <-. assumption.
    - injection H2 as <- <-.
      split; [intros msg Heq; discriminate|].
      split; [apply incl_refl | trivial]. }
  destruct S2 as (Hin2 & Hinc2 & Hinv2).
  rewrite Hm4. split; [|split].
  - unfold message_ids. apply incl_app.
    + destruct (status_message (status task)) as [msg|]; [|intros x []].
      intros x [<-|[]]. apply Hinc3. apply Hin2. reflexivity.
    + intros x Hx. apply in_flat_map in Hx.
      destruct Hx as ([m|] & Hitem & Hx); [|contradiction].
      destruct Hx as [<-|[]]. apply Hin3. assumption.
  - rewrite <- Hm1. eapply incl_tran; eassumption.
  - intros Hinv.
    apply (recorded_transfer st3 st4 Hm4 Hl4).
    apply Hinv3, Hinv2.
    apply (recorded_transfer st st1 Hm1 Hl1). assumption.
Qed.

Section Loop.

Variable get_task : Z -> TaskQueryParams -> Exception + Task.
Variable max_polls : Z.
Variable interval : float.

Lemma poll_iteration_records st evs c st' :
  poll_iteration get_task interval st = (evs, (c, st')) ->
  queries evs = [params_of (self_current_task st)]
  /\ incl (messages_received st) (messages_received st')
  /\ (agent_message_recorded st -> agent_message_recorded st')
  /\ (forall t,
        get_task (poll_count st + 1) (params_of (self_current_task st)) = inr t ->
        incl (message_ids t) (messages_received st')).
Proof.
  unfold poll_iteration, params_of.
  cbn [next_poll poll_count self_current_task].
  destruct (get_task _ _) as [e|task] eqn:Hg.
  - intros H; injection H as <- <- <-. cbn.
    split; [reflexivity|]. split; [apply incl_refl|].
    split; [trivial|]. intros t Ht. discriminate.
  - destruct (process_task task (next_poll st)) as [evs' [c' st'']] eqn:Hp.
    intros H; injection H as <- <- <-.
    pose proof (process_task_spec _ _ _ _ _ Hp) as (_ & _ & Hq & _).
    apply process_task_records in Hp. destruct Hp as (Hids & Hinc & Hinv).
    split; [|split; [|split]].
    + cbn. rewrite (quiet_no_queries _ Hq). reflexivity.
    + exact Hinc.
    + exact Hinv.
    + intros t Ht. injection Ht as <-. exact Hids.
Qed.

(** What a finished run of the loop has asked for and recorded. *)
Lemma poll_loop_records fuel : forall st its st',
  poll_loop get_task max_polls interval fuel st = Some (its, st') ->
  queries (concat its)
  = repeat (params_of (self_current_task st)) (List.length its)
  /\ incl (messages_received st) (messages_received st')
  /\ (agent_message_recorded st -> agent_message_recorded st')
  /\ (forall n t,
        poll_count st < n <= poll_count st' ->
        get_task n (params_of (self_current_task st)) = inr t ->
        incl (message_ids t) (messages_received st'))
  /\ (poll_count st' < max_polls -> its <> [])
  /\ ((forall n t,
         poll_count st < n <= max_polls ->
         get_task n (params_of (self_current_task st)) = inr t ->
         ~ stopping t) ->
      max_polls <= poll_count st'
      /\ self_current_task st' = self_current_task st).
Proof.
  induction fuel as [|fuel IH]; intros st its st'; cbn [poll_loop];
    destruct (poll_count st <? max_polls) eqn:Hlt.
  - discriminate.
  - intros H; injection H as <- <-. apply Z.ltb_ge in Hlt.
    split; [reflexivity|]. split; [apply incl_refl|]. split; [trivial|].
    split; [intros n t Hrange; lia|]. split; [lia|]. intros _. split; [lia | reflexivity].
  - apply Z.ltb_lt in Hlt.
    destruct (poll_iteration get_task interval st) as [evs [[|] st1]] eqn:Hit;
      pose proof (poll_iteration_spec _ _ _ _ _ _ Hit)
        as (Hpc & _ & _ & _ & Hc);
      apply poll_iteration_records in Hit;
      destruct Hit as (Hq & Hinc & Hinv & Hids).
    + destruct (poll_loop get_task max_polls interval fuel st1)
        as [[its1 st2]|] eqn:Hrec; [|discriminate].
      intros H; injection H as <- <-.
      pose proof (poll_loop_spec _ _ _ _ _ _ _ Hrec) as (Hpc2 & _).
      apply IH in Hrec.
      destruct Hrec as (Hq2 & Hinc2 & Hinv2 & Hids2 & Hne2 & Hmax2).
      destruct Hc as (Hsame & Hnostop).
      rewrite Hsame in Hq2, Hids2, Hmax2.
      split; [|split; [|split; [|split; [|split]]]].
      * cbn [concat List.length repeat]. rewrite queries_app, Hq, Hq2.
        reflexivity.
      * eapply incl_tran; eassumption.
      * auto.
      * intros n t Hrange Hg.
        destruct (Z.eq_dec n (poll_count st + 1)) as [->|Hn].
        -- eapply incl_tran; [apply Hids; exact Hg | exact Hinc2].
        -- apply (Hids2 n t); [lia | exact Hg].
      * discriminate.
      * intros Hno. apply Hmax2.
        intros n t Hrange. apply Hno. lia.
    + intros H; injection H as <- <-.
      destruct Hc as (t & Hg & Hs & Ht).
      split; [|split; [|split; [|split; [|split]]]].
      * cbn. rewrite app_nil_r. exact Hq.
      * exact Hinc.
      * exact Hinv.
      * intros n t' Hrange Hg'.
        assert (n = poll_count st + 1) by lia. subst n.
        apply Hids. exact Hg'.
      * discriminate.
      * intros Hno. exfalso.
        apply (Hno (poll_count st + 1) t); [lia | exact Hg | exact Hs].
  - intros H; injection H as <- <-. apply Z.ltb_ge in Hlt.
    split; [reflexivity|]. split; [apply incl_refl|]. split; [trivial|].
    split; [intros n t Hrange; lia|]. split; [lia|]. intros _. split; [lia | reflexivity].
Qed.

End Loop.

Lemma set_current_task_same self task :
  current_task self = Some task -> set_current_task self (Some task) = self.
Proof. destruct self. cbn. intros ->. reflexivity. Qed.

(** X14.  When no poll up to [max_polls] fetches a task in a stopping
    state (the fetch may fail every time), the loop runs [max_polls] times,
    prints that the maximum is reached and leaves the client as it was:
    the tasks it fetched on the way are not stored. *)
Theorem poll_without_stop_runs_to_max
    (get_task : Z -> TaskQueryParams -> Exception + Task)
    (self self' : SimpleA2AClient) (task : Task) (max_polls : Z)
    (interval : float) (its : list (list Event)) (ep : list Event)
    (st : PollState) :
  current_task self = Some task ->
  (forall n t, 1 <= n <= max_polls ->
               get_task n (params_of task) = inr t -> ~ stopping t) ->
  poll_for_updates get_task self max_polls interval
  = Some (Polled its ep st, self') ->
  List.length its = Z.to_nat max_polls
  /\ ep = [reached_max max_polls]
  /\ self' = self.
Proof.
  unfold poll_for_updates. intros Hcur Hno. rewrite Hcur.
  destruct (poll_loop _ _ _ _ _) as [[its0 st0]|] eqn:Hloop; [|discriminate].
  intros H; injection H as Hits Hep Hst Hself. subst its0 st0.
  pose proof (poll_loop_spec _ _ _ _ _ _ _ Hloop) as (Hpc & Hle & _).
  apply poll_loop_records in Hloop.
  destruct Hloop as (_ & _ & _ & _ & _ & Hmax).
  cbn in Hpc, Hmax. destruct Hmax as [Hge Hsame].
  { intros n t Hrange. apply Hno. lia. }
  split; [|split].
  - destruct Hle as [-> | Hle]; cbn in *; lia.
  - rewrite <- Hep.
    destruct (poll_count st >=? max_polls) eqn:Hcmp; [reflexivity|].
    rewrite Z.geb_leb in Hcmp. apply Z.leb_gt in Hcmp. lia.
  - rewrite <- Hself, Hsame. apply set_current_task_same. assumption.
Qed.

Lemma poll_without_stop_runs_to_max_witness :
  exists its ep st,
    poll_for_updates MoreFixture.get_task_down Scenario.self 3 2
    = Some (Polled its ep st, Scenario.self)
    /\ List.length its = 3%nat.
Proof.
  destruct (poll_for_updates MoreFixture.get_task_down Scenario.self 3 2)
    as [[[|its ep st] self']|] eqn:Hrun; try discriminate.
  destruct (poll_without_stop_runs_to_max MoreFixture.get_task_down
              Scenario.self self' Scenario.sent 3 2 its ep st)
    as (Hlen & _ & ->).
  - reflexivity.
  - intros n t _ Hg. discriminate.
  - exact Hrun.
  - exists its, ep, st. split; [reflexivity | exact Hlen].
Defined.

(** X15.  The line about the maximum is printed exactly when the loop has
    run at least [max_polls] times: also when it stopped on a stopping
    state at the last poll, and when [max_polls] is zero or negative. *)
Theorem reached_max_line
    (get_task : Z -> TaskQueryParams -> Exception + Task)
    (self self' : SimpleA2AClient) (max_polls : Z) (interval : float)
    (its : list (list Event)) (ep : list Event) (st : PollState) :
  poll_for_updates get_task self max_polls interval
  = Some (Polled its ep st, self') ->
  ep = if max_polls <=? Z.of_nat (List.length its)
       then [reached_max max_polls] else [].
Proof.
  unfold poll_for_updates.
  destruct (current_task self) as [task|]; [|discriminate].
  destruct (poll_loop _ _ _ _ _) as [[its0 st0]|] eqn:Hloop; [|discriminate].
  intros H; injection H as Hits Hep Hst Hself. subst its0 st0.
  apply poll_loop_spec in Hloop. destruct Hloop as (Hpc & _).
  cbn in Hpc. rewrite <- Hep, Hpc, Z.geb_leb. reflexivity.
Qed.

Lemma reached_max_line_witness :
  exists its st self',
    poll_for_updates Scenario.get_task Scenario.self 3 2
    = Some (Polled its [reached_max 3] st, self')
    /\ current_task self' = Some Scenario.answered.
Proof.
  destruct (poll_for_updates Scenario.get_task Scenario.self 3 2)
    as [[[|its ep st] self']|] eqn:Hrun; try discriminate.
  pose proof (reached_max_line Scenario.get_task Scenario.self self' 3 2
                its ep st Hrun) as Hep.
  assert (Hlen : List.length its = 3%nat /\ current_task self' = Some Scenario.answered).
  { vm_compute in Hrun. injection Hrun as <- _ _ <-. split; reflexivity. }
  destruct Hlen as [Hlen Hcur]. rewrite Hlen in Hep. cbn in Hep. subst ep.
  exists its, st, self'. split; [reflexivity | exact Hcur].
Defined.

(** X16.  The agent message kept for display is a message of the agent,
    and its identifier is among those received. *)
Theorem agent_message_is_recorded
    (get_task : Z -> TaskQueryParams -> Exception + Task)
    (self self' : SimpleA2AClient) (max_polls : Z) (interval : float)
    (its : list (list Event)) (ep : list Event) (st : PollState) :
  poll_for_updates get_task self max_polls interval
  = Some (Polled its ep st, self') ->
  agent_message_recorded st.
Proof.
  unfold poll_for_updates.
  destruct (current_task self) as [task|]; [|discriminate].
  destruct (poll_loop _ _ _ _ _) as [[its0 st0]|] eqn:Hloop; [|discriminate].
  intros H; injection H as Hits Hep Hst Hself. subst its0 st0.
  apply poll_loop_records in Hloop.
  destruct Hloop as (_ & _ & Hinv & _).
  apply Hinv. intros msg Hmsg. discriminate.
Qed.

Lemma agent_message_is_recorded_witness :
  role_of (WithId Scenario.msg_agent) = agent
  /\ In "m-agent" ["m-user"; "m-agent"].
Proof.
  destruct scenario_run as (its & ep & st & Hrun & _ & _ & _ & Hmr & Hlast).
  pose proof (agent_message_is_recorded Scenario.get_task Scenario.self _
                10 2 its ep st Hrun (WithId Scenario.msg_agent) Hlast) as H.
  rewrite Hmr in H. exact H.
Defined.

(** X17.  Every message of every task the loop has fetched, the status
    message and the messages of the history, has its identifier among
    those received. *)
Theorem fetched_messages_are_recorded
    (get_task : Z -> TaskQueryParams -> Exception + Task)
    (self self' : SimpleA2AClient) (task : Task) (max_polls : Z)
    (interval : float) (its : list (list Event)) (ep : list Event)
    (st : PollState) :
  current_task self = Some task ->
  poll_for_updates get_task self max_polls interval
  = Some (Polled its ep st, self') ->
  forall n t,
    1 <= n <= Z.of_nat (List.length its) ->
    get_task n (params_of task) = inr t ->
    incl (message_ids t) (messages_received st).
Proof.
  unfold poll_for_updates. intros Hcur. rewrite Hcur.
  destruct (poll_loop _ _ _ _ _) as [[its0 st0]|] eqn:Hloop; [|discriminate].
  intros H; injection H as Hits Hep Hst Hself. subst its0 st0.
  pose proof (poll_loop_spec _ _ _ _ _ _ _ Hloop) as (Hpc & _).
  apply poll_loop_records in Hloop.
  destruct Hloop as (_ & _ & _ & Hids & _).
  cbn in Hpc, Hids. intros n t Hrange. apply Hids. lia.
Qed.

Lemma fetched_messages_are_recorded_witness :
  incl (message_ids Scenario.answered) ["m-user"; "m-agent"].
Proof.
  destruct scenario_run as (its & ep & st & Hrun & Hlen & _ & _ & Hmr & _).
  pose proof (fetched_messages_are_recorded Scenario.get_task Scenario.self _
                Scenario.sent 10 2 its ep st eq_refl Hrun 3 Scenario.answered)
    as H.
  rewrite Hmr in H. apply H; [rewrite Hlen; lia | reflexivity].
Defined.



End PollMore.

(** ** More on ending a conversation *)

Module EndMore.
Import Client MoreSpec.

(** X19.  [end_conversation] builds a status update only for the current
    task and only with the state completed, and sends at most one update:
    the one the SDK built, and only when there is a client. *)
Theorem end_conversation_sends_completed_once (sdk : SDK)
    (self : SimpleA2AClient) :
  (forall tid s,
     In (ENewStatusUpdate tid s) (trace (end_conversation sdk self)) ->
     s = completed
     /\ exists task, current_task self = Some task /\ tid = task_id task)
  /\ (List.length (updates_sent (trace (end_conversation sdk self))) <= 1)%nat
  /\ (forall ev,
        In ev (updates_sent (trace (end_conversation sdk self))) ->
        client self <> None
        /\ exists task,
             current_task self = Some task
             /\ new_status_update sdk (task_id task) completed = inr ev).
Proof.
  unfold end_conversation, client_send.
  destruct (current_task self) as [task|].
  - destruct (new_status_update sdk (task_id task) completed) as [e|ev] eqn:Hnew;
      cbn.
    + split; [|split].
      * intros tid s [H|[H|[H|[H|[]]]]]; try discriminate.
        injection H as <- <-. eauto.
      * lia.
      * intros ev [].
    + destruct (client self) as [c|]; cbn.
      * destruct (send_task_status_update sdk ev) as [e|[]]; cbn;
          (split; [|split]).
        -- intros tid s [H|[H|[H|[H|[H|[]]]]]]; try discriminate.
           injection H as <- <-. eauto.
        -- lia.
        -- intros ev' [<-|[]]. split; [discriminate | eauto].
        -- intros tid s [H|[H|[H|[H|[]]]]]; try discriminate.
           injection H as <- <-. eauto.
        -- lia.
        -- intros ev' [<-|[]]. split; [discriminate | eauto].
      * split; [|split].
        -- intros tid s [H|[H|[H|[H|[]]]]]; try discriminate.
           injection H as <- <-. eauto.
        -- lia.
        -- intros ev' [].
  - cbn. split; [|split].
    + intros tid s [H|[]]. discriminate.
    + lia.
    + intros ev [].
Qed.

Lemma end_conversation_sends_completed_once_witness :
  updates_sent
    (trace (end_conversation MoreFixture.sdk_sending
              (set_client (set_current_task Fixture.self (Some Scenario.sent))
                          (Some (ClientOf
                                   (Build_AgentCard "Room agent" None "" "" "1"
                                      None None None [] None [] []))))))
  = [{| update_task_id := "task-1"; update_state := completed |}].
Proof.
  pose proof (end_conversation_sends_completed_once MoreFixture.sdk_sending
                (set_client (set_current_task Fixture.self (Some Scenario.sent))
                            (Some (ClientOf
                                     (Build_AgentCard "Room agent" None "" "" "1"
                                        None None None [] None [] [])))))
    as (_ & _ & Hsent).
  destruct (Hsent {| update_task_id := "task-1"; update_state := completed |})
    as [_ _].
  - left. reflexivity.
  - reflexivity.
Defined.

End EndMore.

(** ** Sending a message *)

Module SendFacts.
Import Client Chat ChatSpec PollSpec PollFacts MoreSpec.
Local Open Scope Z_scope.

Lemma sends_app evs evs' : sends (evs ++ evs') = sends evs ++ sends evs'.
Proof.
  induction evs as [|e evs IH]; [reflexivity|].
  destruct e; cbn; rewrite ?IH; reflexivity.
Qed.


Lemma sends_core evs : sends (map Core evs) = [].
Proof. induction evs as [|e evs IH]; [reflexivity | exact IH]. Qed.


Lemma says_send_nothing evs : Forall is_say evs -> sends evs = [].
Proof.
  induction 1 as [|e evs He _ IH]; [reflexivity|].
  destruct e; cbn in *; tauto.
Qed.

Lemma part_lines_say fmt cut parts : Forall is_say (part_lines fmt cut parts).
Proof.
  induction parts as [|[t|] parts IH]; cbn; [constructor | | assumption].
  constructor; [exact I | assumption].
Qed.

(** One response: what it prints and what it changes. *)
Lemma handle_response_spec item st evs st' :
  handle_response item st = (evs, st') ->
  Forall is_say evs
  /\ agent_url (the_self st') = agent_url (the_self st)
  /\ client (the_self st') = client (the_self st)
  /\ http_client (the_self st') = http_client (the_self st)
  /\ current_task (the_self st')
     = last_task [item] (current_task (the_self st))
  /\ message_count st' = message_count st + (if has_reply [item] then 1 else 0).
Proof.
  destruct item as [task view event|r parts|type_repr]; cbn;
    intros H; injection H as <- <-; cbn.
  - split; [|repeat split; lia].
    repeat constructor.
    repeat (apply Forall_app; split);
      repeat match goal with
        | |- Forall _ (part_lines _ _ _) => apply part_lines_say
        | |- Forall _ [] => constructor
        | |- Forall _ (_ :: _) => constructor; [exact I|]
        | |- Forall _ (match ?x with _ => _ end) => destruct x
        end.
  - split; [|repeat split].
    constructor; [exact I|].
    destruct r; (constructor; [exact I | apply part_lines_say]).
  - split; [|repeat split; lia]. repeat constructor.
Qed.

Lemma last_task_app l : forall l' d,
  last_task (l ++ l') d = last_task l' (last_task l d).
Proof.
  induction l as [|item l IH]; intros l' d; [reflexivity|].
  destruct item; cbn; apply IH.
Qed.

Lemma has_reply_cons item l :
  has_reply (item :: l) = (has_reply [item] || has_reply l)%bool.
Proof. unfold has_reply. cbn. now rewrite orb_false_r. Qed.

(** The whole stream. *)
Lemma consume_spec l : forall st evs st',
  consume l st = (evs, st') ->
  Forall is_say evs
  /\ agent_url (the_self st') = agent_url (the_self st)
  /\ client (the_self st') = client (the_self st)
  /\ http_client (the_self st') = http_client (the_self st)
  /\ current_task (the_self st') = last_task l (current_task (the_self st))
  /\ message_count st <= message_count st'
  /\ (has_reply l = false <-> message_count st' = message_count st).
Proof.
  induction l as [|item l IH]; intros st evs st'; cbn [consume].
  - intros H; injection H as <- <-.
    split; [constructor|]. repeat split; lia.
  - destruct (handle_response item st) as [evs1 st1] eqn:H1.
    destruct (consume l st1) as [evs2 st2] eqn:H2.
    intros H; injection H as <- <-.
    apply handle_response_spec in H1. apply IH in H2.
    destruct H1 as (Hs1 & Hu1 & Hc1 & Hh1 & Ht1 & Hm1).
    destruct H2 as (Hs2 & Hu2 & Hc2 & Hh2 & Ht2 & Hm2 & Hr2).
    split; [apply Forall_app; auto|].
    split; [congruence|]. split; [congruence|]. split; [congruence|].
    split.
    { rewrite Ht2, Ht1. change (item :: l) with ([item] ++ l).
      rewrite last_task_app. reflexivity. }
    rewrite (has_reply_cons item l).
    destruct (has_reply [item]); cbn [orb].
    + split; [lia|]. split; [discriminate | lia].
    + split; [lia|]. rewrite Hr2. split; lia.
Qed.

Lemma quiet_poll_kind evs : Forall quiet evs -> Forall poll_kind evs.
Proof. apply Forall_impl. intros [] H; cbn in *; tauto. Qed.

Lemma poll_iteration_kind get_task interval st evs r :
  poll_iteration get_task interval st = (evs, r) -> Forall poll_kind evs.
Proof.
  unfold poll_iteration.
  destruct (get_task _ _) as [e|task].
  - intros H; injection H as <- <-. repeat constructor.
  - destruct (process_task task (next_poll st)) as [evs' [c st']] eqn:Hp.
    intros H; injection H as <- <-.
    apply process_task_spec in Hp. destruct Hp as (_ & _ & Hq & _).
    repeat constructor. apply quiet_poll_kind. assumption.
Qed.

Lemma poll_loop_kind get_task max_polls interval fuel : forall st its st',
  poll_loop get_task max_polls interval fuel st = Some (its, st') ->
  Forall poll_kind (concat its).
Proof.
  induction fuel as [|fuel IH]; intros st its st'; cbn [poll_loop];
    destruct (poll_count st <? max_polls).
  - discriminate.
  - intros H; injection H as <- <-. constructor.
  - destruct (poll_iteration get_task interval st) as [evs [[|] st1]] eqn:Hit;
      apply poll_iteration_kind in Hit.
    + destruct (poll_loop get_task max_polls interval fuel st1)
        as [[its1 st2]|] eqn:Hrec; [|discriminate].
      intros H; injection H as <- <-. cbn.
      apply Forall_app. split; [assumption | eapply IH; eassumption].
    + intros H; injection H as <- <-. cbn. rewrite app_nil_r. assumption.
  - intros H; injection H as <- <-. constructor.
Qed.

(** The polling [send_message] starts: it returns, touches nothing but
    the current task, and sleeps at least once when there is a task. *)
Lemma poll_default_returns
    (get_task : Z -> TaskQueryParams -> Exception + Task)
    (self : SimpleA2AClient) :
  exists r self',
    poll_for_updates_default get_task self = Some (r, self')
    /\ agent_url self' = agent_url self
    /\ client self' = client self
    /\ http_client self' = http_client self
    /\ Forall poll_kind (poll_events r)
    /\ (current_task self <> None ->
        In (ESleep default_interval) (poll_events r)).
Proof.
  unfold poll_for_updates_default, poll_for_updates.
  destruct (current_task self) as [task|].
  - destruct (poll_loop_terminates get_task default_max_polls default_interval
                (Z.to_nat default_max_polls) (initial task))
      as [[its st] Hloop].
    { unfold default_max_polls. cbn. lia. }
    rewrite Hloop. do 2 eexists. split; [reflexivity|].
    split; [reflexivity|]. split; [reflexivity|]. split; [reflexivity|].
    pose proof (poll_loop_kind _ _ _ _ _ _ _ Hloop) as Hkind.
    pose proof (poll_loop_spec _ _ _ _ _ _ _ Hloop) as (Hpc & _ & Hsleep & _).
    apply PollMore.poll_loop_records in Hloop.
    destruct Hloop as (_ & _ & _ & _ & Hne & _).
    split.
    + cbn. apply Forall_app. split; [assumption|].
      destruct (poll_count st >=? default_max_polls); repeat constructor.
    + intros _. cbn.
      destruct its as [|it its].
      * exfalso. cbn in Hpc. apply Hne; [|reflexivity].
        rewrite Hpc. reflexivity.
      * inversion Hsleep as [|? ? (fmt & args & rest & -> & _) _].
        cbn. right. left. reflexivity.
  - do 2 eexists. split; [reflexivity|]. repeat split.
    + constructor.
    + intros H. contradiction.
Qed.

Lemma says_never_sleep evs :
  Forall is_say evs -> forall x, ~ In (Core (ESleep x)) evs.
Proof.
  intros Hall x Hin. rewrite Forall_forall in Hall.
  apply Hall in Hin. exact Hin.
Qed.

(** X21.  [send_message] sends at most one message: none without a
    client, where it only says so and leaves the object alone; otherwise
    exactly one, with a fresh identifier, the role user, the given text
    and the identifier of the current task if there is one. *)
Theorem send_message_sends_one_message (a : Agent) (self self' : SimpleA2AClient)
    (text : string) (evs : list ChatEvent) :
  send_message a self text = Some (evs, self') ->
  sends evs = match client self with
              | Some _ => [message_for a self text]
              | None => []
              end
  /\ (client self = None ->
      evs = [say "❌ Not connected" []] /\ self' = self).
Proof.
  unfold send_message. fold (message_for a self text).
  destruct (client self) as [c|].
  - destruct (consume _ _) as [evs1 st] eqn:Hc.
    apply consume_spec in Hc. destruct Hc as (Hsay & _).
    apply says_send_nothing in Hsay.
    intros H. split; [|discriminate].
    destruct (failure (answer a (message_for a self text))) as [e|].
    + injection H as <- _. cbn. rewrite sends_app, Hsay. reflexivity.
    + destruct (current_task (the_self st)) as [t|];
        [destruct (message_count st =? 0)|].
      * destruct (poll_for_updates_default _ _) as [[r self1]|];
          [|discriminate].
        injection H as <- _.
        destruct (response_count st =? 0);
          repeat (rewrite ?sends_app, ?sends_core, ?Hsay; cbn); reflexivity.
      * injection H as <- _.
        destruct (response_count st =? 0);
          repeat (rewrite ?sends_app, ?sends_core, ?Hsay; cbn); reflexivity.
      * injection H as <- _.
        destruct (response_count st =? 0);
          repeat (rewrite ?sends_app, ?sends_core, ?Hsay; cbn); reflexivity.
  - intros H; injection H as <- <-. repeat split.
Qed.

Lemma send_message_sends_one_message_witness :
  exists evs self',
    send_message ChatFixture.agent_replying ChatFixture.connected "hello"
    = Some (evs, self')
    /\ sends evs
       = [{| sent_id := "0f0e0d0c-0000-4000-8000-000000000002";
             sent_role := user; sent_text := "hello";
             sent_task_id := None |}].
Proof.
  destruct (send_message ChatFixture.agent_replying ChatFixture.connected
              "hello") as [[evs self']|] eqn:Hsend; [|discriminate].
  exists evs, self'. split; [reflexivity|].
  apply (send_message_sends_one_message ChatFixture.agent_replying
           ChatFixture.connected self' "hello" evs Hsend).
Defined.

(** [send_message] with a client, by how the stream ends. *)
Lemma send_message_connected (a : Agent) (self : SimpleA2AClient)
    (text : string) :
  client self <> None ->
  exists evs1 st,
    consume (items (answer a (message_for a self text)))
            {| the_self := self; response_count := 0; message_count := 0 |}
    = (evs1, st)
    /\ ((exists e,
           failure (answer a (message_for a self text)) = Some e
           /\ send_message a self text
              = Some ([say "📤 Sending message..." [];
                       say "   Waiting for responses..." [];
                       say "   [Polling enabled: {}]" [VBool (polling a)];
                       ESendMessage (message_for a self text)]
                        ++ evs1 ++ [say "❌ Error: {}" [VExc e]; ETraceback e],
                      the_self st))
        \/ (failure (answer a (message_for a self text)) = None
            /\ (current_task (the_self st) = None \/ message_count st <> 0)
            /\ exists summary,
                 Forall is_say summary
                 /\ send_message a self text
                    = Some ([say "📤 Sending message..." [];
                             say "   Waiting for responses..." [];
                             say "   [Polling enabled: {}]" [VBool (polling a)];
                             ESendMessage (message_for a self text)]
                              ++ evs1 ++ summary ++ [say "" []],
                            the_self st))
        \/ (failure (answer a (message_for a self text)) = None
            /\ current_task (the_self st) <> None
            /\ message_count st = 0
            /\ exists summary r self',
                 Forall is_say summary
                 /\ poll_for_updates_default (get_task a) (the_self st)
                    = Some (r, self')
                 /\ send_message a self text
                    = Some ([say "📤 Sending message..." [];
                             say "   Waiting for responses..." [];
                             say "   [Polling enabled: {}]" [VBool (polling a)];
                             ESendMessage (message_for a self text)]
                              ++ evs1 ++ summary
                              ++ [say "\n   🔄 Starting manual polling for updates..." []]
                              ++ map Core (poll_events r) ++ [say "" []],
                            self'))).
Proof.
  intros Hclient. unfold send_message. fold (message_for a self text).
  destruct (client self) as [c|]; [|contradiction].
  destruct (consume _ _) as [evs1 st]. exists evs1, st.
  split; [reflexivity|].
  assert (Hsummary : Forall is_say
            (if response_count st =? 0
             then [say "   ⚠️ No responses received" []]
             else [say "   Total responses: {} (messages: {})"
                       [VInt (response_count st); VInt (message_count st)]])).
  { destruct (response_count st =? 0); repeat constructor. }
  destruct (failure (answer a (message_for a self text))) as [e|].
  - left. exists e. split; reflexivity.
  - right.
    destruct (current_task (the_self st)) as [t|] eqn:Hcur.
    + destruct (message_count st =? 0) eqn:Hmc.
      * right. apply Z.eqb_eq in Hmc.
        destruct (poll_default_returns (get_task a) (the_self st))
          as (r & self' & Hpoll & _).
        rewrite Hpoll.
        split; [reflexivity|]. split; [discriminate|]. split; [assumption|].
        eexists. exists r, self'. split; [exact Hsummary|].
        split; reflexivity.
      * left. apply Z.eqb_neq in Hmc.
        split; [reflexivity|]. split; [right; assumption|].
        eexists. split; [exact Hsummary | reflexivity].
    + left. split; [reflexivity|]. split; [left; reflexivity|].
      eexists. split; [exact Hsummary | reflexivity].
Qed.

(** X22.  With a client, [send_message] starts to poll (and so sleeps)
    exactly when the stream ended without an exception, it yielded no
    Message, and there is a current task: the one of the last task update,
    or the one there was before. *)
Theorem polling_starts_exactly_when (a : Agent) (self self' : SimpleA2AClient)
    (text : string) (evs : list ChatEvent) :
  client self <> None ->
  send_message a self text = Some (evs, self') ->
  In (Core (ESleep default_interval)) evs
  <-> failure (answer a (message_for a self text)) = None
      /\ has_reply (items (answer a (message_for a self text))) = false
      /\ last_task (items (answer a (message_for a self text)))
                   (current_task self) <> None.
Proof.
  intros Hclient Hsend.
  destruct (send_message_connected a self text Hclient)
    as (evs1 & st & Hc & Hcases).
  apply consume_spec in Hc.
  destruct Hc as (Hsay & _ & _ & _ & Hcur & _ & Hreply).
  cbn in Hcur, Hreply.
  destruct Hcases as [(e & Hfail & Heq)
    | [(Hfail & Hnot & summary & Hsum & Heq)
      | (Hfail & Htask & Hmc & summary & r & self1 & Hsum & Hpoll & Heq)]];
    rewrite Heq in Hsend; injection Hsend as <- <-.
  - split.
    + intros Hin. exfalso.
      destruct Hin as [H|[H|[H|[H|Hin]]]]; try discriminate.
      apply in_app_or in Hin. destruct Hin as [Hin|Hin].
      { exact (says_never_sleep _ Hsay _ Hin). }
      cbn in Hin. intuition discriminate.
    + intros (Hnone & _). congruence.
  - split.
    + intros Hin. exfalso.
      destruct Hin as [H|[H|[H|[H|Hin]]]]; try discriminate.
      apply in_app_or in Hin. destruct Hin as [Hin|Hin].
      { exact (says_never_sleep _ Hsay _ Hin). }
      apply in_app_or in Hin. destruct Hin as [Hin|Hin].
      { exact (says_never_sleep _ Hsum _ Hin). }
      cbn in Hin. intuition discriminate.
    + intros (_ & Hno & Hlast). exfalso.
      destruct Hnot as [Hnone | Hmc]; [congruence|].
      apply Hmc. apply Hreply. assumption.
  - split.
    + intros _. split; [assumption|]. split; [|congruence].
      apply Hreply. assumption.
    + intros _.
      destruct (poll_default_returns (get_task a) (the_self st))
        as (r' & self'' & Hpoll' & _ & _ & _ & _ & Hsleep).
      rewrite Hpoll in Hpoll'. injection Hpoll' as <- <-.
      do 4 right. apply in_or_app. right. apply in_or_app. right.
      right. apply in_or_app. left. apply in_map. apply Hsleep. assumption.
Qed.

Lemma polling_starts_exactly_when_witness :
  exists evs self',
    send_message ChatFixture.agent_task_only ChatFixture.connected "hello"
    = Some (evs, self')
    /\ In (Core (ESleep default_interval)) evs.
Proof.
  destruct (send_message ChatFixture.agent_task_only ChatFixture.connected
              "hello") as [[evs self']|] eqn:Hsend; [|discriminate].
  exists evs, self'. split; [reflexivity|].
  apply (polling_starts_exactly_when ChatFixture.agent_task_only
           ChatFixture.connected self' "hello" evs).
  - discriminate.
  - exact Hsend.
  - split; [reflexivity|]. split; [reflexivity | discriminate].
Defined.

(** X23.  When [send_message] does not poll, because the stream broke,
    because a Message arrived or because there is no task, the current
    task is the task of the last task update the stream had yielded, or
    the one there was before when it had yielded none. *)
Theorem current_task_follows_the_stream (a : Agent)
    (self self' : SimpleA2AClient) (text : string) (evs : list ChatEvent) :
  client self <> None ->
  send_message a self text = Some (evs, self') ->
  failure (answer a (message_for a self text)) <> None
  \/ has_reply (items (answer a (message_for a self text))) = true
  \/ last_task (items (answer a (message_for a self text)))
               (current_task self) = None ->
  current_task self'
  = last_task (items (answer a (message_for a self text))) (current_task self).
Proof.
  intros Hclient Hsend Hwhy.
  destruct (send_message_connected a self text Hclient)
    as (evs1 & st & Hc & Hcases).
  apply consume_spec in Hc.
  destruct Hc as (_ & _ & _ & _ & Hcur & _ & Hreply).
  cbn in Hcur, Hreply.
  destruct Hcases as [(e & Hfail & Heq)
    | [(Hfail & Hnot & summary & Hsum & Heq)
      | (Hfail & Htask & Hmc & summary & r & self1 & Hsum & Hpoll & Heq)]];
    rewrite Heq in Hsend; injection Hsend as <- <-.
  - exact Hcur.
  - exact Hcur.
  - exfalso. destruct Hwhy as [Hw | [Hw | Hw]].
    + contradiction.
    + apply Hreply in Hmc. congruence.
    + congruence.
Qed.

Lemma current_task_follows_the_stream_witness :
  exists evs self',
    send_message ChatFixture.agent_breaking ChatFixture.connected "hello"
    = Some (evs, self')
    /\ current_task self' = Some Scenario.sent.
Proof.
  destruct (send_message ChatFixture.agent_breaking ChatFixture.connected
              "hello") as [[evs self']|] eqn:Hsend; [|discriminate].
  exists evs, self'. split; [reflexivity|].
  apply (current_task_follows_the_stream ChatFixture.agent_breaking
           ChatFixture.connected self' "hello" evs).
  - discriminate.
  - exact Hsend.
  - left. discriminate.
Defined.

End SendFacts.

Module LoopFacts.
Import Client Chat ChatSpec PollSpec MoreSpec SendFacts.

Lemma says_talk evs : Forall is_say evs -> Forall talk_kind evs.
Proof.
  apply Forall_impl. intros [[]| | |]; cbn; try contradiction; auto.
Qed.

Lemma polls_talk evs : Forall poll_kind evs -> Forall talk_kind (map Core evs).
Proof.
  intros H. apply Forall_map. revert H. apply Forall_impl.
  intros e He. left. exact He.
Qed.

Lemma ends_talk evs : Forall end_kind evs -> Forall talk_kind (map Core evs).
Proof.
  intros H. apply Forall_map. revert H. apply Forall_impl.
  intros e He. right. exact He.
Qed.

(** [send_message] returns, whatever the agent does; it leaves the
    connection as it was. *)
Lemma send_message_returns (a : Agent) (self : SimpleA2AClient)
    (text : string) :
  exists evs self',
    send_message a self text = Some (evs, self')
    /\ agent_url self' = agent_url self
    /\ client self' = client self
    /\ http_client self' = http_client self
    /\ Forall talk_kind evs
    /\ sends evs = match client self with
                   | Some _ => [message_for a self text]
                   | None => []
                   end.
Proof.
  destruct (client self) as [c|] eqn:Hclient.
  - assert (Hconn : client self <> None) by congruence.
    destruct (send_message_connected a self text Hconn)
      as (evs1 & st & Hc & Hcases).
    apply consume_spec in Hc.
    destruct Hc as (Hsay & Hurl & Hcl & Hhttp & _). cbn in Hurl, Hcl, Hhttp.
    assert (Hstart : forall tail,
              Forall talk_kind tail ->
              Forall talk_kind
                ([say "📤 Sending message..." [];
                  say "   Waiting for responses..." [];
                  say "   [Polling enabled: {}]" [VBool (polling a)];
                  ESendMessage (message_for a self text)] ++ evs1 ++ tail)).
    { intros tail Htail. apply Forall_app. split.
      - repeat constructor.
      - apply Forall_app. split; [apply says_talk; assumption | assumption]. }
    assert (Hsends : forall tail,
              sends tail = [] ->
              sends
                ([say "📤 Sending message..." [];
                  say "   Waiting for responses..." [];
                  say "   [Polling enabled: {}]" [VBool (polling a)];
                  ESendMessage (message_for a self text)] ++ evs1 ++ tail)
              = [message_for a self text]).
    { intros tail Htail. cbn. rewrite sends_app, Htail.
      rewrite (says_send_nothing _ Hsay). reflexivity. }
    destruct Hcases as [(e & _ & Heq)
      | [(_ & _ & summary & Hsum & Heq)
        | (_ & _ & _ & summary & r & self1 & Hsum & Hpoll & Heq)]];
      rewrite Heq.
    + exists ([say "📤 Sending message..." [];
               say "   Waiting for responses..." [];
               say "   [Polling enabled: {}]" [VBool (polling a)];
               ESendMessage (message_for a self text)]
                ++ evs1 ++ [say "❌ Error: {}" [VExc e]; ETraceback e]),
             (the_self st).
      split; [reflexivity|]. rewrite Hclient in Hcl.
      split; [assumption|]. split; [assumption|]. split; [assumption|].
      split.
      * apply Hstart. repeat constructor.
      * apply Hsends. reflexivity.
    + exists ([say "📤 Sending message..." [];
               say "   Waiting for responses..." [];
               say "   [Polling enabled: {}]" [VBool (polling a)];
               ESendMessage (message_for a self text)]
                ++ evs1 ++ summary ++ [say "" []]),
             (the_self st).
      split; [reflexivity|]. rewrite Hclient in Hcl.
      split; [assumption|]. split; [assumption|]. split; [assumption|].
      split.
      * apply Hstart. apply Forall_app. split.
        -- apply says_talk. assumption.
        -- repeat constructor.
      * apply Hsends. rewrite sends_app, (says_send_nothing _ Hsum).
        reflexivity.
    + destruct (poll_default_returns (get_task a) (the_self st))
        as (r' & self'' & Hpoll' & Hurl' & Hcl' & Hhttp' & Hkind & _).
      rewrite Hpoll in Hpoll'. injection Hpoll' as <- <-.
      exists ([say "📤 Sending message..." [];
               say "   Waiting for responses..." [];
               say "   [Polling enabled: {}]" [VBool (polling a)];
               ESendMessage (message_for a self text)]
                ++ evs1 ++ summary
                ++ [say "\n   🔄 Starting manual polling for updates..." []]
                ++ map Core (poll_events r) ++ [say "" []]),
             self1.
      split; [reflexivity|]. rewrite Hclient in Hcl.
      split; [congruence|]. split; [congruence|]. split; [congruence|].
      split.
      * apply Hstart. apply Forall_app. split.
        -- apply says_talk. assumption.
        -- constructor; [left; exact I|].
           apply Forall_app. split.
           ++ apply polls_talk. assumption.
           ++ repeat constructor.
      * apply Hsends.
        rewrite sends_app, (says_send_nothing _ Hsum).
        cbn. rewrite sends_app, sends_core. reflexivity.
  - unfold send_message. rewrite Hclient.
    exists [say "❌ Not connected" []], self.
    split; [reflexivity|]. split; [reflexivity|]. split; [assumption|].
    split; [reflexivity|]. split; [|reflexivity].
    repeat constructor.
Qed.

(** [end_conversation] returns: no exception escapes it.  Afterwards
    there is no current task, and the connection is as it was. *)
Lemma end_conversation_returns (sdk : SDK) (self : SimpleA2AClient) :
  exists evs self',
    end_conversation sdk self = (evs, Ok self')
    /\ agent_url self' = agent_url self
    /\ client self' = client self
    /\ http_client self' = http_client self
    /\ current_task self' = None
    /\ Forall end_kind evs.
Proof.
  unfold end_conversation, client_send.
  destruct (current_task self) as [task|] eqn:Hcur.
  - destruct (new_status_update sdk (task_id task) completed) as [e|ev]; cbn.
    + do 2 eexists. split; [reflexivity|]. repeat split.
      repeat constructor.
    + destruct (client self) as [c|] eqn:Hclient; cbn.
      * destruct (send_task_status_update sdk ev) as [e|[]]; cbn;
          (do 2 eexists; split; [reflexivity|]; repeat split;
           try (cbn; assumption); repeat constructor).
      * do 2 eexists. split; [reflexivity|]. repeat split;
          try (cbn; assumption); repeat constructor.
  - cbn. do 2 eexists. split; [reflexivity|]. repeat split; try assumption.
    repeat constructor.
Qed.

(** One line of input, by what it is. *)
Lemma run_loop_line sdk agents k s rest self :
  run_loop sdk agents k (Line s :: rest) self
  = if is_blank s then next_round [] (run_loop sdk agents k rest self)
    else if is_command "/quit" s then
      Some ([EInput "You> "; say "👋 Goodbye!" []], Ok self, rest)
    else if is_command "/new" s then
      next_round [say "🆕 Starting new conversation\n" []]
                 (run_loop sdk agents k rest (set_current_task self None))
    else if is_command "/end" s then
      match end_conversation sdk self with
      | (evs, Ok self') =>
          next_round (map Core evs ++ [say "" []])
                     (run_loop sdk agents k rest self')
      | (evs, Raise e) => Some (EInput "You> " :: map Core evs, Raise e, rest)
      | (evs, Exit c) => Some (EInput "You> " :: map Core evs, Exit c, rest)
      end
    else
      match send_message (agents k) self (PyText.strip s) with
      | Some (evs, self') =>
          next_round evs (run_loop sdk agents (S k) rest self')
      | None => None
      end.
Proof. reflexivity. Qed.

Lemma command_not_blank name s :
  name <> "" -> is_command name s = true -> is_blank s = false.
Proof.
  unfold is_command, is_blank. intros Hname Heq.
  apply String.eqb_eq in Heq.
  destruct (PyText.strip s); [|reflexivity].
  cbn in Heq. congruence.
Qed.

Lemma command_unique name name' s :
  name <> name' -> is_command name s = true -> is_command name' s = false.
Proof.
  unfold is_command. intros Hne Heq. apply String.eqb_eq in Heq.
  rewrite Heq. apply String.eqb_neq. assumption.
Qed.

Lemma text_line s :
  is_text s = true ->
  is_blank s = false /\ is_command "/quit" s = false
  /\ is_command "/new" s = false /\ is_command "/end" s = false.
Proof.
  unfold is_text. intros H.
  apply andb_prop in H. destruct H as [H Hend].
  apply andb_prop in H. destruct H as [H Hnew].
  apply andb_prop in H. destruct H as [Hblank Hquit].
  apply negb_true_iff in Hend, Hnew, Hquit, Hblank. auto.
Qed.

(** The loop on the whole input. *)
Lemma run_loop_spec (sdk : SDK) (agents : nat -> Agent) (input : list Stdin) :
  forall k self,
  exists evs self',
    run_loop sdk agents k input self = Some (evs, Ok self', unread input)
    /\ agent_url self' = agent_url self
    /\ client self' = client self
    /\ http_client self' = http_client self
    /\ Forall talk_kind evs
    /\ (client self <> None ->
        map sent_text (sends evs) = texts_to_send input)
    /\ (client self = None -> sends evs = []).
Proof.
  induction input as [|[s|] input IH]; intros k self.
  - exists [EInput "You> "; say "\n👋 Goodbye!" []], self.
    split; [reflexivity|]. repeat split; repeat constructor.
  - rewrite run_loop_line. cbn [unread texts_to_send].
    destruct (is_blank s) eqn:Hblank.
    { assert (Htext : is_text s = false).
      { unfold is_text. rewrite Hblank. reflexivity. }
      rewrite Htext.
      destruct (IH k self)
        as (evs & self' & Hrun & Hurl & Hcl & Hhttp & Hkind & Hsent & Hnone).
      rewrite Hrun.
      destruct (is_command "/quit" s) eqn:Hquit.
      { apply (command_not_blank "/quit") in Hquit; [congruence|discriminate]. }
      exists (EInput "You> " :: [] ++ evs), self'.
      split; [reflexivity|]. repeat split; try assumption.
      constructor; [exact I | assumption]. }
    destruct (is_command "/quit" s) eqn:Hquit.
    { exists [EInput "You> "; say "👋 Goodbye!" []], self.
      split; [reflexivity|]. repeat split; repeat constructor. }
    destruct (is_command "/new" s) eqn:Hnew.
    { assert (Htext : is_text s = false).
      { unfold is_text. rewrite Hnew, !andb_false_r. reflexivity. }
      rewrite Htext.
      destruct (IH k (set_current_task self None))
        as (evs & self' & Hrun & Hurl & Hcl & Hhttp & Hkind & Hsent & Hnone).
      rewrite Hrun.
      exists (EInput "You> "
                :: [say "🆕 Starting new conversation\n" []] ++ evs), self'.
      split; [reflexivity|]. repeat split; try assumption.
      constructor; [exact I|]. constructor; [left; exact I | assumption]. }
    destruct (is_command "/end" s) eqn:Hend.
    { assert (Htext : is_text s = false).
      { unfold is_text. rewrite Hend, !andb_false_r. reflexivity. }
      rewrite Htext.
      destruct (end_conversation_returns sdk self)
        as (evs0 & self0 & Hec & Hurl0 & Hcl0 & Hhttp0 & _ & Hkind0).
      rewrite Hec.
      destruct (IH k self0)
        as (evs & self' & Hrun & Hurl & Hcl & Hhttp & Hkind & Hsent & Hnone).
      rewrite Hrun.
      exists (EInput "You> " :: (map Core evs0 ++ [say "" []]) ++ evs), self'.
      split; [reflexivity|].
      split; [congruence|]. split; [congruence|]. split; [congruence|].
      split; [|split].
      - constructor; [exact I|]. apply Forall_app. split; [|assumption].
        apply Forall_app. split; [apply ends_talk; assumption|].
        repeat constructor.
      - intros Hconn. cbn [sends]. rewrite !sends_app, sends_core. cbn.
        apply Hsent. congruence.
      - intros Hno. cbn [sends]. rewrite !sends_app, sends_core. cbn.
        apply Hnone. congruence. }
    assert (Htext : is_text s = true).
    { unfold is_text. rewrite Hblank, Hquit, Hnew, Hend. reflexivity. }
    rewrite Htext.
    destruct (send_message_returns (agents k) self (PyText.strip s))
      as (evs0 & self0 & Hsm & Hurl0 & Hcl0 & Hhttp0 & Hkind0 & Hsends0).
    rewrite Hsm.
    destruct (IH (S k) self0)
      as (evs & self' & Hrun & Hurl & Hcl & Hhttp & Hkind & Hsent & Hnone).
    rewrite Hrun.
    exists (EInput "You> " :: evs0 ++ evs), self'.
    split; [reflexivity|].
    split; [congruence|]. split; [congruence|]. split; [congruence|].
    split; [|split].
    + constructor; [exact I|]. apply Forall_app. split; assumption.
    + intros Hconn. cbn [sends]. rewrite sends_app, Hsends0.
      destruct (client self) as [c|]; [|contradiction].
      cbn. f_equal. apply Hsent. congruence.
    + intros Hno. cbn [sends]. rewrite sends_app, Hsends0, Hno. cbn.
      apply Hnone. congruence.
  - exists [EInput "You> "; say "\n👋 Goodbye!" []], self.
    split; [reflexivity|]. repeat split; repeat constructor.
Qed.

(** The loop on input that neither quits nor interrupts, followed by
    more input. *)
Lemma run_loop_prefix (sdk : SDK) (agents : nat -> Agent) (pre : list Stdin) :
  forall k self,
  keeps_going pre = true ->
  exists evs1 self1,
    client self1 = client self
    /\ (client self <> None ->
        List.length (sends evs1) = List.length (texts_to_send pre))
    /\ forall rest,
         run_loop sdk agents k (pre ++ rest) self
         = match run_loop sdk agents (k + List.length (texts_to_send pre))
                          rest self1 with
           | Some (evs', o, r) => Some (evs1 ++ evs', o, r)
           | None => None
           end.
Proof.
  assert (Hnext : forall evs0 evs1 r,
            next_round evs0
              match r with
              | Some (evs', o, r') => Some (evs1 ++ evs', o, r')
              | None => None
              end
            = match r with
              | Some (evs', o, r') =>
                  Some ((EInput "You> " :: evs0 ++ evs1) ++ evs', o, r')
              | None => None
              end).
  { intros evs0 evs1 [[[evs' o] r']|]; [|reflexivity].
    cbn. rewrite <- app_assoc. reflexivity. }
  induction pre as [|[s|] pre IH]; intros k self Hkeep.
  - exists [], self. split; [reflexivity|]. split; [reflexivity|].
    intros rest. cbn. rewrite Nat.add_0_r.
    destruct (run_loop sdk agents k rest self) as [[[evs' o] r]|]; reflexivity.
  - cbn in Hkeep. apply andb_prop in Hkeep. destruct Hkeep as [Hquit Hkeep].
    apply negb_true_iff in Hquit.
    cbn [texts_to_send]. rewrite Hquit.
    destruct (is_blank s) eqn:Hblank.
    { assert (Htext : is_text s = false).
      { unfold is_text. rewrite Hblank. reflexivity. }
      rewrite Htext.
      destruct (IH k self Hkeep) as (evs1 & self1 & Hcl & Hlen & Hsplit).
      exists (EInput "You> " :: [] ++ evs1), self1.
      split; [assumption|]. split; [assumption|].
      intros rest. rewrite <- app_comm_cons, run_loop_line, Hblank, Hsplit.
      apply Hnext. }
    destruct (is_command "/new" s) eqn:Hnew.
    { assert (Htext : is_text s = false).
      { unfold is_text. rewrite Hnew, !andb_false_r. reflexivity. }
      rewrite Htext.
      destruct (IH k (set_current_task self None) Hkeep)
        as (evs1 & self1 & Hcl & Hlen & Hsplit).
      exists (EInput "You> "
                :: [say "🆕 Starting new conversation\n" []] ++ evs1), self1.
      split; [assumption|]. split; [assumption|].
      intros rest.
      rewrite <- app_comm_cons, run_loop_line, Hblank, Hquit, Hnew, Hsplit.
      apply Hnext. }
    destruct (is_command "/end" s) eqn:Hend.
    { assert (Htext : is_text s = false).
      { unfold is_text. rewrite Hend, !andb_false_r. reflexivity. }
      rewrite Htext.
      destruct (end_conversation_returns sdk self)
        as (evs0 & self0 & Hec & _ & Hcl0 & _).
      destruct (IH k self0 Hkeep) as (evs1 & self1 & Hcl & Hlen & Hsplit).
      exists (EInput "You> " :: (map Core evs0 ++ [say "" []]) ++ evs1), self1.
      split; [congruence|]. split.
      - intros Hconn. cbn [sends]. rewrite !sends_app, sends_core. cbn.
        apply Hlen. congruence.
      - intros rest.
        rewrite <- app_comm_cons, run_loop_line, Hblank, Hquit, Hnew, Hend,
          Hec, Hsplit.
        apply Hnext. }
    assert (Htext : is_text s = true).
    { unfold is_text. rewrite Hblank, Hquit, Hnew, Hend. reflexivity. }
    rewrite Htext.
    destruct (send_message_returns (agents k) self (PyText.strip s))
      as (evs0 & self0 & Hsm & _ & Hcl0 & _ & _ & Hsends0).
    destruct (IH (S k) self0 Hkeep) as (evs1 & self1 & Hcl & Hlen & Hsplit).
    exists (EInput "You> " :: evs0 ++ evs1), self1.
    split; [congruence|]. split.
    + intros Hconn. cbn [sends]. rewrite sends_app, Hsends0, length_app.
      destruct (client self) as [c|]; [|contradiction].
      cbn. f_equal. apply Hlen. congruence.
    + intros rest.
      rewrite <- app_comm_cons, run_loop_line, Hblank, Hquit, Hnew, Hend,
        Hsm, Hsplit.
      cbn [List.length]. rewrite Nat.add_succ_r. apply Hnext.
  - discriminate.
Qed.

(** After '/new' or '/end' the next text goes out without a task. *)
Lemma fresh_round (sdk : SDK) (agents : nat -> Agent) (k : nat)
    (s t : string) (rest : list Stdin) (self : SimpleA2AClient) :
  client self <> None ->
  is_command "/new" s || is_command "/end" s = true ->
  is_text t = true ->
  exists evs o r m tail,
    run_loop sdk agents k (Line s :: Line t :: rest) self = Some (evs, o, r)
    /\ sends evs = m :: tail
    /\ sent_text m = PyText.strip t
    /\ sent_task_id m = None.
Proof.
  intros Hconn Hcmd Htext.
  destruct (text_line t Htext) as (Hb & Hq & Hn & He).
  assert (Hround : forall self0,
            client self0 <> None -> current_task self0 = None ->
            exists evs o r m tail,
              run_loop sdk agents k (Line t :: rest) self0 = Some (evs, o, r)
              /\ sends evs = m :: tail
              /\ sent_text m = PyText.strip t
              /\ sent_task_id m = None).
  { intros self0 Hconn0 Hfresh.
    rewrite run_loop_line, Hb, Hq, Hn, He.
    destruct (send_message_returns (agents k) self0 (PyText.strip t))
      as (evs0 & self1 & Hsm & _ & _ & _ & _ & Hsends0).
    rewrite Hsm.
    destruct (run_loop_spec sdk agents rest (S k) self1)
      as (evs & self' & Hrun & _).
    rewrite Hrun.
    exists (EInput "You> " :: evs0 ++ evs), (Ok self'), (unread rest),
           (message_for (agents k) self0 (PyText.strip t)), (sends evs).
    split; [reflexivity|]. split; [|split].
    - cbn [sends]. rewrite sends_app, Hsends0.
      destruct (client self0); [reflexivity | contradiction].
    - reflexivity.
    - cbn. rewrite Hfresh. reflexivity. }
  rewrite run_loop_line.
  destruct (is_command "/new" s) eqn:Hnew.
  - rewrite (command_not_blank "/new" s), (command_unique "/new" "/quit" s);
      try assumption; try discriminate.
    destruct (Hround (set_current_task self None))
      as (evs & o & r & m & tail & Hrun & Hs & Ht & Hid);
      [assumption | reflexivity |].
    rewrite Hrun.
    exists (EInput "You> " :: [say "🆕 Starting new conversation\n" []] ++ evs),
           o, r, m, tail.
    split; [reflexivity|]. split; [exact Hs|]. split; assumption.
  - cbn in Hcmd.
    rewrite (command_not_blank "/end" s), (command_unique "/end" "/quit" s),
      Hcmd; try assumption; try discriminate.
    destruct (end_conversation_returns sdk self)
      as (evs0 & self0 & Hec & _ & Hcl0 & _ & Hcur0 & _).
    rewrite Hec.
    destruct (Hround self0)
      as (evs & o & r & m & tail & Hrun & Hs & Ht & Hid);
      [congruence | assumption |].
    rewrite Hrun.
    exists (EInput "You> " :: (map Core evs0 ++ [say "" []]) ++ evs),
           o, r, m, tail.
    split; [reflexivity|]. split; [|split; assumption].
    cbn [sends]. rewrite !sends_app, sends_core. exact Hs.
Qed.

Lemma banner_sends_nothing : sends banner = [].
Proof. reflexivity. Qed.




(** X26.  The first text after '/new' or '/end' starts a new
    conversation: the message that carries it has no task identifier,
    whatever task the conversation before had reached and whether or not
    the agent took the status update of '/end'. *)
Theorem message_after_new_or_end_is_fresh (sdk : SDK)
    (agents : nat -> Agent) (pre : list Stdin) (s t : string)
    (rest : list Stdin) (self : SimpleA2AClient) (evs : list ChatEvent)
    (o : Outcome SimpleA2AClient) (rest' : list Stdin) :
  client self <> None ->
  keeps_going pre = true ->
  is_command "/new" s || is_command "/end" s = true ->
  is_text t = true ->
  run_interactive sdk agents (pre ++ Line s :: Line t :: rest) self
  = Some (evs, o, rest') ->
  exists m,
    nth_error (sends evs) (List.length (texts_to_send pre)) = Some m
    /\ sent_text m = PyText.strip t
    /\ sent_task_id m = None.
Proof.
  intros Hconn Hkeep Hcmd Htext Hrun. unfold run_interactive in Hrun.
  destruct (run_loop_prefix sdk agents pre 0 self Hkeep)
    as (evs1 & self1 & Hcl & Hlen & Hsplit).
  rewrite Hsplit in Hrun. cbn [Nat.add] in Hrun.
  destruct (fresh_round sdk agents (List.length (texts_to_send pre)) s t rest
              self1)
    as (evs2 & o2 & r2 & m & tail & Hloop & Hsends & Ht & Hid);
    [congruence | assumption | assumption |].
  rewrite Hloop in Hrun.
  assert (Hevs : evs = banner ++ evs1 ++ evs2) by congruence.
  exists m. split; [|split; assumption].
  rewrite Hevs, !sends_app, banner_sends_nothing, Hsends. cbn [app].
  rewrite nth_error_app2; rewrite (Hlen Hconn); [|apply Nat.le_refl].
  rewrite Nat.sub_diag. reflexivity.
Qed.

Lemma message_after_new_or_end_is_fresh_witness :
  exists evs o rest m,
    run_interactive MoreFixture.sdk_sending ChatFixture.agents
      ChatFixture.session ChatFixture.connected
    = Some (evs, o, rest)
    /\ nth_error (sends evs) 1 = Some m
    /\ sent_text m = "again"
    /\ sent_task_id m = None.
Proof.
  destruct (run_interactive MoreFixture.sdk_sending ChatFixture.agents
              ChatFixture.session ChatFixture.connected)
    as [[[evs o] rest]|] eqn:Hrun; [|discriminate].
  destruct (message_after_new_or_end_is_fresh MoreFixture.sdk_sending
              ChatFixture.agents [Line "  "; Line "hello"] " /NEW " "again "
              [Line "/Quit"; Line "never read"] ChatFixture.connected
              evs o rest) as (m & Hnth & Ht & Hid).
  - discriminate.
  - reflexivity.
  - reflexivity.
  - reflexivity.
  - exact Hrun.
  - exists evs, o, rest, m. split; [reflexivity|].
    split; [exact Hnth|]. split; [exact Ht | exact Hid].
Defined.

End LoopFacts.

Module MainFacts.
Import Client Chat ChatSpec MoreSpec TraceSpec ConnectSpec TraceFacts.
Import ConnectFacts ConnectMore SendFacts LoopFacts.



End MainFacts.
